(** * The SQL-to-version-control bridge of dolt: a shallow embedding

    The development embeds the parts of
    [go/libraries/doltcore/sqle/database.go] and
    [go/libraries/doltcore/sqle/dtables/commit_diff_table.go] that the
    properties below talk about, and proves those properties.

    Conventions.
    - Go strings are [string]s of ASCII characters.
    - A Go function returning [(T, error)] returns [result T]; a method that
      reads or writes the session takes the session and returns it.
    - Collaborators whose code lives in other packages ([doltdb], [dsess],
      [schema], the SQL engine) are either interfaces (type classes whose
      fields are the calls the code makes) or definitions modelled on the
      design document; each such definition says so.
    - Storage is an in-memory mapping.  Its reads and writes do not fail,
      except the tag lookup of [createDoltTable], whose error the code
      handles in a way of its own. *)

From Stdlib Require Import Ascii String.
From stdpp Require Import gmap strings list pretty.

Open Scope string_scope.
Open Scope list_scope.

(** ** Go's [strings] package *)

Module gostrings.

Definition is_upper (c : ascii) : bool :=
  let n := nat_of_ascii c in (65 <=? n)%nat && (n <=? 90)%nat.

Definition lower_ascii (c : ascii) : ascii :=
  if is_upper c then ascii_of_nat (nat_of_ascii c + 32) else c.

(** [strings.ToLower] *)
Fixpoint ToLower (s : string) : string :=
  match s with
  | EmptyString => EmptyString
  | String c s' => String (lower_ascii c) (ToLower s')
  end.

(** [strings.HasPrefix(s, prefix)] *)
Fixpoint HasPrefix (s p : string) {struct p} : bool :=
  match p, s with
  | EmptyString, _ => true
  | String _ _, EmptyString => false
  | String a p', String b s' => if Ascii.eqb a b then HasPrefix s' p' else false
  end.

(** [strings.HasSuffix(s, suffix)] *)
Fixpoint HasSuffix (s suf : string) : bool :=
  if String.eqb s suf then true
  else match s with
       | EmptyString => false
       | String _ s' => HasSuffix s' suf
       end.

(** [strings.Join(elems, sep)] *)
Fixpoint Join (elems : list string) (sep : string) : string :=
  match elems with
  | [] => ""
  | [e] => e
  | e :: rest => e +:+ sep +:+ Join rest sep
  end.

(** [s[n:]] for [n <= len(s)] *)
Fixpoint drop (n : nat) (s : string) : string :=
  match n, s with
  | O, _ => s
  | S n', String _ s' => drop n' s'
  | S _, EmptyString => EmptyString
  end.

End gostrings.

Import gostrings.

(** ** Go's [time] package *)

Module gotime.

(** [time.Time], as the instant it denotes: the nanoseconds since the Unix
    epoch (the location does not change the instant). *)
Definition Time : Type := Z.

(** [time.Unix(sec, nsec)] *)
Definition Unix (sec nsec : Z) : Time := (sec * 1000000000 + nsec)%Z.

(** [Time.Unix()]: the whole seconds since the epoch, rounded down. *)
Definition Time_Unix (t : Time) : Z := (t / 1000000000)%Z.

End gotime.

(** ** Errors and results *)

(** The error values the embedded code creates or passes on.
    [ErrQueryingTable t e] is [fmt.Errorf("error querying table %s: %w", t, e)];
    [ErrTagsPrevUsed] carries one line per [schema.ErrTagPrevUsed(tag, column,
    table)] joined by the code; [Panic] is a Go panic; [ErrUpstream] stands
    for the errors of collaborators (storage, type conversion). *)
Inductive error : Type :=
  | ErrInvalidTableName (name : string)
  | ErrReservedTableName (name : string)
  | ErrSystemTableAlter (name : string)
  | ErrExactlyOneToCommit
  | ErrExactlyOneFromCommit
  | ErrInvalidCommitDiffTableArgs
  | ErrQueryingTable (table : string) (wrapped : error)
  | ErrMustBeString (column : string)
  | ErrTableNotFound (name : string)
  | ErrTableAlreadyExists (name : string)
  | ErrOperationNotSupportedInDetachedHead
  | ErrNoRootValueInSession
  | ErrNoStateForDatabase (name : string)
  | ErrIncorrectDocsSchema
  | ErrTagsPrevUsed (lines : list (N * string * string))
  | ErrUsingSpatialKey (name : string)
  | ErrExistingView (db name : string)
  | ErrViewDoesNotExist (db name : string)
  | ErrTriggerAlreadyExists (name : string)
  | ErrTriggerDoesNotExist (name : string)
  | ErrEventAlreadyExists (name : string)
  | ErrEventDoesNotExist (name : string)
  | ErrAuthorization (db : string)
  | ErrWorkingSetNotFound
  | EOF
  | Panic (msg : string)
  | ErrUpstream (msg : string).

Inductive result (A : Type) : Type :=
  | Ok (a : A)
  | Err (e : error).
Arguments Ok {A} a.
Arguments Err {A} e.

Definition is_ok {A} (r : result A) : bool :=
  match r with Ok _ => true | Err _ => false end.


(** Code that reads and writes a state [St] and may fail.  As in Go, a
    failure keeps the writes made before it. *)
Definition M (St A : Type) : Type := St -> result A * St.

Definition ret {St A} (a : A) : M St A := fun s => (Ok a, s).
Definition fail {St A} (e : error) : M St A := fun s => (Err e, s).
Definition bind {St A B} (m : M St A) (k : A -> M St B) : M St B :=
  fun s => match m s with
           | (Ok a, s') => k a s'
           | (Err e, s') => (Err e, s')
           end.
Definition lift {St A} (r : result A) : M St A := fun s => (r, s).
Definition get {St} : M St St := fun s => (Ok s, s).
Definition put {St} (s : St) : M St unit := fun _ => (Ok tt, s).
Definition modify {St} (f : St -> St) : M St unit := fun s => (Ok tt, f s).

Notation "'do' x <- m ; k" := (bind m (fun x => k))
  (at level 10, x name, m at level 100, k at level 200).
Notation "'do_' m ; k" := (bind m (fun _ => k))
  (at level 10, m at level 100, k at level 200).

(** ** The SQL engine's types (go-mysql-server) *)

Module sql.

(** An [interface{}] value travelling through an index range. *)
Inductive Value : Type :=
  | VString (s : string)
  | VInt (z : Z)
  | VNil.

Global Instance Value_eq_dec : EqDecision Value.
Proof. solve_decision. Defined.

(** [sql.RangeCut]: the five bound shapes of the engine. *)
Inductive RangeCut : Type :=
  | Above (key : Value)
  | Below (key : Value)
  | AboveAll
  | AboveNull
  | BelowNull.

(** [sql.Type], as far as the code uses it. *)
Record Type_ : Type := { Convert : Value -> result Value }.

Record RangeColumnExpr : Type := {
  LowerBound : RangeCut;
  UpperBound : RangeCut;
  Typ : Type_
}.

Definition Range : Type := list RangeColumnExpr.

Record IndexLookup : Type := { Ranges : list Range }.


(** [sql.GetRangeCutKey]: panics on a cut that carries no key. *)
Definition GetRangeCutKey (c : RangeCut) : result Value :=
  match c with
  | Below k => Ok k
  | Above k => Ok k
  | _ => Err (Panic "need to check the RangeCut type before calling GetRangeCutKey")
  end.

Record Warning : Type := { Level : string; Code : Z; Message : string }.

(** [sql.Column], [sql.Schema] and [sql.PrimaryKeySchema]. *)
Record Column : Type := {
  ColName : string;
  ColType : string;
  PrimaryKey : bool;
  Nullable : bool
}.

Definition Schema : Type := list Column.

Record PrimaryKeySchema : Type := {
  PkSchema : Schema;
  PkOrdinals : list nat
}.

Global Instance Column_eq_dec : EqDecision Column.
Proof. solve_decision. Defined.

(** [Schema.Equals] *)
Definition Equals (a b : Schema) : bool := bool_decide (a = b).

(** Modelled from the spec: case-insensitive resolution of a table name
    ([sql.GetTableNameInsensitive] belongs to the engine, whose code is not
    among the sources): an exact match wins, then the first name equal up
    to letter case. *)
Definition GetTableNameInsensitive (tblName : string) (tableNames : list string)
  : option string :=
  match List.find (String.eqb tblName) tableNames with
  | Some name => Some name
  | None =>
      List.find (fun name => String.eqb (ToLower tblName) (ToLower name)) tableNames
  end.

End sql.

(** ** Package [doltdb]: names, schemas, root values, commits *)

Module doltdb.

(** Modelled from the spec: the table-name constants of [doltdb] (their
    declarations are not among the sources); the design document lists the
    prefix-dispatched and the exact-name reflective tables. *)
Definition DoltDiffTablePrefix : string := "dolt_diff_".
Definition DoltCommitDiffTablePrefix : string := "dolt_commit_diff_".
Definition DoltHistoryTablePrefix : string := "dolt_history_".
Definition DoltConfTablePrefix : string := "dolt_conflicts_".
Definition DoltConstViolTablePrefix : string := "dolt_constraint_violations_".
Definition LogTableName : string := "dolt_log".
Definition DiffTableName : string := "dolt_diff".
Definition ColumnDiffTableName : string := "dolt_column_diff".
Definition TableOfTablesInConflictName : string := "dolt_conflicts".
Definition TableOfTablesWithViolationsName : string := "dolt_constraint_violations".
Definition SchemaConflictsTableName : string := "dolt_schema_conflicts".
Definition BranchesTableName : string := "dolt_branches".
Definition RemoteBranchesTableName : string := "dolt_remote_branches".
Definition RemotesTableName : string := "dolt_remotes".
Definition CommitsTableName : string := "dolt_commits".
Definition CommitAncestorsTableName : string := "dolt_commit_ancestors".
Definition StatusTableName : string := "dolt_status".
Definition MergeStatusTableName : string := "dolt_merge_status".
Definition TagsTableName : string := "dolt_tags".
Definition IgnoreTableName : string := "dolt_ignore".
Definition AccessTableName : string := "dolt_branch_control".
Definition NamespaceTableName : string := "dolt_branch_namespace_control".
Definition SchemasTableName : string := "dolt_schemas".
Definition DocTableName : string := "dolt_docs".

(** Modelled from the spec: a column of a schema, [{tag (uint64, stable),
    name, ..., primary-key bit}], with the bits behind the derived
    predicates [has-auto-increment] and [is-using-spatial-pk]. *)
Record Column : Type := {
  Tag : N;
  Name : string;
  IsPartOfPK : bool;
  AutoIncrement : bool;
  IsSpatial : bool
}.

(** An ordered column set. *)
Definition Schema : Type := list Column.

(** Modelled from the spec: [schema.HasAutoIncrement]. *)
Definition HasAutoIncrement (sch : Schema) : bool := existsb AutoIncrement sch.

(** Modelled from the spec: [schema.IsUsingSpatialColAsKey]. *)
Definition IsUsingSpatialColAsKey (sch : Schema) : bool :=
  existsb (fun c => IsPartOfPK c && IsSpatial c) sch.

Definition Row : Type := list sql.Value.

(** Modelled from the spec: a table snapshot, [{schema, rows,
    auto-increment-hint}]. *)
Record Table : Type := {
  GetSchema : Schema;
  GetRowData : list Row;
  AutoIncVal : N
}.

(** Modelled from the spec: a root value is an immutable mapping from
    (case-sensitive) table names to table snapshots, plus a collation. *)
Record RootValue : Type := {
  tables : gmap string Table;
  collation : N
}.

(** Modelled from the spec: [has(name)]. *)
Definition HasTable (root : RootValue) (name : string) : bool :=
  bool_decide (is_Some (tables root !! name)).

(** Modelled from the spec: the lookup of a table by its stored name. *)
Definition GetTable (root : RootValue) (name : string) : option Table :=
  tables root !! name.

(** Modelled from the spec: [names()]. *)
Definition GetTableNames (root : RootValue) : list string :=
  (map_to_list (tables root)).*1.

(** Modelled from the spec: [get(name, case-insensitive)], the table and
    the name it is stored under. *)
Definition GetTableInsensitive (root : RootValue) (name : string)
  : option (Table * string) :=
  match sql.GetTableNameInsensitive name (GetTableNames root) with
  | Some n => match tables root !! n with
              | Some t => Some (t, n)
              | None => None
              end
  | None => None
  end.

(** Modelled from the spec: [create-empty(name, schema)]. *)
Definition CreateEmptyTable (root : RootValue) (name : string) (sch : Schema)
  : RootValue :=
  {| tables := <[name := {| GetSchema := sch; GetRowData := []; AutoIncVal := 1 |}]>
                 (tables root);
     collation := collation root |}.

(** Modelled from the spec: [remove(names)], for one name. *)
Definition RemoveTables (root : RootValue) (name : string) : RootValue :=
  {| tables := delete name (tables root); collation := collation root |}.

(** Modelled from the spec: a table snapshot is replaced on every write;
    the mutator returns a new root. *)
Definition PutTable (root : RootValue) (name : string) (t : Table) : RootValue :=
  {| tables := <[name := t]> (tables root); collation := collation root |}.

Definition owns_tag (t : Table) (tag : N) : bool :=
  existsb (fun c => N.eqb (Tag c) tag) (GetSchema t).

(** Modelled from the spec: [get-by-col-tag(tag)] reveals which existing
    table owns a tag; this is the answer of a lookup that could read the
    schemas of the root's tables. *)
Definition tableByColTag (root : RootValue) (tag : N) : option string :=
  fst <$> List.find (fun nt => owns_tag (snd nt) tag) (map_to_list (tables root)).

Record CommitMeta : Type := { Time : Z }.

(** Modelled from the spec: a commit carries metadata with a timestamp
    and a root value; its accessors read storage and may fail. *)
Record Commit : Type := {
  HashOf : result string;
  GetCommitMeta : result CommitMeta;
  GetRootValue : result RootValue
}.

(** Modelled from the spec: a working set ties a branch to a working and
    a staged root. *)
Record WorkingSet : Type := {
  Ref : string;
  WorkingRoot : RootValue;
  StagedRoot : RootValue
}.

Definition WithWorkingRoot (ws : WorkingSet) (root : RootValue) : WorkingSet :=
  {| Ref := Ref ws; WorkingRoot := root; StagedRoot := StagedRoot ws |}.

(** Modelled from the spec: the commit graph accessor, as the calls the
    code makes on a [DoltDB]:
    resolve a commit spec (optionally against a head ref), walk history in
    topological order from a commit hash, list branches, resolve a working
    set. *)
Record DoltDB : Type := {
  Resolve : string -> option string -> result Commit;
  GetTopologicalOrderIterator : string -> result (list (result Commit));
  GetBranches : result (list string);
  ResolveWorkingSet : string -> result WorkingSet
}.

(** Modelled from the spec: the working-set ref of a branch
    ([ref.WorkingSetRefForHead] is not among the sources). *)
Definition WorkingSetRefForHead (branch : string) : string :=
  "workingSets/" +:+ branch.

(** The functions of the package whose bodies are not among the sources:
    the reserved-name predicates, table-name validity, commit-spec parsing,
    the content hash behind [NewDataCacheKey], and the error, if any, that
    the storage raises when the tables of a root are read to look a tag
    up. *)
Class Names : Type := {
  HasDoltPrefix : string -> bool;
  IsFullTextTable : string -> bool;
  IsReadOnlySystemTable : string -> bool;
  IsNonAlterableSystemTable : string -> bool;
  IsValidTableName : string -> bool;
  NewCommitSpec : string -> result string;
  NewDataCacheKey : RootValue -> N;
  TagLookupError : RootValue -> N -> option error
}.

(** Modelled from the spec: [get-by-col-tag(tag)] with the error return
    that [createDoltTable] handles ([RootValue.GetTableByColTag] is not
    among the sources): the name of the table that owns the tag and
    whether there is one, or the error of the storage. *)
Definition GetTableByColTag `{!Names} (root : RootValue) (tag : N)
  : result (option string) :=
  match TagLookupError root tag with
  | Some e => Err e
  | None => Ok (tableByColTag root tag)
  end.

(** Modelled from the spec: a schema is an ordered column set;
    [ColCollection.Iter] (not among the sources) runs the callback on the
    columns in order, until the callback fails or asks to stop, and returns
    the error of the callback. *)
Fixpoint Iter {St : Type} (cols : Schema) (cb : N -> Column -> M St bool)
  : M St unit :=
  match cols with
  | [] => ret tt
  | col :: rest =>
      do stop <- cb (Tag col) col;
      if stop then ret tt else Iter rest cb
  end.

End doltdb.

(** ** Package [dtables]: the commit-diff table *)

Module dtables.

Import doltdb.

(** [DiffPartition], as built by [LookupPartitions]. *)
Record DiffPartition : Type := {
  to : option Table;
  from : option Table;
  toName : string;
  fromName : string;
  toDate : option Z;
  fromDate : option Z;
  toSch : Schema;
  fromSch : Schema
}.

(** What the file uses from [diff_table.go], which is not among the
    sources: the diffability test of a partition (false when the primary
    key set changed between [from] and [to]), the warning code, the warning
    text for a pair of commit names, and the sql schema of the diff table
    (whose construction may fail). *)
Class DiffTables : Type := {
  isDiffablePartition : DiffPartition -> result bool;
  PrimaryKeyChangeWarningCode : Z;
  PrimaryKeyChangeWarning : string -> string -> string;
  GetDiffTableSchema : string -> Schema -> result sql.Schema
}.

(** [CommitDiffTable]; the joiner is derived from [targetSchema] and the
    field [requiredFilterErr] is never read or written. *)
Record CommitDiffTable : Type := {
  name : string;
  ddb : DoltDB;
  sqlSch : sql.Schema;
  workingRoot : RootValue;
  toCommit : string;
  fromCommit : string;
  targetSchema : Schema
}.

Definition set_toCommit (dt : CommitDiffTable) (c : string) : CommitDiffTable :=
  {| name := name dt; ddb := ddb dt; sqlSch := sqlSch dt;
     workingRoot := workingRoot dt; toCommit := c; fromCommit := fromCommit dt;
     targetSchema := targetSchema dt |}.

Definition set_fromCommit (dt : CommitDiffTable) (c : string) : CommitDiffTable :=
  {| name := name dt; ddb := ddb dt; sqlSch := sqlSch dt;
     workingRoot := workingRoot dt; toCommit := toCommit dt; fromCommit := c;
     targetSchema := targetSchema dt |}.

(** [SliceOfPartitionsItr]; the mutex has no counterpart here. *)
Record SliceOfPartitionsItr : Type := {
  partitions : list DiffPartition;
  i : nat
}.

Definition NewSliceOfPartitionsItr (ps : list DiffPartition) : SliceOfPartitionsItr :=
  {| partitions := ps; i := 0 |}.

(** [SliceOfPartitionsItr.Next] *)
Definition Next : M SliceOfPartitionsItr DiffPartition :=
  fun itr =>
    match partitions itr !! i itr with
    | None => (Err EOF, itr)
    | Some next => (Ok next, {| partitions := partitions itr; i := S (i itr) |})
    end.

(** What [LookupPartitions] writes: its receiver and the warnings of the
    session in [ctx]. *)
Record LookupState : Type := {
  dt : CommitDiffTable;
  warnings : list sql.Warning
}.

(** [ctx.Warn(code, msg)] *)
Definition Warn (code : Z) (msg : string) : M LookupState unit :=
  modify (fun st =>
    {| dt := dt st;
       warnings := warnings st ++
         [{| sql.Level := "Warning"; sql.Code := code; sql.Message := msg |}] |}).

Section CommitDiffTable.
Context `{!Names} `{!DiffTables}.

(** [NewCommitDiffTable] *)
Definition NewCommitDiffTable (tblName : string) (ddb : DoltDB) (root : RootValue)
  : result CommitDiffTable :=
  let diffTblName := DoltCommitDiffTablePrefix +:+ tblName in
  match GetTableInsensitive root tblName with
  | None => Err (ErrTableNotFound diffTblName)
  | Some (table, _) =>
      let sch := GetSchema table in
      match GetDiffTableSchema diffTblName sch with
      | Err e => Err e
      | Ok sqlSch =>
          Ok {| name := tblName; ddb := ddb; sqlSch := sqlSch;
                workingRoot := root; toCommit := ""; fromCommit := "";
                targetSchema := sch |}
      end
  end.

(** [CommitDiffTable.Name] *)
Definition Name (dt : CommitDiffTable) : string :=
  DoltCommitDiffTablePrefix +:+ name dt.

(** [CommitDiffTable.IndexedAccess]: a copy of the receiver. *)
Definition IndexedAccess (dt : CommitDiffTable) (lookup : sql.IndexLookup)
  : CommitDiffTable := dt.


(** [CommitDiffTable.rootValForHash] *)
Definition rootValForHash (dt : CommitDiffTable) (hashStr : string)
  : result (RootValue * string * option Z) :=
  if String.eqb (ToLower hashStr) "working" then
    Ok (workingRoot dt, hashStr, None)
  else
    match NewCommitSpec hashStr with
    | Err e => Err e
    | Ok cs =>
        match Resolve (ddb dt) cs None with
        | Err e => Err e
        | Ok cm =>
            match GetRootValue cm with
            | Err e => Err e
            | Ok root =>
                match GetCommitMeta cm with
                | Err e => Err e
                | Ok meta => Ok (root, hashStr, Some (Time meta))
                end
            end
        end
    end.

(** The type switch [case sql.Above, sql.Below: default: ...]. *)
Definition is_above_or_below (c : sql.RangeCut) : bool :=
  match c with
  | sql.Above _ | sql.Below _ => true
  | _ => false
  end.

(** The type assertion [v.(string)]. *)
Definition as_string (v : sql.Value) : option string :=
  match v with sql.VString s => Some s | _ => None end.

Definition set_dt (f : CommitDiffTable -> CommitDiffTable) : M LookupState unit :=
  modify (fun st => {| dt := f (dt st); warnings := warnings st |}).

(** [CommitDiffTable.LookupPartitions] *)
Definition LookupPartitions (i : sql.IndexLookup) : M LookupState SliceOfPartitionsItr :=
  match sql.Ranges i with
  | [[to_; from_]] =>
      if negb (is_above_or_below (sql.UpperBound to_)) then
        fail ErrInvalidCommitDiffTableArgs
      else if negb (is_above_or_below (sql.UpperBound from_)) then
        fail ErrInvalidCommitDiffTableArgs
      else
        do key <- lift (sql.GetRangeCutKey (sql.UpperBound to_));
        do toVal <- lift (sql.Convert (sql.Typ to_) key);
        match as_string toVal with
        | None =>
            (* the failed assertion stores the zero value "" *)
            do_ set_dt (fun dt => set_toCommit dt "");
            fail (ErrMustBeString "to_commit")
        | Some toC =>
            do_ set_dt (fun dt => set_toCommit dt toC);
            do key <- lift (sql.GetRangeCutKey (sql.UpperBound from_));
            do fromVal <- lift (sql.Convert (sql.Typ from_) key);
            match as_string fromVal with
            | None =>
                do_ set_dt (fun dt => set_fromCommit dt "");
                fail (ErrMustBeString "from_commit")
            | Some fromC =>
                do_ set_dt (fun dt => set_fromCommit dt fromC);
                do st <- get;
                let t := dt st in
                do toRes <- lift (rootValForHash t (toCommit t));
                let '(toRoot, toHash, toTime) := toRes in
                do fromRes <- lift (rootValForHash t (fromCommit t));
                let '(fromRoot, fromHash, fromTime) := fromRes in
                let toTable := fst <$> GetTableInsensitive toRoot (name t) in
                let fromTable := fst <$> GetTableInsensitive fromRoot (name t) in
                let dp := {| to := toTable; from := fromTable;
                             toName := toHash; fromName := fromHash;
                             toDate := toTime; fromDate := fromTime;
                             toSch := targetSchema t; fromSch := targetSchema t |} in
                do isDiffable <- lift (isDiffablePartition dp);
                if negb isDiffable then
                  do_ Warn PrimaryKeyChangeWarningCode
                        (PrimaryKeyChangeWarning (fromName dp) (toName dp));
                  ret (NewSliceOfPartitionsItr [])
                else
                  ret (NewSliceOfPartitionsItr [dp])
            end
        end
  | _ => fail ErrInvalidCommitDiffTableArgs
  end.

End CommitDiffTable.

End dtables.

(** ** Table adapters ([sql.Table] values the facade hands out) *)

Module adapters.

Import doltdb.

(** [DoltTable]: a persisted table bound to its snapshot. *)
Record DoltTable : Type := {
  tableName : string;
  sch : Schema;
  table : Table
}.

(** A temporary table; it lives in the session only. *)
Record TempTable : Type := {
  tmpName : string;
  tmpDbName : string;
  tmpSchema : sql.PrimaryKeySchema;
  tmpCollation : N
}.

(** The prefix-dispatched reflective tables other than commit-diff and
    history. *)
Inductive PrefixKind : Type :=
  | DiffK
  | ConflictsK
  | ConstraintViolationsK.

(** The exact-name reflective tables. *)
Inductive ExactKind : Type :=
  | LogTable
  | UnscopedDiffTable
  | ColumnDiffTable
  | TableOfTablesInConflict
  | TableOfTablesConstraintViolations
  | SchemaConflictsTable
  | BranchesTable
  | RemoteBranchesTable
  | RemotesTable
  | CommitsTable
  | CommitAncestorsTable
  | StatusTable
  | MergeStatusTable
  | TagsTable
  | BranchControlTable
  | BranchNamespaceControlTable
  | IgnoreTable.

(** The dynamic type of a [sql.Table]. *)
Inductive SqlTable : Type :=
  | ReadOnly (t : DoltTable)
  | Writable (t : DoltTable)
  | Alterable (t : DoltTable)
  | Temporary (t : TempTable)
  | CommitDiff (t : dtables.CommitDiffTable)
  | History (base : DoltTable) (head : Commit)
  | Prefixed (k : PrefixKind) (suffix : string)
  | Exact (k : ExactKind).

(** Constructors of [dtables] and of this package that can fail and whose
    bodies are not among the sources. *)
Class Constructors : Type := {
  NewDiffTable : string -> RootValue -> Commit -> result unit;
  NewConflictsTable : string -> SqlTable -> RootValue -> result unit;
  NewConstraintViolationsTable : string -> RootValue -> result unit;
  NewTempTable : sql.PrimaryKeySchema -> string -> string -> N -> result TempTable;
  ToDoltSchema : RootValue -> string -> sql.PrimaryKeySchema -> RootValue -> N
                 -> result Schema;
  DoltDocsSqlSchema : sql.Schema;
  OldDoltDocsSqlSchema : sql.Schema;
  SchemaTableSchema : Schema
}.

End adapters.

(** ** Package [dsess]: the session *)

Module dsess.

Import doltdb adapters.

(** Modelled from the spec: the session state of one database revision,
    [{working root, working-set ref, derived-table cache keyed by
    (root-hash, table-name)}]; a detached head has no working set and
    reads its head root. *)
Record DbState : Type := {
  headCommit : Commit;
  headRoot : RootValue;
  workingSet : option WorkingSet;
  sessionCache : gmap N (gmap string SqlTable)
}.

Definition DbState_WorkingRoot (st : DbState) : RootValue :=
  match workingSet st with
  | Some ws => WorkingRoot ws
  | None => headRoot st
  end.

(** Modelled from the spec: a session holds its database states, its
    temporary tables per database name, its warnings, the branch-scoped
    write permission of its user and its sql mode. *)
Record Session : Type := {
  dbStates : gmap string DbState;
  tempTables : gmap string (list TempTable);
  warnings : list sql.Warning;
  writeAllowed : string -> bool;
  branchController : bool;
  sqlMode : string
}.

(** A session together with the process-wide auto-increment tracker. *)
Record World : Type := {
  session : Session;
  autoIncrement : gmap string N
}.

Definition set_session (f : Session -> Session) (w : World) : World :=
  {| session := f (session w); autoIncrement := autoIncrement w |}.

Definition set_dbStates (f : gmap string DbState -> gmap string DbState)
  (s : Session) : Session :=
  {| dbStates := f (dbStates s); tempTables := tempTables s;
     warnings := warnings s; writeAllowed := writeAllowed s;
     branchController := branchController s; sqlMode := sqlMode s |}.

Definition set_tempTables
  (f : gmap string (list TempTable) -> gmap string (list TempTable))
  (s : Session) : Session :=
  {| dbStates := dbStates s; tempTables := f (tempTables s);
     warnings := warnings s; writeAllowed := writeAllowed s;
     branchController := branchController s; sqlMode := sqlMode s |}.

Definition set_autoIncrement (f : gmap string N -> gmap string N) (w : World)
  : World :=
  {| session := session w; autoIncrement := f (autoIncrement w) |}.

(** Modelled from the spec: [sess.LookupDbState], the state of a
    database revision and whether the session has one. *)
Definition LookupDbState (name : string) : M World (option DbState) :=
  fun w => (Ok (dbStates (session w) !! name), w).

Definition temp_named (tblName : string) (t : TempTable) : bool :=
  String.eqb (ToLower (tmpName t)) (ToLower tblName).

(** Modelled from the spec: [sess.GetTemporaryTable] looks a name up,
    case-insensitively, in the temporary tables of a database. *)
Definition GetTemporaryTable (w : World) (dbName tblName : string)
  : option TempTable :=
  match tempTables (session w) !! dbName with
  | Some tbls => List.find (temp_named tblName) tbls
  | None => None
  end.

(** Modelled from the spec: [sess.AddTemporaryTable] registers a temporary
    table for a database. *)
Definition AddTemporaryTable (dbName : string) (tmp : TempTable) : M World unit :=
  modify (set_session (set_tempTables (fun m =>
    <[dbName := default [] (m !! dbName) ++ [tmp]]> m))).

(** Modelled from the spec: [sess.DropTemporaryTable] discards the
    temporary tables of that name. *)
Definition DropTemporaryTable (dbName tblName : string) : M World unit :=
  modify (set_session (set_tempTables (fun m =>
    <[dbName := List.filter (fun t => negb (temp_named tblName t))
                  (default [] (m !! dbName))]> m))).

(** Modelled from the spec: [sess.GetHeadCommit], the head commit of a
    database state. *)
Definition GetHeadCommit (name : string) : M World Commit :=
  fun w => match dbStates (session w) !! name with
           | Some st => (Ok (headCommit st), w)
           | None => (Err (ErrNoStateForDatabase name), w)
           end.

(** Modelled from the spec: [sess.WorkingSet], the working set of a
    database state; a detached head has none. *)
Definition WorkingSet (name : string) : M World WorkingSet :=
  fun w => match dbStates (session w) !! name with
           | Some st =>
               match workingSet st with
               | Some ws => (Ok ws, w)
               | None => (Err ErrOperationNotSupportedInDetachedHead, w)
               end
           | None => (Err (ErrNoStateForDatabase name), w)
           end.

(** Modelled from the spec: the write-auth check is a branch-scoped
    permission resolved through the session; failure returns an
    authorization error without side effects. *)
Definition CheckAccessForDb (name : string) : M World unit :=
  fun w => if writeAllowed (session w) name then (Ok tt, w)
           else (Err (ErrAuthorization name), w).

(** Modelled from the spec: the auto-increment tracker;
    [add-new-table(name)] is idempotent and initializes to 1. *)
Definition AddNewTable (name : string) : M World unit :=
  modify (set_autoIncrement (fun m =>
    match m !! name with Some _ => m | None => <[name := 1%N]> m end)).

(** Modelled from the spec: [drop-table(name, other-working-sets...)]: if
    no other working set retains the table, reset to 1; otherwise the
    maximum over the remaining working sets' snapshots of that table. *)
Definition TrackerDropTable (name : string) (wses : list doltdb.WorkingSet)
  : M World unit :=
  let vals := omap (fun ws => AutoIncVal <$> GetTable (WorkingRoot ws) name) wses in
  modify (set_autoIncrement (<[name := foldr N.max 1%N vals]>)).

Section Session.
Context `{!Names}.

(** Modelled from the spec: [set-root(new)] promotes a new working root
    and invalidates the cache entries of other root hashes; a detached
    head rejects it with the dedicated error. *)
Definition SetRoot (name : string) (newRoot : RootValue) : M World unit :=
  fun w => match dbStates (session w) !! name with
           | None => (Err (ErrNoStateForDatabase name), w)
           | Some st =>
               match workingSet st with
               | None => (Err ErrOperationNotSupportedInDetachedHead, w)
               | Some ws =>
                   let st' :=
                     {| headCommit := headCommit st; headRoot := headRoot st;
                        workingSet := Some (WithWorkingRoot ws newRoot);
                        sessionCache :=
                          filter (fun kv => kv.1 = NewDataCacheKey newRoot)
                                 (sessionCache st) |} in
                   (Ok tt, set_session (set_dbStates (<[name := st']>)) w)
               end
           end.

(** Modelled from the spec: [SessionCache.GetCachedTable], the
    derived-table cache keyed by (root-hash, table-name). *)
Definition GetCachedTable (st : DbState) (key : N) (tableName : string)
  : option SqlTable :=
  match sessionCache st !! key with
  | Some tablesForKey => tablesForKey !! tableName
  | None => None
  end.

(** Modelled from the spec: [SessionCache.CacheTable]; the cache is shared
    through a pointer, so the write lands in the session's state for
    [name]. *)
Definition CacheTable (name : string) (key : N) (tableName : string)
  (tbl : SqlTable) : M World unit :=
  modify (set_session (set_dbStates (fun m =>
    match m !! name with
    | Some st =>
        <[name := {| headCommit := headCommit st; headRoot := headRoot st;
                     workingSet := workingSet st;
                     sessionCache :=
                       <[key := <[tableName := tbl]>
                                  (default ∅ (sessionCache st !! key))]>
                         (sessionCache st) |}]> m
    | None => m
    end))).

End Session.

End dsess.

(** ** Package [sqle]: the database facade *)

Module sqle.

Import doltdb adapters dsess.

(** [Database]; [CWBHeadRef] is what the repo-state reader answers, and the
    global state [gs] is the tracker of the [World]. *)
Record Database : Type := {
  baseName : string;
  requestedName : string;
  ddb : DoltDB;
  revision : string;
  CWBHeadRef : result string
}.

(** [fulltext.IndexTableNames] *)
Record IndexTableNames : Type := {
  Config : string;
  Position : string;
  DocCount : string;
  GlobalCount : string;
  RowCount : string
}.

Section Database.
Context `{!Names} `{!dtables.DiffTables} `{!Constructors}.

Definition RequestedName (db : Database) : string := requestedName db.

(** [Database.Name] *)
Definition Name (db : Database) : string := RequestedName db.

(** [Database.RevisionQualifiedName] *)
Definition RevisionQualifiedName (db : Database) : string :=
  if String.eqb (revision db) "" then baseName db
  else baseName db +:+ "/" +:+ revision db.

(** [Database.GetRoot] *)
Definition GetRoot (db : Database) : M World RootValue :=
  do dbState <- LookupDbState (RevisionQualifiedName db);
  match dbState with
  | None => fail ErrNoRootValueInSession
  | Some dbState => ret (DbState_WorkingRoot dbState)
  end.

(** [Database.GetWorkingSet] *)
Definition GetWorkingSet (db : Database) : M World doltdb.WorkingSet :=
  do dbState <- LookupDbState (RevisionQualifiedName db);
  match dbState with
  | None => fail ErrNoRootValueInSession
  | Some dbState =>
      match workingSet dbState with
      | None => fail ErrOperationNotSupportedInDetachedHead
      | Some ws => ret ws
      end
  end.

(** [Database.SetRoot] *)
Definition SetRoot (db : Database) (newRoot : RootValue) : M World unit :=
  dsess.SetRoot (RevisionQualifiedName db) newRoot.

(** [Database.GetHeadRoot] *)
Definition GetHeadRoot (db : Database) : M World RootValue :=
  do head <- GetHeadCommit (RevisionQualifiedName db);
  lift (GetRootValue head).

(** The adapter flavour [getTable] picks for a stored table. *)
Definition adapter (tableName : string) (tbl : Table) : SqlTable :=
  let readonlyTable :=
    {| tableName := tableName; sch := GetSchema tbl; table := tbl |} in
  if IsReadOnlySystemTable tableName then ReadOnly readonlyTable
  else if HasDoltPrefix tableName && negb (IsFullTextTable tableName)
       then Writable readonlyTable
       else Alterable readonlyTable.

(** [Database.getTable] *)
Definition getTable (db : Database) (root : RootValue) (tableName : string)
  : M World (option SqlTable) :=
  do dbState <- LookupDbState (RevisionQualifiedName db);
  match dbState with
  | None => fail (ErrNoStateForDatabase (RevisionQualifiedName db))
  | Some dbState =>
      let key := NewDataCacheKey root in
      match GetCachedTable dbState key tableName with
      | Some cachedTable => ret (Some cachedTable)
      | None =>
          let tableNames := GetTableNames root in
          match sql.GetTableNameInsensitive tableName tableNames with
          | None => ret None
          | Some tableName =>
              match GetTable root tableName with
              | None => fail (ErrTableNotFound tableName)
              | Some tbl =>
                  let table := adapter tableName tbl in
                  do_ CacheTable (RevisionQualifiedName db) key tableName table;
                  ret (Some table)
              end
          end
      end
  end.

(** [if head == nil { head, err = ds.GetHeadCommit(...) }] *)
Definition headOrSession (db : Database) (head : option Commit) : M World Commit :=
  match head with
  | Some h => ret h
  | None => GetHeadCommit (RevisionQualifiedName db)
  end.

(** The [switch lwrName] of [getTableInsensitive]: the exact-name
    reflective tables; [None] when no case produced a table. *)
Definition exactNameTable (db : Database) (head : option Commit)
  (root : RootValue) (lwrName : string) : M World (option SqlTable) :=
  if String.eqb lwrName LogTableName then
    do_ headOrSession db head; ret (Some (Exact LogTable))
  else if String.eqb lwrName DiffTableName then
    do_ headOrSession db head; ret (Some (Exact UnscopedDiffTable))
  else if String.eqb lwrName ColumnDiffTableName then
    do_ headOrSession db head; ret (Some (Exact ColumnDiffTable))
  else if String.eqb lwrName TableOfTablesInConflictName then
    ret (Some (Exact TableOfTablesInConflict))
  else if String.eqb lwrName TableOfTablesWithViolationsName then
    ret (Some (Exact TableOfTablesConstraintViolations))
  else if String.eqb lwrName SchemaConflictsTableName then
    ret (Some (Exact SchemaConflictsTable))
  else if String.eqb lwrName BranchesTableName then
    ret (Some (Exact BranchesTable))
  else if String.eqb lwrName RemoteBranchesTableName then
    ret (Some (Exact RemoteBranchesTable))
  else if String.eqb lwrName RemotesTableName then
    ret (Some (Exact RemotesTable))
  else if String.eqb lwrName CommitsTableName then
    ret (Some (Exact CommitsTable))
  else if String.eqb lwrName CommitAncestorsTableName then
    ret (Some (Exact CommitAncestorsTable))
  else if String.eqb lwrName StatusTableName then
    do_ dsess.WorkingSet (RevisionQualifiedName db);
    ret (Some (Exact StatusTable))
  else if String.eqb lwrName MergeStatusTableName then
    ret (Some (Exact MergeStatusTable))
  else if String.eqb lwrName TagsTableName then
    ret (Some (Exact TagsTable))
  else if String.eqb lwrName AccessTableName then
    do w <- get;
    ret (if branchController (session w) then Some (Exact BranchControlTable)
         else None)
  else if String.eqb lwrName NamespaceTableName then
    do w <- get;
    ret (if branchController (session w)
         then Some (Exact BranchNamespaceControlTable) else None)
  else if String.eqb lwrName IgnoreTableName then
    do_ getTable db root IgnoreTableName;
    ret (Some (Exact IgnoreTable))
  else ret None.

(** The body of [getTableInsensitive]; [self] is the recursive call made
    for the conflicts prefix. *)
Definition getTableInsensitive_body
  (self : string -> M World (option SqlTable))
  (db : Database) (head : option Commit) (root : RootValue) (tblName : string)
  : M World (option SqlTable) :=
  let lwrName := ToLower tblName in
  if HasPrefix lwrName DoltDiffTablePrefix then
    do head <- headOrSession db head;
    let tableName := drop (String.length DoltDiffTablePrefix) tblName in
    do_ lift (NewDiffTable tableName root head);
    ret (Some (Prefixed DiffK tableName))
  else if HasPrefix lwrName DoltCommitDiffTablePrefix then
    let suffix := drop (String.length DoltCommitDiffTablePrefix) tblName in
    do dt <- lift (dtables.NewCommitDiffTable suffix (ddb db) root);
    ret (Some (CommitDiff dt))
  else if HasPrefix lwrName DoltHistoryTablePrefix then
    let baseTableName := drop (String.length DoltHistoryTablePrefix) tblName in
    do baseTable <- getTable db root baseTableName;
    match baseTable with
    | None => ret None
    | Some baseTable =>
        do head <- headOrSession db head;
        match baseTable with
        | Alterable t => ret (Some (History t head))
        | _ => fail (Panic "interface conversion: not *AlterableDoltTable")
        end
    end
  else if HasPrefix lwrName DoltConfTablePrefix then
    let suffix := drop (String.length DoltConfTablePrefix) tblName in
    do srcTable <- self suffix;
    match srcTable with
    | None => ret None
    | Some srcTable =>
        do_ lift (NewConflictsTable suffix srcTable root);
        ret (Some (Prefixed ConflictsK suffix))
    end
  else if HasPrefix lwrName DoltConstViolTablePrefix then
    let suffix := drop (String.length DoltConstViolTablePrefix) tblName in
    do_ lift (NewConstraintViolationsTable suffix root);
    ret (Some (Prefixed ConstraintViolationsK suffix))
  else
    do dt <- exactNameTable db head root lwrName;
    match dt with
    | Some dt => ret (Some dt)
    | None => getTable db root tblName
    end.

(** The recursion strips a prefix at every call, so a depth equal to the
    length of the name is never exhausted. *)
Fixpoint getTableInsensitive_rec (depth : nat) (db : Database)
  (head : option Commit) (root : RootValue) (tblName : string)
  : M World (option SqlTable) :=
  getTableInsensitive_body
    (match depth with
     | O => fun _ => fail (Panic "unreachable")
     | S d => getTableInsensitive_rec d db head root
     end) db head root tblName.

(** The same recursion with an arbitrary answer [bottom] where the depth
    runs out, to state that it does not run out. *)
Fixpoint getTableInsensitive_upto (bottom : string -> M World (option SqlTable))
  (depth : nat) (db : Database) (head : option Commit) (root : RootValue)
  (tblName : string) : M World (option SqlTable) :=
  getTableInsensitive_body
    (match depth with
     | O => bottom
     | S d => getTableInsensitive_upto bottom d db head root
     end) db head root tblName.

(** [Database.getTableInsensitive] *)
Definition getTableInsensitive (db : Database) (head : option Commit)
  (root : RootValue) (tblName : string) : M World (option SqlTable) :=
  getTableInsensitive_rec (String.length tblName) db head root tblName.

(** [Database.GetTableInsensitive] *)
Definition GetTableInsensitive (db : Database) (tblName : string)
  : M World (option SqlTable) :=
  do w <- get;
  match GetTemporaryTable w (Name db) tblName with
  | Some tbl => ret (Some (Temporary tbl))
  | None =>
      do root <- GetRoot db;
      getTableInsensitive db None root tblName
  end.

(** The loop of [resolveAsOfTime] over the commits the iterator yields;
    [io.EOF] ends the walk. *)
Fixpoint asOfWalk (cmItr : list (result Commit)) (asOf : Z)
  : result (option (Commit * RootValue)) :=
  match cmItr with
  | [] => Ok None
  | Err EOF :: _ => Ok None
  | Err e :: _ => Err e
  | Ok curr :: rest =>
      match GetCommitMeta curr with
      | Err e => Err e
      | Ok meta =>
          if (Time meta =? asOf)%Z || (Time meta <? asOf)%Z then
            match GetRootValue curr with
            | Err e => Err e
            | Ok root => Ok (Some (curr, root))
            end
          else asOfWalk rest asOf
      end
  end.

(** [resolveAsOfTime]; [Ok None] is the triple [nil, nil, nil]. *)
Definition resolveAsOfTime (ddb : DoltDB) (head : string) (asOf : Z)
  : result (option (Commit * RootValue)) :=
  match NewCommitSpec "HEAD" with
  | Err e => Err e
  | Ok cs =>
      match Resolve ddb cs (Some head) with
      | Err e => Err e
      | Ok cm =>
          match HashOf cm with
          | Err e => Err e
          | Ok h =>
              match GetTopologicalOrderIterator ddb h with
              | Err e => Err e
              | Ok cmItr => asOfWalk cmItr asOf
              end
          end
      end
  end.

(** The working sets of the other branches, as collected by
    [removeTableFromAutoIncrementTracker]. *)
Fixpoint otherWorkingSets (ddb : DoltDB) (ws : string) (branches : list string)
  : result (list doltdb.WorkingSet) :=
  match branches with
  | [] => Ok []
  | b :: rest =>
      let wsRef := WorkingSetRefForHead b in
      if String.eqb wsRef ws then otherWorkingSets ddb ws rest
      else
        match ResolveWorkingSet ddb wsRef with
        | Err ErrWorkingSetNotFound => otherWorkingSets ddb ws rest
        | Err e => Err e
        | Ok w =>
            match otherWorkingSets ddb ws rest with
            | Err e => Err e
            | Ok wses => Ok (w :: wses)
            end
        end
  end.

(** [Database.removeTableFromAutoIncrementTracker] *)
Definition removeTableFromAutoIncrementTracker (db : Database)
  (tableName : string) (ddb : DoltDB) (ws : string) : M World unit :=
  do branches <- lift (GetBranches ddb);
  do wses <- lift (otherWorkingSets ddb ws branches);
  TrackerDropTable tableName wses.

(** [Database.dropTable] *)
Definition dropTable (db : Database) (tableName : string) : M World unit :=
  do w <- get;
  match GetTemporaryTable w (Name db) tableName with
  | Some _ => DropTemporaryTable (Name db) tableName
  | None =>
      do ws <- GetWorkingSet db;
      let root := WorkingRoot ws in
      match GetTable root tableName with
      | None => fail (ErrTableNotFound tableName)
      | Some tbl =>
          let newRoot := RemoveTables root tableName in
          let sch := GetSchema tbl in
          do_ (if HasAutoIncrement sch
               then removeTableFromAutoIncrementTracker db tableName (ddb db) (Ref ws)
               else ret tt);
          SetRoot db newRoot
      end
  end.

(** [Database.DropTable] *)
Definition DropTable (db : Database) (tableName : string) : M World unit :=
  do_ CheckAccessForDb (RevisionQualifiedName db);
  if IsNonAlterableSystemTable tableName then fail (ErrSystemTableAlter tableName)
  else dropTable db tableName.

(** The callback of the column iteration of [createDoltTable]; its state
    is the slice [conflictingTbls], one entry per
    [schema.ErrTagPrevUsed(tag, col.Name, tbl)] appended.  A failing lookup
    is [return true, err]. *)
Definition tagConflict (root : RootValue) (tableName : string)
  (tag : N) (col : Column) : M (list (N * string * string)) bool :=
  do found <- lift (GetTableByColTag root tag);
  do_ (match found with
       | Some tbl =>
           if negb (String.eqb tbl tableName)
           then modify (fun lines => lines ++ [(tag, doltdb.Name col, tbl)])
           else ret tt
       | None => ret tt
       end);
  ret false.

(** The slice [conflictingTbls] after
    [_ = doltSch.GetAllCols().Iter(...)]: the error of the iteration is
    dropped, the entries appended before it are kept. *)
Definition conflictingTbls (root : RootValue) (tableName : string)
  (doltSch : Schema) : list (N * string * string) :=
  (Iter doltSch (tagConflict root tableName) []).2.

(** [Database.createDoltTable] *)
Definition createDoltTable (db : Database) (tableName : string)
  (root : RootValue) (doltSch : Schema) : M World unit :=
  if HasTable root tableName then fail (ErrTableAlreadyExists tableName)
  else
    match conflictingTbls root tableName doltSch with
    | (_ :: _) as lines => fail (ErrTagsPrevUsed lines)
    | [] =>
        let newRoot := CreateEmptyTable root tableName doltSch in
        SetRoot db newRoot
    end.

(** [Database.createSqlTable] *)
Definition createSqlTable (db : Database) (tableName : string)
  (sch : sql.PrimaryKeySchema) (collation : N) : M World unit :=
  do ws <- GetWorkingSet db;
  let root := WorkingRoot ws in
  if HasTable root tableName then fail (ErrTableAlreadyExists tableName)
  else
    do headRoot <- GetHeadRoot db;
    do doltSch <- lift (ToDoltSchema root tableName sch headRoot collation);
    if IsUsingSpatialColAsKey doltSch then fail (ErrUsingSpatialKey tableName)
    else
      do_ (if HasAutoIncrement doltSch then AddNewTable tableName else ret tt);
      createDoltTable db tableName root doltSch.

(** [Database.CreateTable] *)
Definition CreateTable (db : Database) (tableName : string)
  (sch : sql.PrimaryKeySchema) (collation : N) : M World unit :=
  do_ CheckAccessForDb (RevisionQualifiedName db);
  do_ (if String.eqb (ToLower tableName) DocTableName then
         if negb (sql.Equals DoltDocsSqlSchema (sql.PkSchema sch))
            && negb (sql.Equals OldDoltDocsSqlSchema (sql.PkSchema sch))
         then fail ErrIncorrectDocsSchema else ret tt
       else if HasDoltPrefix tableName && negb (IsFullTextTable tableName)
            then fail (ErrReservedTableName tableName) else ret tt);
  if negb (IsValidTableName tableName) then fail (ErrInvalidTableName tableName)
  else createSqlTable db tableName sch collation.

(** [Database.CreateTemporaryTable] *)
Definition CreateTemporaryTable (db : Database) (tableName : string)
  (pkSch : sql.PrimaryKeySchema) (collation : N) : M World unit :=
  if HasDoltPrefix tableName then fail (ErrReservedTableName tableName)
  else if negb (IsValidTableName tableName) then fail (ErrInvalidTableName tableName)
  else
    do tmp <- lift (NewTempTable pkSch tableName (Name db) collation);
    AddTemporaryTable (Name db) tmp.

(** Modelled from the spec: [renameTable] (its body is not among the
    sources) moves the snapshot of [oldName] to [newName], which must not
    exist. *)
Definition renameTable (root : RootValue) (oldName newName : string)
  : result RootValue :=
  if String.eqb newName oldName then Ok root
  else match GetTable root oldName with
       | None => Err (ErrTableNotFound oldName)
       | Some t =>
           if HasTable root newName then Err (ErrTableAlreadyExists newName)
           else Ok (PutTable (RemoveTables root oldName) newName t)
       end.

(** [Database.RenameTable] *)
Definition RenameTable (db : Database) (oldName newName : string) : M World unit :=
  do_ CheckAccessForDb (RevisionQualifiedName db);
  do root <- GetRoot db;
  if IsNonAlterableSystemTable oldName then fail (ErrSystemTableAlter oldName)
  else if HasDoltPrefix newName then fail (ErrReservedTableName newName)
  else if negb (IsValidTableName newName) then fail (ErrInvalidTableName newName)
  else
    fun w =>
      (* [if _, ok, _ := db.GetTableInsensitive(ctx, newName); ok] *)
      let '(found, w1) := GetTableInsensitive db newName w in
      match found with
      | Ok (Some _) => (Err (ErrTableAlreadyExists newName), w1)
      | _ =>
          (do newRoot <- lift (renameTable root oldName newName);
           SetRoot db newRoot) w1
      end.

(** [Database.GetAllTableNames] *)
Definition GetAllTableNames (db : Database) : M World (list string) :=
  do root <- GetRoot db;
  ret (GetTableNames root).

(** [fmt.Sprintf("dolt_%s_%s_%d", parentTableName, parentIndexName, i)] *)
Definition prefixFormat (parentTableName parentIndexName : string) (i : N)
  : string :=
  "dolt_" +:+ parentTableName +:+ "_" +:+ parentIndexName +:+ "_" +:+ pretty i.

(** The inner loop: some table name starts with [tablePrefix]. *)
Definition prefixTaken (allTableNames : list string) (tablePrefix : string) : bool :=
  existsb (fun tableName => HasPrefix (ToLower tableName) tablePrefix) allTableNames.

(** [OuterLoop] of [CreateFulltextTableNames], started at [i]; the counter
    is a [uint64].  [steps] bounds the number of iterations run. *)
Fixpoint OuterLoop (steps : nat) (allTableNames : list string)
  (parentTableName parentIndexName : string) (i : N) : option string :=
  match steps with
  | O => None
  | S steps' =>
      let tablePrefix := ToLower (prefixFormat parentTableName parentIndexName i) in
      if prefixTaken allTableNames tablePrefix
      then OuterLoop steps' allTableNames parentTableName parentIndexName
             ((i + 1) mod 2 ^ 64)%N
      else Some tablePrefix
  end.

(** [Database.CreateFulltextTableNames]; [None] when the loop is still
    running after [steps] iterations. *)
Definition CreateFulltextTableNames (steps : nat) (db : Database)
  (parentTableName parentIndexName : string) : M World (option IndexTableNames) :=
  do allTableNames <- GetAllTableNames db;
  match OuterLoop steps allTableNames parentTableName parentIndexName 0 with
  | None => ret None
  | Some tablePrefix =>
      ret (Some {| Config := "dolt_" +:+ parentTableName +:+ "_fts_config";
                   Position := tablePrefix +:+ "_fts_position";
                   DocCount := tablePrefix +:+ "_fts_doc_count";
                   GlobalCount := tablePrefix +:+ "_fts_global_count";
                   RowCount := tablePrefix +:+ "_fts_row_count" |})
  end.

(** *** The schema fragments store *)

(** The type assertion of [stbl] to a pointer to [WritableDoltTable]. *)
Definition asWritableDoltTable (stbl : SqlTable) : M World DoltTable :=
  match stbl with
  | Writable t => ret t
  | _ => fail (Panic "interface conversion: not *WritableDoltTable")
  end.

(** Modelled from the spec: [DoltTable.DoltTable(ctx)] (not among the
    sources) gives the current snapshot of the adapter's table, read from
    the session's root. *)
Definition DoltTable_DoltTable (db : Database) (t : DoltTable) : M World Table :=
  do root <- GetRoot db;
  match GetTable root (tableName t) with
  | Some tbl => ret tbl
  | None => fail (ErrTableNotFound (tableName t))
  end.

Definition with_rows (t : Table) (rows : list Row) : Table :=
  {| GetSchema := GetSchema t; GetRowData := rows; AutoIncVal := AutoIncVal t |}.

(** Modelled from the spec: the table editors behind [tbl.Inserter] and
    [tbl.Deleter] (not among the sources): an insert adds the row to the
    table in the working root, a delete removes it, and closing the
    editor installs the new root in the session. *)
Definition Insert (db : Database) (t : DoltTable) (row : Row) : M World unit :=
  do root <- GetRoot db;
  match GetTable root (tableName t) with
  | None => fail (ErrTableNotFound (tableName t))
  | Some tbl =>
      SetRoot db (PutTable root (tableName t)
                    (with_rows tbl (GetRowData tbl ++ [row])))
  end.

Definition Delete (db : Database) (t : DoltTable) (row : Row) : M World unit :=
  do root <- GetRoot db;
  match GetTable root (tableName t) with
  | None => fail (ErrTableNotFound (tableName t))
  | Some tbl =>
      SetRoot db (PutTable root (tableName t)
                    (with_rows tbl
                       (List.filter (fun r => negb (bool_decide (r = row)))
                                    (GetRowData tbl))))
  end.

(** A row of [dolt_schemas]: [(type, name, fragment, extra, sql_mode)];
    [extra] is shown by the [CreatedAt] seconds it encodes. *)
Definition fragmentRow (fragType name definition : string) (created : Z)
  (mode : string) : Row :=
  [sql.VString fragType; sql.VString name; sql.VString definition;
   sql.VInt created; sql.VString mode].

Definition isFragment (fragType name : string) (row : Row) : bool :=
  match row with
  | sql.VString ty :: sql.VString n :: _ =>
      String.eqb ty (ToLower fragType) && String.eqb (ToLower n) (ToLower name)
  | _ => false
  end.

(** Modelled from the spec: [fragFromSchemasTable] (not among the
    sources) finds the fragment of the given type and name; [(type, name)]
    is unique, case-insensitive on the name. *)
Definition fragFromSchemasTable (db : Database) (tbl : DoltTable)
  (fragType name : string) : M World (option Row) :=
  do t <- DoltTable_DoltTable db tbl;
  ret (List.find (isFragment fragType name) (GetRowData t)).

(** Modelled from the spec: [getOrCreateDoltSchemasTable] (not among the
    sources): the fragments are persisted in the table [dolt_schemas],
    created empty on first use. *)
Definition getOrCreateDoltSchemasTable (db : Database) : M World DoltTable :=
  do tbl <- GetTableInsensitive db SchemasTableName;
  match tbl with
  | Some tbl => asWritableDoltTable tbl
  | None =>
      do root <- GetRoot db;
      do_ createDoltTable db SchemasTableName root SchemaTableSchema;
      do tbl <- GetTableInsensitive db SchemasTableName;
      match tbl with
      | None => fail (ErrTableNotFound SchemasTableName)
      | Some tbl => asWritableDoltTable tbl
      end
  end.

(** [Database.addFragToSchemasTable]; the row stores
    [Extra{CreatedAt: created.Unix()}]. *)
Definition addFragToSchemasTable (db : Database)
  (fragType name definition : string) (created : gotime.Time)
  (existingErr : error) : M World unit :=
  do_ CheckAccessForDb (RevisionQualifiedName db);
  do tbl <- getOrCreateDoltSchemasTable db;
  do existing <- fragFromSchemasTable db tbl fragType name;
  match existing with
  | Some _ => fail existingErr
  | None =>
      do w <- get;
      Insert db tbl (fragmentRow fragType name definition
                       (gotime.Time_Unix created) (sqlMode (session w)))
  end.

(** [Database.dropTableIfEmpty] *)
Definition dropTableIfEmpty (db : Database) (tableName : string) : M World unit :=
  do stbl <- GetTableInsensitive db tableName;
  match stbl with
  | None => ret tt
  | Some stbl =>
      do wtbl <- asWritableDoltTable stbl;
      do table <- DoltTable_DoltTable db wtbl;
      let rows := GetRowData table in
      let numRows := List.length rows in
      if Nat.eqb numRows 0 then dropTable db tableName else ret tt
  end.

(** [Database.dropFragFromSchemasTable] *)
Definition dropFragFromSchemasTable (db : Database) (fragType name : string)
  (missingErr : error) : M World unit :=
  do_ CheckAccessForDb (RevisionQualifiedName db);
  do stbl <- GetTableInsensitive db SchemasTableName;
  match stbl with
  | None => fail missingErr
  | Some stbl =>
      do tbl <- asWritableDoltTable stbl;
      do row <- fragFromSchemasTable db tbl fragType name;
      match row with
      | None => fail missingErr
      | Some row =>
          do_ Delete db tbl row;
          dropTableIfEmpty db SchemasTableName
      end
  end.

(** [Database.CreateView] *)
Definition CreateView (db : Database) (name selectStatement createViewStmt : string)
  : M World unit :=
  addFragToSchemasTable db "view" name createViewStmt (gotime.Unix 0 0)
    (ErrExistingView (Name db) name).

(** [Database.DropView] *)
Definition DropView (db : Database) (name : string) : M World unit :=
  dropFragFromSchemasTable db "view" name (ErrViewDoesNotExist (baseName db) name).

(** [sql.TriggerDefinition] *)
Record TriggerDefinition : Type := {
  TriggerName : string;
  CreateStatement : string;
  CreatedAt : gotime.Time
}.

(** [Database.CreateTrigger] *)
Definition CreateTrigger (db : Database) (definition : TriggerDefinition)
  : M World unit :=
  addFragToSchemasTable db "trigger" (TriggerName definition)
    (CreateStatement definition) (CreatedAt definition)
    (ErrTriggerAlreadyExists (TriggerName definition)).

(** [Database.DropTrigger] *)
Definition DropTrigger (db : Database) (name : string) : M World unit :=
  dropFragFromSchemasTable db "trigger" name (ErrTriggerDoesNotExist name).

End Database.

End sqle.

(** ** Package [sqle], continued: listings, revisions, [AS OF], indexed
    tables, collation, events *)

Module facade.

Import doltdb adapters dsess sqle.

(** [dsess.SessionDatabaseBranchSpec], as far as [WithBranchRevision] reads
    it; [RepoState] is what the repo state of the branch answers to
    [CWBHeadRef]. *)
Record SessionDatabaseBranchSpec : Type := {
  RepoState : result string;
  Branch : string
}.

(** [Database.WithBranchRevision]; the revision type has no counterpart in
    [Database]. *)
Definition WithBranchRevision (db : Database) (requestedName : string)
  (branchSpec : SessionDatabaseBranchSpec) : Database :=
  {| baseName := baseName db; requestedName := requestedName; ddb := ddb db;
     revision := Branch branchSpec; CWBHeadRef := RepoState branchSpec |}.

(** [Database.Revision] *)
Definition Revision (db : Database) : string := revision db.

(** [Database.AliasedName] *)
Definition AliasedName (db : Database) : string := baseName db.

(** The dynamic type of the [asOf] argument: a [time.Time], a [string], or
    anything else, of which only the name of the Go type matters. *)
Inductive AsOf : Type :=
  | AsOfTime (x : Z)
  | AsOfRef (x : string)
  | AsOfOther (goType : string).

(** [fmt.Errorf("unsupported AS OF type %T", asOf)] *)
Definition ErrUnsupportedAsOfType (goType : string) : error :=
  ErrUpstream ("unsupported AS OF type " +:+ goType).

(** [sql.ErrUnsupportedIndexPrefix.New(name)], an error kind of the engine,
    carried by the name of the kind and its argument. *)
Definition ErrUnsupportedIndexPrefix (name : string) : error :=
  ErrUpstream ("ErrUnsupportedIndexPrefix " +:+ name).

(** [sql.IndexColumn] and [sql.IndexDef], as far as the code reads them. *)
Record IndexColumn : Type := {
  IdxColName : string;
  Length : Z
}.

Record IndexDef : Type := { Columns : list IndexColumn }.

(** [sql.EventDefinition] *)
Record EventDefinition : Type := {
  EventName : string;
  EventCreateStatement : string;
  EventCreatedAt : gotime.Time;
  EventSqlMode : string
}.

(** A row of [dolt_schemas] read back. *)
Record schemaFragment : Type := {
  fragName : string;
  fragFragment : string;
  fragCreated : gotime.Time;
  fragSqlMode : string
}.

(** Modelled from the spec: the fragment type of events (the constant is
    not among the sources); the schemas table holds the types [view],
    [trigger] and [event]. *)
Definition eventFragment : string := "event".

(** Modelled from the spec: [set-collation(c)] of a root value returns a
    new root. *)
Definition RootValue_SetCollation (root : RootValue) (c : N) : RootValue :=
  {| tables := tables root; collation := c |}.

(** [s[i]] for a Go [int] index: out of range panics. *)
Definition at_index {A} (s : list A) (i : Z) : result A :=
  if (i <? 0)%Z then Err (Panic "index out of range")
  else match s !! Z.to_nat i with
       | Some a => Ok a
       | None => Err (Panic "index out of range")
       end.

Section Database.
Context `{!Names} `{!dtables.DiffTables} `{!Constructors}.

(** *** Table listings *)

(** [filterDoltInternalTables]; the loop appends to [result]. *)
Definition filterDoltInternalTables (tblNames : list string) : list string :=
  foldl (fun result tbl =>
           if negb (HasDoltPrefix tbl) then result ++ [tbl] else result)
        [] tblNames.

(** [Database.GetTableNames] *)
Definition GetTableNames (db : Database) : M World (list string) :=
  do tblNames <- GetAllTableNames db;
  ret (filterDoltInternalTables tblNames).

(** *** [AS OF] *)

Section AsOf.

(** The two calls whose bodies are not among the sources: the resolution
    of a commit ref, which reads the session and the commit graph, and
    [LockedToRoot] of the table adapters. *)
Variable resolveAsOfCommitRef :
  Database -> string -> string -> M World (option (Commit * RootValue)).
Variable LockedToRoot : DoltTable -> RootValue -> result DoltTable.

(** [resolveAsOf]; [Ok None] is the triple [nil, nil, nil]. *)
Definition resolveAsOf (db : Database) (asOf : AsOf)
  : M World (option (Commit * RootValue)) :=
  do head <- lift (CWBHeadRef db);
  match asOf with
  | AsOfTime x => lift (resolveAsOfTime (ddb db) head x)
  | AsOfRef x => resolveAsOfCommitRef db head x
  | AsOfOther goType => fail (ErrUnsupportedAsOfType goType)
  end.

(** [Database.GetTableNamesAsOf]; a nil slice is the empty list. *)
Definition GetTableNamesAsOf (db : Database) (time : AsOf) : M World (list string) :=
  do resolved <- resolveAsOf db time;
  match resolved with
  | None => ret []
  | Some (_, root) => ret (filterDoltInternalTables (doltdb.GetTableNames root))
  end.

(** The type switch at the end of [GetTableInsensitiveAsOf]. *)
Definition lockToRoot (table : SqlTable) (root : RootValue) : M World SqlTable :=
  match table with
  | ReadOnly t => do tbl <- lift (LockedToRoot t root); ret (ReadOnly tbl)
  | Alterable t => do tbl <- lift (LockedToRoot t root); ret (Alterable tbl)
  | Writable t => do tbl <- lift (LockedToRoot t root); ret (Writable tbl)
  | _ => fail (Panic "unexpected table type")
  end.

(** [Database.GetTableInsensitiveAsOf]; [asOf == nil] is [None]. *)
Definition GetTableInsensitiveAsOf (db : Database) (tableName : string)
  (asOf : option AsOf) : M World (option SqlTable) :=
  match asOf with
  | None => GetTableInsensitive db tableName
  | Some asOf =>
      do resolved <- resolveAsOf db asOf;
      match resolved with
      | None => ret None
      | Some (head, root) =>
          do table <- getTableInsensitive db (Some head) root tableName;
          match table with
          | None => ret None
          | Some table =>
              if IsReadOnlySystemTable tableName then ret (Some table)
              else
                do tbl <- lockToRoot table root;
                ret (Some tbl)
          end
      end
  end.

End AsOf.

(** *** Tables created with an index *)

Section IndexedTables.

(** Two functions of the engine: [types.IsText] on the type of a column
    and [Schema.IndexOfColName]. *)
Variable IsText : string -> bool.
Variable IndexOfColName : sql.Schema -> string -> Z.

(** The loop over [idxDef.Columns] in [createIndexedSqlTable]: it returns
    at the first text column of the primary key indexed with a prefix
    length. *)
Fixpoint checkIndexPrefixes (sch : sql.Schema) (columns : list IndexColumn)
  : result unit :=
  match columns with
  | [] => Ok tt
  | idxCol :: rest =>
      match at_index sch (IndexOfColName sch (IdxColName idxCol)) with
      | Err e => Err e
      | Ok col =>
          if sql.PrimaryKey col && IsText (sql.ColType col) && (0 <? Length idxCol)%Z
          then Err (ErrUnsupportedIndexPrefix (sql.ColName col))
          else checkIndexPrefixes sch rest
      end
  end.

(** [Database.createIndexedSqlTable] *)
Definition createIndexedSqlTable (db : Database) (tableName : string)
  (sch : sql.PrimaryKeySchema) (idxDef : IndexDef) (collation : N) : M World unit :=
  do ws <- GetWorkingSet db;
  let root := WorkingRoot ws in
  if HasTable root tableName then fail (ErrTableAlreadyExists tableName)
  else
    do headRoot <- GetHeadRoot db;
    do doltSch <- lift (ToDoltSchema root tableName sch headRoot collation);
    if IsUsingSpatialColAsKey doltSch then fail (ErrUsingSpatialKey tableName)
    else
      do_ lift (checkIndexPrefixes (sql.PkSchema sch) (Columns idxDef));
      do_ (if HasAutoIncrement doltSch then AddNewTable tableName else ret tt);
      createDoltTable db tableName root doltSch.

(** [Database.CreateIndexedTable] *)
Definition CreateIndexedTable (db : Database) (tableName : string)
  (sch : sql.PrimaryKeySchema) (idxDef : IndexDef) (collation : N) : M World unit :=
  do_ CheckAccessForDb (RevisionQualifiedName db);
  do_ (if String.eqb (ToLower tableName) DocTableName then
         if negb (sql.Equals DoltDocsSqlSchema (sql.PkSchema sch))
            && negb (sql.Equals OldDoltDocsSqlSchema (sql.PkSchema sch))
         then fail ErrIncorrectDocsSchema else ret tt
       else if HasDoltPrefix tableName
            then fail (ErrReservedTableName tableName) else ret tt);
  if negb (IsValidTableName tableName) then fail (ErrInvalidTableName tableName)
  else createIndexedSqlTable db tableName sch idxDef collation.

End IndexedTables.

(** *** Collation *)

Section Collation.

(** [sql.Collation_Default] and [sql.Collation_Unspecified] *)
Variable Collation_Default Collation_Unspecified : N.

(** [Database.GetCollation]; reading the collation of a root is total
    here. *)
Definition GetCollation (db : Database) : M World N :=
  fun w => match GetRoot db w with
           | (Ok root, w') => (Ok (collation root), w')
           | (Err _, w') => (Ok Collation_Default, w')
           end.

(** [Database.SetCollation] *)
Definition SetCollation (db : Database) (collation : N) : M World unit :=
  do_ CheckAccessForDb (RevisionQualifiedName db);
  let collation :=
    if N.eqb collation Collation_Unspecified then Collation_Default else collation in
  do root <- GetRoot db;
  let newRoot := RootValue_SetCollation root collation in
  SetRoot db newRoot.

End Collation.

(** *** Events and the listing of fragments *)

(** Modelled from the spec: a row of the schemas table read back as a
    fragment of the given type; [extra] holds [created-at] in seconds
    since the epoch, so the creation time read back is that whole second. *)
Definition fragmentOf (fragType : string) (row : Row) : option schemaFragment :=
  match row with
  | [sql.VString ty; sql.VString n; sql.VString f; sql.VInt c; sql.VString m] =>
      if String.eqb ty fragType
      then Some {| fragName := n; fragFragment := f;
                   fragCreated := gotime.Unix c 0; fragSqlMode := m |}
      else None
  | _ => None
  end.

(** Modelled from the spec: [getSchemaFragmentsOfType] (not among the
    sources) reads the rows of one type from the schemas table, in the
    order of the table. *)
Definition getSchemaFragmentsOfType (db : Database) (tbl : DoltTable)
  (fragType : string) : M World (list schemaFragment) :=
  do t <- DoltTable_DoltTable db tbl;
  ret (omap (fragmentOf fragType) (GetRowData t)).

Definition eventOf (frag : schemaFragment) : EventDefinition :=
  {| EventName := fragName frag; EventCreateStatement := fragFragment frag;
     EventCreatedAt := fragCreated frag; EventSqlMode := fragSqlMode frag |}.

(** [Database.GetEvent] *)
Definition GetEvent (db : Database) (name : string) : M World (option EventDefinition) :=
  do tbl <- GetTableInsensitive db SchemasTableName;
  match tbl with
  | None => ret None
  | Some tbl =>
      do wtbl <- asWritableDoltTable tbl;
      do frags <- getSchemaFragmentsOfType db wtbl eventFragment;
      ret (eventOf <$>
             List.find (fun frag =>
                          String.eqb (ToLower (fragName frag)) (ToLower name)) frags)
  end.

(** [Database.SaveEvent] *)
Definition SaveEvent (db : Database) (ed : EventDefinition) : M World unit :=
  addFragToSchemasTable db eventFragment (EventName ed) (EventCreateStatement ed)
    (EventCreatedAt ed) (ErrEventAlreadyExists (EventName ed)).

(** [Database.DropEvent] *)
Definition DropEvent (db : Database) (name : string) : M World unit :=
  dropFragFromSchemasTable db eventFragment name (ErrEventDoesNotExist name).

(** [Database.UpdateEvent] *)
Definition UpdateEvent (db : Database) (originalName : string)
  (ed : EventDefinition) : M World unit :=
  do_ DropEvent db originalName;
  SaveEvent db ed.

End Database.

End facade.

(** ** An implementation of the interfaces, following the design document

    The theorems below hold for every implementation of the interfaces;
    this one gives them concrete inputs to run on. *)

Module model.

Import doltdb adapters dsess.

(** Modelled from the spec: the prefix [dolt_] is reserved. *)
Definition HasDoltPrefix (s : string) : bool := HasPrefix s "dolt_".

(** Modelled from the spec: full-text auxiliary names are
    [dolt_<parent-table>_<parent-index>_<n>_{fts_position | fts_doc_count |
    fts_global_count | fts_row_count}] and [dolt_<parent-table>_fts_config]. *)
Definition IsFullTextTable (s : string) : bool :=
  HasDoltPrefix s &&
  (HasSuffix s "_fts_config" || HasSuffix s "_fts_position" ||
   HasSuffix s "_fts_doc_count" || HasSuffix s "_fts_global_count" ||
   HasSuffix s "_fts_row_count").

Definition reflectivePrefixes : list string :=
  [DoltDiffTablePrefix; DoltCommitDiffTablePrefix; DoltHistoryTablePrefix;
   DoltConfTablePrefix; DoltConstViolTablePrefix].

Definition reflectiveNames : list string :=
  [LogTableName; DiffTableName; ColumnDiffTableName; TableOfTablesInConflictName;
   TableOfTablesWithViolationsName; SchemaConflictsTableName; BranchesTableName;
   RemoteBranchesTableName; RemotesTableName; CommitsTableName;
   CommitAncestorsTableName; StatusTableName; MergeStatusTableName; TagsTableName;
   AccessTableName; NamespaceTableName].

(** Modelled from the spec: the non-alterable system tables are the
    reflective ones, a fixed set. *)
Definition IsNonAlterableSystemTable (s : string) : bool :=
  existsb (HasPrefix (ToLower s)) reflectivePrefixes ||
  existsb (String.eqb (ToLower s)) reflectiveNames.

Definition identChar (c : ascii) : bool :=
  let n := nat_of_ascii c in
  ((48 <=? n)%nat && (n <=? 57)%nat) || ((65 <=? n)%nat && (n <=? 90)%nat) ||
  ((97 <=? n)%nat && (n <=? 122)%nat) || (n =? 95)%nat || (n =? 45)%nat.

Fixpoint allChars (p : ascii -> bool) (s : string) : bool :=
  match s with
  | EmptyString => true
  | String c s' => p c && allChars p s'
  end.

(** Modelled from the spec: a valid name is an identifier. *)
Definition IsValidTableName (s : string) : bool :=
  negb (String.eqb s "") && allChars identChar s.

Fixpoint sumChars (s : string) : N :=
  match s with
  | EmptyString => 0
  | String c s' => N.of_nat (nat_of_ascii c) + 31 * sumChars s'
  end.

(** A content hash of a root value. *)
Definition hashRoot (root : RootValue) : N :=
  foldr (fun nt acc =>
           (sumChars nt.1 + 7 * N.of_nat (List.length (GetRowData nt.2))
            + 1000003 * acc)%N)
        (collation root) (map_to_list (tables root)).

Global Instance names : Names := {|
  doltdb.HasDoltPrefix := HasDoltPrefix;
  doltdb.IsFullTextTable := IsFullTextTable;
  doltdb.IsReadOnlySystemTable := IsNonAlterableSystemTable;
  doltdb.IsNonAlterableSystemTable := IsNonAlterableSystemTable;
  doltdb.IsValidTableName := IsValidTableName;
  doltdb.NewCommitSpec := fun s =>
    if String.eqb s "" then Err (ErrUpstream "empty commit spec") else Ok s;
  doltdb.NewDataCacheKey := hashRoot;
  doltdb.TagLookupError := fun _ _ => None
|}.

(** The same package over a storage that cannot read the schemas behind
    the tags [unreadable]. *)
Definition namesOver (unreadable : N -> bool) : Names := {|
  doltdb.HasDoltPrefix := HasDoltPrefix;
  doltdb.IsFullTextTable := IsFullTextTable;
  doltdb.IsReadOnlySystemTable := IsNonAlterableSystemTable;
  doltdb.IsNonAlterableSystemTable := IsNonAlterableSystemTable;
  doltdb.IsValidTableName := IsValidTableName;
  doltdb.NewCommitSpec := fun s =>
    if String.eqb s "" then Err (ErrUpstream "empty commit spec") else Ok s;
  doltdb.NewDataCacheKey := hashRoot;
  doltdb.TagLookupError := fun _ tag =>
    if unreadable tag then Some (ErrUpstream "chunk not found") else None
|}.

Definition pkNames (t : Table) : list string :=
  doltdb.Name <$> List.filter IsPartOfPK (GetSchema t).

(** Modelled from the spec: a partition is diffable unless the primary
    key changed between [from] and [to]. *)
Definition isDiffablePartition (dp : dtables.DiffPartition) : result bool :=
  match dtables.from dp, dtables.to dp with
  | Some f, Some t => Ok (bool_decide (pkNames f = pkNames t))
  | _, _ => Ok true
  end.

Global Instance diffTables : dtables.DiffTables := {|
  dtables.isDiffablePartition := isDiffablePartition;
  dtables.PrimaryKeyChangeWarningCode := 1105;
  dtables.PrimaryKeyChangeWarning := fun fromName toName =>
    "cannot render full diff between commits " +:+ fromName +:+ " and " +:+
    toName +:+ " due to primary key set change";
  dtables.GetDiffTableSchema := fun _ _ => Ok []
|}.

Definition docsSchema : sql.Schema :=
  [{| sql.ColName := "doc_name"; sql.ColType := "varchar(16383)";
      sql.PrimaryKey := true; sql.Nullable := false |};
   {| sql.ColName := "doc_text"; sql.ColType := "longtext";
      sql.PrimaryKey := false; sql.Nullable := true |}].

Definition oldDocsSchema : sql.Schema :=
  [{| sql.ColName := "doc_name"; sql.ColType := "text";
      sql.PrimaryKey := true; sql.Nullable := false |};
   {| sql.ColName := "doc_text"; sql.ColType := "text";
      sql.PrimaryKey := false; sql.Nullable := true |}].

Definition fragmentColumn (tag : N) (n : string) (pk : bool) : Column :=
  {| Tag := tag; doltdb.Name := n; IsPartOfPK := pk; AutoIncrement := false;
     IsSpatial := false |}.

(** Modelled from the spec: the schemas table has the columns [(type,
    name, fragment, extra, sql_mode)]. *)
Definition schemaTableSchema : Schema :=
  [fragmentColumn 9001 "type" true; fragmentColumn 9002 "name" true;
   fragmentColumn 9003 "fragment" false; fragmentColumn 9004 "extra" false;
   fragmentColumn 9005 "sql_mode" false].

(** Tags are assigned by position, starting after [base]. *)
Definition toDoltSchema (base : N) (sch : sql.PrimaryKeySchema) : Schema :=
  imap (fun k c =>
          {| Tag := base + N.of_nat k; doltdb.Name := sql.ColName c;
             IsPartOfPK := sql.PrimaryKey c; AutoIncrement := false;
             IsSpatial := false |}) (sql.PkSchema sch).

Global Instance constructors : Constructors := {|
  NewDiffTable := fun _ _ _ => Ok tt;
  NewConflictsTable := fun _ _ _ => Ok tt;
  NewConstraintViolationsTable := fun _ _ => Ok tt;
  NewTempTable := fun pkSch tableName dbName coll =>
    Ok {| tmpName := tableName; tmpDbName := dbName; tmpSchema := pkSch;
          tmpCollation := coll |};
  ToDoltSchema := fun root tableName sch _ _ =>
    Ok (toDoltSchema (100 * N.of_nat (size (tables root))) sch);
  DoltDocsSqlSchema := docsSchema;
  OldDoltDocsSqlSchema := oldDocsSchema;
  SchemaTableSchema := schemaTableSchema
|}.

End model.

(** ** Concrete databases and sessions *)

Module fixtures.

Import doltdb adapters dsess sqle.

Definition column (tag : N) (n : string) (pk : bool) : Column :=
  {| Tag := tag; doltdb.Name := n; IsPartOfPK := pk; AutoIncrement := false;
     IsSpatial := false |}.

(** [vals (i INT PRIMARY KEY, v INT)] and the same table after its primary
    key moved to [v]. *)
Definition vals : Table :=
  {| GetSchema := [column 1 "i" true; column 2 "v" false];
     GetRowData := []; AutoIncVal := 1 |}.

Definition valsRekeyed : Table :=
  {| GetSchema := [column 1 "i" false; column 2 "v" true];
     GetRowData := []; AutoIncVal := 1 |}.

Definition emptyRoot : RootValue := {| tables := ∅; collation := 0 |}.
Definition root0 : RootValue := {| tables := {["vals" := vals]}; collation := 0 |}.
Definition root1 : RootValue :=
  {| tables := {["vals" := valsRekeyed]}; collation := 0 |}.

Definition commitAt (h : string) (t : Z) (root : RootValue) : Commit :=
  {| HashOf := Ok h; GetCommitMeta := Ok {| Time := t |}; GetRootValue := Ok root |}.

Definition c100 : Commit := commitAt "c100" 100 emptyRoot.
Definition c200 : Commit := commitAt "c200" 200 root0.
Definition c300 : Commit := commitAt "c300" 300 root1.

(** History [c300 -> c200 -> c100] on the branch [main]. *)
Definition ddb0 : DoltDB :=
  {| Resolve := fun cs _ =>
       if String.eqb cs "HEAD" then Ok c300
       else if String.eqb cs "c300" then Ok c300
       else if String.eqb cs "c200" then Ok c200
       else if String.eqb cs "c100" then Ok c100
       else Err (ErrUpstream "unknown ref");
     GetTopologicalOrderIterator := fun _ => Ok [Ok c300; Ok c200; Ok c100];
     GetBranches := Ok ["main"];
     ResolveWorkingSet := fun _ => Err ErrWorkingSetNotFound |}.

Definition db0 : Database :=
  {| baseName := "mydb"; requestedName := "mydb"; ddb := ddb0; revision := "";
     CWBHeadRef := Ok "refs/heads/main" |}.

Definition ws0 : doltdb.WorkingSet :=
  {| Ref := "workingSets/main"; WorkingRoot := root0; StagedRoot := root0 |}.

Definition state0 : DbState :=
  {| headCommit := c300; headRoot := root1; workingSet := Some ws0;
     sessionCache := ∅ |}.

Definition detachedState : DbState :=
  {| headCommit := c200; headRoot := root0; workingSet := None;
     sessionCache := ∅ |}.

Definition sessionWith (st : DbState) (allowed : bool) : Session :=
  {| dbStates := {["mydb" := st]}; tempTables := ∅; warnings := [];
     writeAllowed := fun _ => allowed; branchController := false;
     sqlMode := "STRICT_TRANS_TABLES" |}.

Definition world0 : World :=
  {| session := sessionWith state0 true; autoIncrement := ∅ |}.

Definition detachedWorld : World :=
  {| session := sessionWith detachedState true; autoIncrement := ∅ |}.

Definition readOnlyWorld : World :=
  {| session := sessionWith state0 false; autoIncrement := ∅ |}.

Definition textType : sql.Type_ := {| sql.Convert := fun v => Ok v |}.

Definition equalTo (s : string) : sql.RangeColumnExpr :=
  {| sql.LowerBound := sql.Below (sql.VString s);
     sql.UpperBound := sql.Above (sql.VString s); sql.Typ := textType |}.

Definition commitDiffVals : dtables.CommitDiffTable :=
  {| dtables.name := "vals"; dtables.ddb := ddb0; dtables.sqlSch := [];
     dtables.workingRoot := root0; dtables.toCommit := "";
     dtables.fromCommit := ""; dtables.targetSchema := GetSchema vals |}.

Definition lookup0 : dtables.LookupState :=
  {| dtables.dt := commitDiffVals; dtables.warnings := [] |}.


(** [... WHERE to_commit = 'c300' AND from_commit = 'c200'] *)
Definition bothCommits : sql.IndexLookup :=
  {| sql.Ranges := [[equalTo "c300"; equalTo "c200"]] |}.

(** [(i INT PRIMARY KEY)] *)
Definition intKey : sql.PrimaryKeySchema :=
  {| sql.PkSchema := [{| sql.ColName := "i"; sql.ColType := "int";
                         sql.PrimaryKey := true; sql.Nullable := false |}];
     sql.PkOrdinals := [0] |}.

(** The schema a user gives to create [dolt_docs]. *)
Definition docsKey : sql.PrimaryKeySchema :=
  {| sql.PkSchema := model.docsSchema; sql.PkOrdinals := [0] |}.

(** A schema for a new table that reuses the two tags of [vals]. *)
Definition reusingTags : Schema :=
  [column 1 "a" true; column 2 "b" false; column 7 "c" false].

(** [x (i INT PRIMARY KEY)] as a temporary table of [mydb]. *)
Definition tempX : TempTable :=
  {| tmpName := "x"; tmpDbName := "mydb"; tmpSchema := intKey; tmpCollation := 0 |}.

Definition rootX : RootValue := {| tables := {["x" := vals]}; collation := 0 |}.

Definition stateX : DbState :=
  {| headCommit := c300; headRoot := root1;
     workingSet := Some {| Ref := "workingSets/main"; WorkingRoot := rootX;
                           StagedRoot := rootX |};
     sessionCache := ∅ |}.

(** Two sessions on a database with a persisted [x]; the first one also
    holds a temporary [x]. *)
Definition worldWithTempX : World :=
  {| session :=
       {| dbStates := {["mydb" := stateX]}; tempTables := {["mydb" := [tempX]]};
          warnings := []; writeAllowed := fun _ => true;
          branchController := false; sqlMode := "" |};
     autoIncrement := ∅ |}.

Definition worldWithoutTempX : World :=
  {| session := sessionWith stateX true; autoIncrement := ∅ |}.

(** A root where the full-text index [idx] of [Vals] already has the
    tables of counter value 0. *)
Definition rootFts : RootValue :=
  {| tables := {["Vals" := vals; "dolt_vals_idx_0_fts_position" := vals]};
     collation := 0 |}.

Definition stateFts : DbState :=
  {| headCommit := c300; headRoot := root1;
     workingSet := Some {| Ref := "workingSets/main"; WorkingRoot := rootFts;
                           StagedRoot := rootFts |};
     sessionCache := ∅ |}.

Definition worldFts : World :=
  {| session := sessionWith stateFts true; autoIncrement := ∅ |}.

(** A root whose schemas table exists and is empty: no view, trigger or
    event is stored. *)
Definition rootEmptySchemas : RootValue :=
  {| tables := {["vals" := vals;
                 "dolt_schemas" := {| GetSchema := model.schemaTableSchema;
                                      GetRowData := []; AutoIncVal := 1 |}]};
     collation := 0 |}.

Definition stateEmptySchemas : DbState :=
  {| headCommit := c300; headRoot := root1;
     workingSet := Some {| Ref := "workingSets/main";
                           WorkingRoot := rootEmptySchemas;
                           StagedRoot := rootEmptySchemas |};
     sessionCache := ∅ |}.

Definition worldEmptySchemas : World :=
  {| session := sessionWith stateEmptySchemas true; autoIncrement := ∅ |}.

(** The adapter through which [DELETE FROM dolt_schemas] reaches the table
    editor. *)
Definition schemasAdapter : DoltTable :=
  {| tableName := "dolt_schemas"; sch := model.schemaTableSchema;
     table := {| GetSchema := model.schemaTableSchema; GetRowData := [];
                 AutoIncVal := 1 |} |}.

(** [CREATE VIEW old AS SELECT 1] followed by [DELETE FROM dolt_schemas],
    run on [world0]. *)
Definition worldAfterDelete : World :=
  (Delete db0 schemasAdapter
     (fragmentRow "view" "old" "CREATE VIEW old AS SELECT 1" 0 "STRICT_TRANS_TABLES")
     (CreateView db0 "old" "SELECT 1" "CREATE VIEW old AS SELECT 1" world0).2).2.

(** [to_commit <= s]: the same upper bound as [equalTo s], no lower bound. *)
Definition atMost (s : string) : sql.RangeColumnExpr :=
  {| sql.LowerBound := sql.BelowNull;
     sql.UpperBound := sql.Above (sql.VString s); sql.Typ := textType |}.

(** [... WHERE to_commit <= 'c300' AND from_commit <= 'c200'] *)
Definition bothAtMost : sql.IndexLookup :=
  {| sql.Ranges := [[atMost "c300"; atMost "c200"]] |}.

(** [... WHERE to_commit = 'WORKING' AND from_commit = 'c100'] *)
Definition workingSinceC100 : sql.IndexLookup :=
  {| sql.Ranges := [[equalTo "WORKING"; equalTo "c100"]] |}.

(** The branch [b1] of [mydb], as the engine asks for it: [mydb/b1]. *)
Definition db0b1 : Database :=
  facade.WithBranchRevision db0 "mydb/b1"
    {| facade.RepoState := Ok "refs/heads/b1"; facade.Branch := "b1" |}.

(** Two branches [a] and [b] that both hold a table [t] with an
    auto-increment key; its next value is 50 on [a] and 80 on [b]. *)
Definition sequenced (next : N) : Table :=
  {| GetSchema := [{| Tag := 11; doltdb.Name := "id"; IsPartOfPK := true;
                      AutoIncrement := true; IsSpatial := false |}];
     GetRowData := []; AutoIncVal := next |}.

Definition rootA : RootValue := {| tables := {["t" := sequenced 50]}; collation := 0 |}.
Definition rootB : RootValue := {| tables := {["t" := sequenced 80]}; collation := 0 |}.

Definition wsA : doltdb.WorkingSet :=
  {| Ref := "workingSets/a"; WorkingRoot := rootA; StagedRoot := rootA |}.
Definition wsB : doltdb.WorkingSet :=
  {| Ref := "workingSets/b"; WorkingRoot := rootB; StagedRoot := rootB |}.

Definition ddbAB : DoltDB :=
  {| Resolve := Resolve ddb0;
     GetTopologicalOrderIterator := GetTopologicalOrderIterator ddb0;
     GetBranches := Ok ["a"; "b"];
     ResolveWorkingSet := fun r =>
       if String.eqb r "workingSets/a" then Ok wsA
       else if String.eqb r "workingSets/b" then Ok wsB
       else Err ErrWorkingSetNotFound |}.

Definition dbA : Database :=
  {| baseName := "mydb"; requestedName := "mydb"; ddb := ddbAB; revision := "";
     CWBHeadRef := Ok "refs/heads/a" |}.

Definition stateA : DbState :=
  {| headCommit := c300; headRoot := root1; workingSet := Some wsA;
     sessionCache := ∅ |}.

(** The session works on branch [a]; the tracker is at 80. *)
Definition worldA : World :=
  {| session := sessionWith stateA true; autoIncrement := {["t" := 80%N]} |}.

(** The engine's two functions on columns, for the witnesses: the text
    types, and the position of a column by its name, [-1] when absent. *)
Definition isText (ty : string) : bool :=
  HasPrefix ty "varchar" || HasPrefix ty "char" || HasSuffix ty "text".

Fixpoint indexOfColName (sch : sql.Schema) (name : string) : Z :=
  match sch with
  | [] => (-1)%Z
  | c :: rest =>
      if String.eqb (ToLower (sql.ColName c)) (ToLower name) then 0%Z
      else let k := indexOfColName rest name in
           if (k <? 0)%Z then (-1)%Z else (k + 1)%Z
  end.

(** [(name TEXT PRIMARY KEY, note TEXT)], and two index definitions over
    it: [(name(10))] and [(name, note(10))]. *)
Definition textKey : sql.PrimaryKeySchema :=
  {| sql.PkSchema := [{| sql.ColName := "name"; sql.ColType := "text";
                         sql.PrimaryKey := true; sql.Nullable := false |};
                      {| sql.ColName := "note"; sql.ColType := "text";
                         sql.PrimaryKey := false; sql.Nullable := true |}];
     sql.PkOrdinals := [0] |}.

Definition keyPrefix : facade.IndexDef :=
  {| facade.Columns := [{| facade.IdxColName := "name"; facade.Length := 10 |}] |}.

Definition notePrefix : facade.IndexDef :=
  {| facade.Columns := [{| facade.IdxColName := "name"; facade.Length := 0 |};
                        {| facade.IdxColName := "note"; facade.Length := 10 |}] |}.

(** The branch [b2] of [mydb], and a session that has visited both
    branches. *)
Definition db0b2 : Database :=
  facade.WithBranchRevision db0 "mydb/b2"
    {| facade.RepoState := Ok "refs/heads/b2"; facade.Branch := "b2" |}.

Definition worldBranches : World :=
  {| session :=
       {| dbStates := {["mydb/b1" := state0; "mydb/b2" := stateX]};
          tempTables := ∅; warnings := []; writeAllowed := fun _ => true;
          branchController := false; sqlMode := "" |};
     autoIncrement := ∅ |}.

(** A database that stores the view [v]. *)
Definition rootWithView : RootValue :=
  {| tables :=
       {["vals" := vals;
         "dolt_schemas" :=
           {| GetSchema := model.schemaTableSchema;
              GetRowData := [fragmentRow "view" "v" "CREATE VIEW v AS SELECT 1" 0
                               "STRICT_TRANS_TABLES"];
              AutoIncVal := 1 |}]};
     collation := 0 |}.

Definition stateWithView : DbState :=
  {| headCommit := c300; headRoot := root1;
     workingSet := Some {| Ref := "workingSets/main"; WorkingRoot := rootWithView;
                           StagedRoot := rootWithView |};
     sessionCache := ∅ |}.

Definition worldWithView : World :=
  {| session := sessionWith stateWithView true; autoIncrement := ∅ |}.

(** The two collaborators of the [AS OF] lookups, for the witnesses:
    commit refs are not resolved, and an adapter is locked to a root by
    reading its table from that root. *)
Definition noCommitRefs (db : Database) (head commitRef : string)
  : M World (option (Commit * RootValue)) :=
  fail (ErrUpstream "unknown ref").

Definition lockedToRoot (t : DoltTable) (root : RootValue) : result DoltTable :=
  match tables root !! tableName t with
  | Some tbl => Ok {| tableName := tableName t; sch := GetSchema tbl; table := tbl |}
  | None => Err (ErrTableNotFound (tableName t))
  end.

End fixtures.

(** ** Predicates the properties are stated with *)

Section Predicates.
Context {doltdbNames : doltdb.Names} {constructors : adapters.Constructors}.

Import doltdb adapters dsess sqle.

(** A bound that carries a key: closed above or closed below. *)
Definition keyed (c : sql.RangeCut) (k : sql.Value) : Prop :=
  c = sql.Above k \/ c = sql.Below k.

(** The commit is readable and strictly later than [t]. *)
Definition later_than (t : Z) (c : Commit) : Prop :=
  exists m, GetCommitMeta c = Ok m /\ (t < Time m)%Z.

(** No tag belongs to two tables of the root. *)
Definition tags_unique (root : RootValue) : Prop :=
  forall n1 n2 t1 t2 tag,
    tables root !! n1 = Some t1 -> tables root !! n2 = Some t2 ->
    owns_tag t1 tag = true -> owns_tag t2 tag = true -> n1 = n2.

(** Some table of the root owns the tag. *)
Definition tag_used (root : RootValue) (tag : N) : bool :=
  bool_decide (is_Some (tableByColTag root tag)).

(** Every tag lookup that creating a table of schema [sch] makes on the
    root is answered by the storage. *)
Definition tags_readable (root : RootValue) (sch : Schema) : Prop :=
  Forall (fun col => TagLookupError root (Tag col) = None) sch.

(** The entry, if any, that a column adds when its lookup is answered. *)
Definition conflictOf (root : RootValue) (name : string) (col : Column)
  : option (N * string * string) :=
  match tableByColTag root (Tag col) with
  | Some tbl =>
      if negb (String.eqb tbl name)
      then Some (Tag col, doltdb.Name col, tbl) else None
  | None => None
  end.

(** The world whose session has the write permission [allow] and is
    otherwise that of [w]. *)
Definition with_writeAllowed (allow : string -> bool) (w : World) : World :=
  set_session (fun s =>
    {| dbStates := dbStates s; tempTables := tempTables s;
       warnings := warnings s; writeAllowed := allow;
       branchController := branchController s; sqlMode := sqlMode s |}) w.

(** The summed length of the names. *)
Definition totalLength (names : list string) : nat :=
  foldr (fun s acc => String.length s + acc) 0 names.

(** The five names of one index, for a parent table and a table prefix. *)
Definition namesWith (parentTableName tablePrefix : string) : IndexTableNames :=
  {| Config := "dolt_" +:+ parentTableName +:+ "_fts_config";
     Position := tablePrefix +:+ "_fts_position";
     DocCount := tablePrefix +:+ "_fts_doc_count";
     GlobalCount := tablePrefix +:+ "_fts_global_count";
     RowCount := tablePrefix +:+ "_fts_row_count" |}.

(** The session may write to the database, works on the root [r] of a
    working set, holds no temporary table named like the schemas table,
    and whatever it cached under that name is a writable adapter of it. *)
Definition sees (db : Database) (w : World) (r : RootValue) : Prop :=
  exists st ws,
    dbStates (session w) !! RevisionQualifiedName db = Some st /\
    workingSet st = Some ws /\ WorkingRoot ws = r /\
    (forall key m tbl,
       sessionCache st !! key = Some m -> m !! SchemasTableName = Some tbl ->
       exists d, tbl = Writable d /\ tableName d = SchemasTableName) /\
    GetTemporaryTable w (Name db) SchemasTableName = None /\
    writeAllowed (session w) (RevisionQualifiedName db) = true.

(** The states from which the round trip is proved: the root has no
    schemas table (in any letter case, and none is cached for it, and the
    tags of the schemas table are free), or it has one that holds at least
    one fragment, none of them the one about to be created. *)
Definition first_fragment (db : Database) (w : World) (r : RootValue)
  (fragType name : string) : Prop :=
  (sql.GetTableNameInsensitive SchemasTableName (GetTableNames r) = None /\
   (forall st, dbStates (session w) !! RevisionQualifiedName db = Some st ->
      GetCachedTable st (NewDataCacheKey r) SchemasTableName = None) /\
   conflictingTbls r SchemasTableName SchemaTableSchema = []) \/
  (exists t, tables r !! SchemasTableName = Some t /\ GetRowData t <> [] /\
     List.find (isFragment fragType name) (GetRowData t) = None).

(** [n] calls of [Next] in a row, with what each call returned. *)
Fixpoint nexts (n : nat) (itr : dtables.SliceOfPartitionsItr)
  : list (result dtables.DiffPartition) * dtables.SliceOfPartitionsItr :=
  match n with
  | O => ([], itr)
  | S n' =>
      let '(r, itr1) := dtables.Next itr in
      let '(rs, itr2) := nexts n' itr1 in
      (r :: rs, itr2)
  end.

(** Two column ranges of the same type and upper bound. *)
Definition same_upper (a b : sql.RangeColumnExpr) : Prop :=
  sql.UpperBound a = sql.UpperBound b /\ sql.Typ a = sql.Typ b.

(** The exact-name reflective tables that need nothing from the session,
    and the ones built from the head commit. *)
Definition alwaysAvailable : list (string * ExactKind) :=
  [(TableOfTablesInConflictName, TableOfTablesInConflict);
   (TableOfTablesWithViolationsName, TableOfTablesConstraintViolations);
   (SchemaConflictsTableName, SchemaConflictsTable);
   (BranchesTableName, BranchesTable);
   (RemoteBranchesTableName, RemoteBranchesTable);
   (RemotesTableName, RemotesTable);
   (CommitsTableName, CommitsTable);
   (CommitAncestorsTableName, CommitAncestorsTable);
   (MergeStatusTableName, MergeStatusTable);
   (TagsTableName, TagsTable)].

Definition builtFromHead : list (string * ExactKind) :=
  [(LogTableName, LogTable); (DiffTableName, UnscopedDiffTable);
   (ColumnDiffTableName, ColumnDiffTable)].

(** The names of a list that do not have the reserved prefix. *)
Definition userTables (names : list string) : list string :=
  List.filter (fun tbl => negb (HasDoltPrefix tbl)) names.

(** The world after [SetRoot] installed the root [r] in the state [st] of
    the database, whose working set was [ws]. *)
Definition rooted (db : Database) (st : DbState) (ws : doltdb.WorkingSet)
  (r : RootValue) (w : World) : World :=
  set_session (set_dbStates
    (<[RevisionQualifiedName db :=
         {| headCommit := headCommit st; headRoot := headRoot st;
            workingSet := Some (WithWorkingRoot ws r);
            sessionCache :=
              filter (fun kv => kv.1 = NewDataCacheKey r) (sessionCache st) |}]>)) w.

(** An index column that [createIndexedSqlTable] accepts: it names a
    column of the schema, and that column is not a text column of the
    primary key indexed with a prefix length. *)
Definition accepted_index_column (IsText : string -> bool)
  (IndexOfColName : sql.Schema -> string -> Z) (sch : sql.Schema)
  (idxCol : facade.IndexColumn) : Prop :=
  exists col,
    facade.at_index sch (IndexOfColName sch (facade.IdxColName idxCol)) = Ok col /\
    (sql.PrimaryKey col && IsText (sql.ColType col)
     && (0 <? facade.Length idxCol)%Z = false).

(** No fragment of the type and name is stored: the root has no schemas
    table, in any letter case, and none is cached for it, or it has one
    that holds no such fragment. *)
Definition not_stored (db : Database) (w : World) (r : RootValue)
  (fragType name : string) : Prop :=
  (sql.GetTableNameInsensitive SchemasTableName (GetTableNames r) = None /\
   (forall st, dbStates (session w) !! RevisionQualifiedName db = Some st ->
      GetCachedTable st (NewDataCacheKey r) SchemasTableName = None)) \/
  (exists t, tables r !! SchemasTableName = Some t /\
     List.find (isFragment fragType name) (GetRowData t) = None).

(** A fragment of the type is stored under the name, up to letter case. *)
Definition stored (r : RootValue) (fragType name : string) : Prop :=
  exists t row, tables r !! SchemasTableName = Some t /\
    List.find (isFragment fragType name) (GetRowData t) = Some row.

End Predicates.

(** * Properties *)

Import doltdb adapters dsess sqle.

(** ** The working set of a detached head *)

(** C8: when the session has a state for the database, [GetWorkingSet]
    returns the dedicated detached-head error if that state has no working
    set, and returns the working set, without error, if it has one; the
    session is not changed. *)
Theorem GetWorkingSet_detached_head (db : Database) (w : World) (st : DbState) :
  dbStates (session w) !! RevisionQualifiedName db = Some st ->
  GetWorkingSet db w =
    match workingSet st with
    | None => (Err ErrOperationNotSupportedInDetachedHead, w)
    | Some ws => (Ok ws, w)
    end.
Proof.
  intros Hst. unfold GetWorkingSet, bind, LookupDbState. rewrite Hst.
  destruct (workingSet st); reflexivity.
Qed.

Lemma GetWorkingSet_detached_head_witness :
  (dbStates (session fixtures.detachedWorld)
     !! RevisionQualifiedName fixtures.db0 = Some fixtures.detachedState) /\
  GetWorkingSet fixtures.db0 fixtures.detachedWorld =
    (Err ErrOperationNotSupportedInDetachedHead, fixtures.detachedWorld).
Proof.
  split; [reflexivity|].
  apply (GetWorkingSet_detached_head fixtures.db0 fixtures.detachedWorld
           fixtures.detachedState).
  reflexivity.
Defined.

(** ** Commit-diff tables *)

Section CommitDiff.
Context {doltdbNames : Names} {diffTables : dtables.DiffTables}.

Import dtables.

Lemma keyed_shape c k : keyed c k -> is_above_or_below c = true.
Proof. intros [-> | ->]; reflexivity. Qed.

Lemma keyed_key c k : keyed c k -> sql.GetRangeCutKey c = Ok k.
Proof. intros [-> | ->]; reflexivity. Qed.





Lemma rootValForHash_receiver (t : CommitDiffTable) (a b h : string) :
  rootValForHash (set_fromCommit (set_toCommit t a) b) h = rootValForHash t h.
Proof. reflexivity. Qed.

Lemma rootValForHash_name (t : CommitDiffTable) h root n time :
  rootValForHash t h = Ok (root, n, time) -> n = h.
Proof.
  unfold rootValForHash.
  destruct (String.eqb (ToLower h) "working"); [congruence|].
  destruct (NewCommitSpec h) as [cs|]; [|discriminate].
  destruct (Resolve (ddb t) cs None) as [cm|]; [|discriminate].
  destruct (GetRootValue cm); [|discriminate].
  destruct (GetCommitMeta cm); [|discriminate]. congruence.
Qed.




(** C7: on a well-formed lookup whose two commits resolve, when the
    partition is not diffable (the primary key set changed between the
    from-root and the to-root) [LookupPartitions] does not fail: it adds
    exactly one warning to the session, with the primary-key-change code
    and the primary-key-change text for the two commit names, and returns
    an iterator that holds no partition, so its first [Next] is [io.EOF]. *)
Theorem LookupPartitions_primary_key_change
  (i : sql.IndexLookup) (st : LookupState) to_ from_ kt kf toC fromC
  toRoot toHash toTime fromRoot fromHash fromTime :
  sql.Ranges i = [[to_; from_]] ->
  keyed (sql.UpperBound to_) kt ->
  keyed (sql.UpperBound from_) kf ->
  sql.Convert (sql.Typ to_) kt = Ok (sql.VString toC) ->
  sql.Convert (sql.Typ from_) kf = Ok (sql.VString fromC) ->
  rootValForHash (dt st) toC = Ok (toRoot, toHash, toTime) ->
  rootValForHash (dt st) fromC = Ok (fromRoot, fromHash, fromTime) ->
  isDiffablePartition
    {| to := fst <$> doltdb.GetTableInsensitive toRoot (name (dt st));
       from := fst <$> doltdb.GetTableInsensitive fromRoot (name (dt st));
       toName := toHash; fromName := fromHash;
       toDate := toTime; fromDate := fromTime;
       toSch := targetSchema (dt st); fromSch := targetSchema (dt st) |}
    = Ok false ->
  exists itr st',
    LookupPartitions i st = (Ok itr, st') /\
    warnings st' = warnings st ++
      [{| sql.Level := "Warning"; sql.Code := PrimaryKeyChangeWarningCode;
          sql.Message := PrimaryKeyChangeWarning fromC toC |}] /\
    partitions itr = [] /\
    Next itr = (Err EOF, itr).
Proof.
  intros Hr Hkt Hkf Hct Hcf Hto Hfrom Hdiff.
  pose proof (rootValForHash_name _ _ _ _ _ Hto) as ->.
  pose proof (rootValForHash_name _ _ _ _ _ Hfrom) as ->.
  eexists _, _. split; [|split; [|split]].
  - unfold LookupPartitions. rewrite Hr.
    rewrite (keyed_shape _ _ Hkt), (keyed_shape _ _ Hkf). cbn [negb].
    unfold bind, lift, set_dt, modify, get.
    rewrite (keyed_key _ _ Hkt), Hct. cbn.
    rewrite (keyed_key _ _ Hkf), Hcf. cbn.
    rewrite !rootValForHash_receiver, Hto, Hfrom. cbn.
    rewrite Hdiff. cbn. reflexivity.
  - reflexivity.
  - reflexivity.
  - reflexivity.
Qed.

End CommitDiff.



Lemma LookupPartitions_primary_key_change_witness :
  dtables.isDiffablePartition
    {| dtables.to := Some fixtures.valsRekeyed; dtables.from := Some fixtures.vals;
       dtables.toName := "c300"; dtables.fromName := "c200";
       dtables.toDate := Some 300%Z; dtables.fromDate := Some 200%Z;
       dtables.toSch := GetSchema fixtures.vals;
       dtables.fromSch := GetSchema fixtures.vals |} = Ok false /\
  exists itr st',
    dtables.LookupPartitions fixtures.bothCommits fixtures.lookup0 = (Ok itr, st') /\
    dtables.warnings st' = dtables.warnings fixtures.lookup0 ++
      [{| sql.Level := "Warning"; sql.Code := dtables.PrimaryKeyChangeWarningCode;
          sql.Message := dtables.PrimaryKeyChangeWarning "c200" "c300" |}] /\
    dtables.partitions itr = [] /\
    dtables.Next itr = (Err EOF, itr).
Proof.
  split; [reflexivity|].
  apply (LookupPartitions_primary_key_change fixtures.bothCommits fixtures.lookup0
           (fixtures.equalTo "c300") (fixtures.equalTo "c200")
           (sql.VString "c300") (sql.VString "c200") "c300" "c200"
           fixtures.root1 "c300" (Some 300%Z) fixtures.root0 "c200" (Some 200%Z));
    try reflexivity; left; reflexivity.
Defined.

(** ** As-of resolution by timestamp *)

Section AsOf.
Context {doltdbNames : Names}.

Lemma asOfWalk_skip (t : Z) (pre : list Commit) (rest : list (result Commit)) :
  Forall (later_than t) pre ->
  asOfWalk ((Ok <$> pre) ++ rest) t = asOfWalk rest t.
Proof.
  induction 1 as [| c pre [m [Hm Hlt]] _ IH]; [reflexivity|].
  cbn. rewrite Hm.
  destruct (Z.eqb_spec (Time m) t) as [Heq | _]; [lia|].
  destruct (Z.ltb_spec (Time m) t) as [Hlt' | _]; [lia|].
  exact IH.
Qed.

Lemma asOfWalk_hit (t : Z) (c : Commit) (rest : list (result Commit)) m r :
  GetCommitMeta c = Ok m -> (Time m <= t)%Z -> GetRootValue c = Ok r ->
  asOfWalk (Ok c :: rest) t = Ok (Some (c, r)).
Proof.
  intros Hm Hle Hr. cbn. rewrite Hm, Hr.
  destruct (Z.eqb_spec (Time m) t); [reflexivity|].
  destruct (Z.ltb_spec (Time m) t); [reflexivity | lia].
Qed.

Lemma asOfWalk_found (t : Z) (items : list (result Commit)) c r :
  asOfWalk items t = Ok (Some (c, r)) ->
  exists pre post m,
    items = (Ok <$> pre) ++ Ok c :: post /\ Forall (later_than t) pre /\
    GetCommitMeta c = Ok m /\ (Time m <= t)%Z /\ GetRootValue c = Ok r.
Proof.
  induction items as [| [curr | e] rest IH]; cbn; [discriminate | |].
  - destruct (GetCommitMeta curr) as [m |] eqn:Hm; [|discriminate].
    destruct ((Time m =? t)%Z || (Time m <? t)%Z) eqn:Hcmp.
    + destruct (GetRootValue curr) as [root |] eqn:Hr; [|discriminate].
      intros [= -> ->]. exists [], rest, m.
      split; [reflexivity|]. split; [constructor|].
      repeat split; try assumption.
      apply orb_true_iff in Hcmp as [Hc | Hc]; lia.
    + intros Hw. destruct (IH Hw) as (pre & post & m' & -> & Hpre & Hrest).
      exists (curr :: pre), post, m'. split; [reflexivity|]. split; [|exact Hrest].
      constructor; [|exact Hpre]. exists m. split; [exact Hm|].
      apply orb_false_iff in Hcmp as [Hc1 Hc2]. lia.
  - destruct e; discriminate.
Qed.

(** C5: when HEAD resolves and the topological walk from it yields
    [items], [resolveAsOfTime] returns the first commit of the walk whose
    commit-meta time is at most [t] (equality included) together with that
    commit's root value; a returned commit is always that one; and when
    every commit of the walk is later than [t] it returns nothing, without
    error. *)
Theorem resolveAsOfTime_first_at_or_before
  (ddb : DoltDB) (head : string) (t : Z) cs cm h items :
  NewCommitSpec "HEAD" = Ok cs ->
  Resolve ddb cs (Some head) = Ok cm ->
  HashOf cm = Ok h ->
  GetTopologicalOrderIterator ddb h = Ok items ->
  (forall pre c post m r,
     items = (Ok <$> pre) ++ Ok c :: post ->
     Forall (later_than t) pre ->
     GetCommitMeta c = Ok m -> (Time m <= t)%Z -> GetRootValue c = Ok r ->
     resolveAsOfTime ddb head t = Ok (Some (c, r))) /\
  (forall c r,
     resolveAsOfTime ddb head t = Ok (Some (c, r)) ->
     exists pre post m,
       items = (Ok <$> pre) ++ Ok c :: post /\ Forall (later_than t) pre /\
       GetCommitMeta c = Ok m /\ (Time m <= t)%Z /\ GetRootValue c = Ok r) /\
  (forall commits,
     items = Ok <$> commits -> Forall (later_than t) commits ->
     resolveAsOfTime ddb head t = Ok None).
Proof.
  intros Hcs Hcm Hh Hit.
  assert (Hres : resolveAsOfTime ddb head t = asOfWalk items t).
  { unfold resolveAsOfTime. rewrite Hcs, Hcm, Hh, Hit. reflexivity. }
  rewrite Hres. split; [|split].
  - intros pre c post m r -> Hpre Hm Hle Hr.
    rewrite asOfWalk_skip by exact Hpre. exact (asOfWalk_hit t c post m r Hm Hle Hr).
  - intros c r. apply asOfWalk_found.
  - intros commits -> Hall.
    rewrite <- (app_nil_r (Ok <$> commits)).
    rewrite asOfWalk_skip by exact Hall. reflexivity.
Qed.

End AsOf.

Lemma resolveAsOfTime_first_at_or_before_witness :
  (NewCommitSpec "HEAD" = Ok "HEAD" /\
   Resolve fixtures.ddb0 "HEAD" (Some "refs/heads/main") = Ok fixtures.c300 /\
   GetTopologicalOrderIterator fixtures.ddb0 "c300" =
     Ok ((Ok <$> [fixtures.c300]) ++ Ok fixtures.c200 :: [Ok fixtures.c100])) /\
  resolveAsOfTime fixtures.ddb0 "refs/heads/main" 250 =
    Ok (Some (fixtures.c200, fixtures.root0)).
Proof.
  split; [repeat split|].
  assert (Hhead : NewCommitSpec "HEAD" = Ok "HEAD") by reflexivity.
  apply (proj1 (resolveAsOfTime_first_at_or_before fixtures.ddb0 "refs/heads/main"
                  250 "HEAD" fixtures.c300 "c300"
                  [Ok fixtures.c300; Ok fixtures.c200; Ok fixtures.c100]
                  Hhead eq_refl eq_refl eq_refl)
           [fixtures.c300] fixtures.c200 [Ok fixtures.c100] {| Time := 200 |}
           fixtures.root0 eq_refl).
  - constructor; [|constructor]. exists {| Time := 300 |}. split; [reflexivity | cbn; lia].
  - reflexivity.
  - cbn. lia.
  - reflexivity.
Defined.

(** ** Reserved names *)

Section ReservedNames.
Context {doltdbNames : Names} {diffTables : dtables.DiffTables}
        {constructors : Constructors}.

Lemma CheckAccessForDb_allowed (n : string) (w : World) :
  writeAllowed (session w) n = true -> CheckAccessForDb n w = (Ok tt, w).
Proof. intros Ha. unfold CheckAccessForDb. rewrite Ha. reflexivity. Qed.

Lemma CheckAccessForDb_denied (n : string) (w : World) :
  writeAllowed (session w) n = false ->
  CheckAccessForDb n w = (Err (ErrAuthorization n), w).
Proof. intros Ha. unfold CheckAccessForDb. rewrite Ha. reflexivity. Qed.

Lemma GetRoot_state (db : Database) (w : World) (st : DbState) :
  dbStates (session w) !! RevisionQualifiedName db = Some st ->
  GetRoot db w = (Ok (DbState_WorkingRoot st), w).
Proof.
  intros Hst. unfold GetRoot, bind, LookupDbState. rewrite Hst. reflexivity.
Qed.

Lemma GetRoot_no_state (db : Database) (w : World) :
  dbStates (session w) !! RevisionQualifiedName db = None ->
  GetRoot db w = (Err ErrNoRootValueInSession, w).
Proof.
  intros Hst. unfold GetRoot, bind, LookupDbState. rewrite Hst. reflexivity.
Qed.

(** C2, as the code has it.  For a name with the [dolt_] prefix that is
    not a full-text auxiliary name: [CreateTemporaryTable] returns
    reserved-table-name.  In a session with write access [CreateTable]
    returns reserved-table-name unless the name is [dolt_docs] (any letter
    case); for [dolt_docs] a schema other than the two canonical ones gives
    the incorrect-schema error, and with a canonical schema the name is not
    rejected as reserved: the call is the table-name validity test followed
    by [createSqlTable].  In a session with write access that has a state
    for the database, [RenameTable] to that name returns system-table-alter
    when the old name is a non-alterable system table and
    reserved-table-name otherwise, and [RenameTable] of that name returns
    system-table-alter when it is a non-alterable system table; without a
    state for the database [RenameTable] returns the no-root-value error.
    [DropTable] of that name returns system-table-alter when it is a
    non-alterable system table.  Without write access the three persistent
    operations return the authorization error.  No failure listed here
    changes the session. *)
Theorem reserved_names_rejected
  (db : Database) (w : World) (name : string) (sch : sql.PrimaryKeySchema)
  (coll : N) :
  HasDoltPrefix name = true ->
  IsFullTextTable name = false ->
  CreateTemporaryTable db name sch coll w = (Err (ErrReservedTableName name), w) /\
  (writeAllowed (session w) (RevisionQualifiedName db) = true ->
   (ToLower name <> DocTableName ->
    CreateTable db name sch coll w = (Err (ErrReservedTableName name), w)) /\
   (ToLower name = DocTableName ->
    sql.PkSchema sch <> DoltDocsSqlSchema ->
    sql.PkSchema sch <> OldDoltDocsSqlSchema ->
    CreateTable db name sch coll w = (Err ErrIncorrectDocsSchema, w)) /\
   (ToLower name = DocTableName ->
    sql.PkSchema sch = DoltDocsSqlSchema \/
    sql.PkSchema sch = OldDoltDocsSqlSchema ->
    CreateTable db name sch coll w =
      if IsValidTableName name then createSqlTable db name sch coll w
      else (Err (ErrInvalidTableName name), w)) /\
   (forall old st,
      dbStates (session w) !! RevisionQualifiedName db = Some st ->
      RenameTable db old name w =
        (Err (if IsNonAlterableSystemTable old then ErrSystemTableAlter old
              else ErrReservedTableName name), w)) /\
   (forall new st,
      dbStates (session w) !! RevisionQualifiedName db = Some st ->
      IsNonAlterableSystemTable name = true ->
      RenameTable db name new w = (Err (ErrSystemTableAlter name), w)) /\
   (dbStates (session w) !! RevisionQualifiedName db = None ->
    forall other,
      RenameTable db other name w = (Err ErrNoRootValueInSession, w) /\
      RenameTable db name other w = (Err ErrNoRootValueInSession, w)) /\
   (IsNonAlterableSystemTable name = true ->
    DropTable db name w = (Err (ErrSystemTableAlter name), w))) /\
  (writeAllowed (session w) (RevisionQualifiedName db) = false ->
   let denied := (@Err unit (ErrAuthorization (RevisionQualifiedName db)), w) in
   CreateTable db name sch coll w = denied /\
   (forall other, RenameTable db other name w = denied) /\
   (forall other, RenameTable db name other w = denied) /\
   DropTable db name w = denied).
Proof.
  intros Hpre Hft. split; [|split].
  - unfold CreateTemporaryTable. rewrite Hpre. reflexivity.
  - intros Ha.
    split; [|split; [|split; [|split; [|split; [|split]]]]].
    + intros Hdoc. unfold CreateTable, bind.
      rewrite (CheckAccessForDb_allowed _ _ Ha).
      destruct (String.eqb_spec (ToLower name) DocTableName) as [He | _];
        [contradiction|].
      rewrite Hpre, Hft. reflexivity.
    + intros Hdoc Hs1 Hs2. unfold CreateTable, bind.
      rewrite (CheckAccessForDb_allowed _ _ Ha).
      rewrite Hdoc. cbn [String.eqb].
      rewrite (proj2 (String.eqb_eq DocTableName DocTableName) eq_refl).
      unfold sql.Equals.
      rewrite !bool_decide_eq_false_2 by congruence. reflexivity.
    + intros Hdoc Hcanon. unfold CreateTable, bind.
      rewrite (CheckAccessForDb_allowed _ _ Ha).
      rewrite Hdoc.
      rewrite (proj2 (String.eqb_eq DocTableName DocTableName) eq_refl).
      unfold sql.Equals.
      assert (Hpass :
        negb (bool_decide (DoltDocsSqlSchema = sql.PkSchema sch))
        && negb (bool_decide (OldDoltDocsSqlSchema = sql.PkSchema sch)) = false).
      { destruct Hcanon as [-> | ->].
        - rewrite bool_decide_eq_true_2 by reflexivity. reflexivity.
        - rewrite (bool_decide_eq_true_2 (OldDoltDocsSqlSchema = _)) by reflexivity.
          apply andb_false_r. }
      rewrite Hpass. unfold ret.
      destruct (IsValidTableName name); reflexivity.
    + intros old st Hst. unfold RenameTable, bind.
      rewrite (CheckAccessForDb_allowed _ _ Ha), (GetRoot_state _ _ _ Hst).
      destruct (IsNonAlterableSystemTable old); [reflexivity|].
      rewrite Hpre. reflexivity.
    + intros new st Hst Hsys. unfold RenameTable, bind.
      rewrite (CheckAccessForDb_allowed _ _ Ha), (GetRoot_state _ _ _ Hst).
      rewrite Hsys. reflexivity.
    + intros Hnone other. split; unfold RenameTable, bind;
        rewrite (CheckAccessForDb_allowed _ _ Ha), (GetRoot_no_state _ _ Hnone);
        reflexivity.
    + intros Hsys. unfold DropTable, bind.
      rewrite (CheckAccessForDb_allowed _ _ Ha), Hsys. reflexivity.
  - intros Hd. cbv zeta. repeat split; intros;
      unfold CreateTable, RenameTable, DropTable, bind;
      rewrite (CheckAccessForDb_denied _ _ Hd); reflexivity.
Qed.

End ReservedNames.

Lemma reserved_names_rejected_witness :
  (HasDoltPrefix "dolt_foo" = true /\ IsFullTextTable "dolt_foo" = false) /\
  CreateTemporaryTable fixtures.db0 "dolt_foo" fixtures.intKey 0 fixtures.world0 =
    (Err (ErrReservedTableName "dolt_foo"), fixtures.world0) /\
  CreateTable fixtures.db0 "dolt_foo" fixtures.intKey 0 fixtures.world0 =
    (Err (ErrReservedTableName "dolt_foo"), fixtures.world0).
Proof.
  split; [split; reflexivity|].
  pose proof (reserved_names_rejected fixtures.db0 fixtures.world0 "dolt_foo"
                fixtures.intKey 0 eq_refl eq_refl) as [Htmp [Hallowed _]].
  split; [exact Htmp|].
  apply (proj1 (Hallowed eq_refl)). discriminate.
Defined.

(** C2 as stated fails: [dolt_docs] has the reserved prefix and is not a
    full-text auxiliary name, yet [CreateTable] accepts it with the
    canonical schema and the table is in the working root afterwards. *)
Lemma create_dolt_docs_accepted :
  HasDoltPrefix "dolt_docs" = true /\
  IsFullTextTable "dolt_docs" = false /\
  (CreateTable fixtures.db0 "dolt_docs" fixtures.docsKey 0 fixtures.world0).1 =
    Ok tt /\
  match (GetRoot fixtures.db0
           (CreateTable fixtures.db0 "dolt_docs" fixtures.docsKey 0
              fixtures.world0).2).1 with
  | Ok root => HasTable root "dolt_docs" = true
  | Err _ => False
  end.
Proof. split; [|split; [|split]]; vm_compute; reflexivity. Qed.

(** ** Temporary tables leave the working root alone *)

Section TemporaryTables.
Context {doltdbNames : Names} {diffTables : dtables.DiffTables}
        {constructors : Constructors}.

(** C10: [CreateTemporaryTable] makes no write-authorization check: under
    any write permission it returns the same result and makes the same
    change to the world.  A successful call leaves the database states of
    the session (hence the working root) and the auto-increment tracker as
    they were and appends the new table to the temporary tables of the
    database; it succeeds also in a session without write access, where
    [CreateTable] of the same table returns the authorization error. *)
Theorem CreateTemporaryTable_frame
  (db : Database) (name : string) (sch : sql.PrimaryKeySchema) (coll : N)
  (w : World) :
  (forall allow,
     CreateTemporaryTable db name sch coll (with_writeAllowed allow w) =
       ((CreateTemporaryTable db name sch coll w).1,
        with_writeAllowed allow (CreateTemporaryTable db name sch coll w).2)) /\
  (forall w', CreateTemporaryTable db name sch coll w = (Ok tt, w') ->
     (GetRoot db w').1 = (GetRoot db w).1 /\
     dbStates (session w') = dbStates (session w) /\
     autoIncrement w' = autoIncrement w /\
     (exists tmp,
        NewTempTable sch name (Name db) coll = Ok tmp /\
        tempTables (session w') !! Name db =
          Some (default [] (tempTables (session w) !! Name db) ++ [tmp])) /\
     (writeAllowed (session w) (RevisionQualifiedName db) = false ->
      CreateTable db name sch coll w =
        (Err (ErrAuthorization (RevisionQualifiedName db)), w))).
Proof.
  split.
  { intros allow. unfold CreateTemporaryTable.
    destruct (HasDoltPrefix name); [reflexivity|].
    destruct (IsValidTableName name); [|reflexivity]. cbn [negb].
    unfold bind, lift.
    destruct (NewTempTable sch name (Name db) coll) as [tmp | e]; reflexivity. }
  intros w'. unfold CreateTemporaryTable.
  destruct (HasDoltPrefix name); [discriminate|].
  destruct (IsValidTableName name); [|discriminate]. cbn [negb].
  unfold bind, lift.
  destruct (NewTempTable sch name (Name db) coll) as [tmp | e] eqn:Htmp;
    [|discriminate].
  unfold AddTemporaryTable, modify. intros [= <-].
  split.
  { unfold GetRoot, bind, LookupDbState. cbn.
    destruct (dbStates (session w) !! RevisionQualifiedName db); reflexivity. }
  split; [reflexivity|]. split; [reflexivity|]. split.
  - exists tmp. split; [reflexivity|]. cbn. apply lookup_insert_eq.
  - intros Hd. unfold CreateTable, bind, CheckAccessForDb. rewrite Hd. reflexivity.
Qed.

End TemporaryTables.

Lemma CreateTemporaryTable_frame_witness :
  writeAllowed (session fixtures.readOnlyWorld)
    (RevisionQualifiedName fixtures.db0) = false /\
  (CreateTemporaryTable fixtures.db0 "x" fixtures.intKey 0
     fixtures.readOnlyWorld).1 = Ok tt /\
  CreateTable fixtures.db0 "x" fixtures.intKey 0 fixtures.readOnlyWorld =
    (Err (ErrAuthorization "mydb"), fixtures.readOnlyWorld) /\
  (CreateTemporaryTable fixtures.db0 "x" fixtures.intKey 0
     (with_writeAllowed (fun _ => true) fixtures.readOnlyWorld)).1 = Ok tt.
Proof.
  split; [reflexivity|]. split; [reflexivity|].
  assert (Hrun : CreateTemporaryTable fixtures.db0 "x" fixtures.intKey 0
                   fixtures.readOnlyWorld =
                 (Ok tt, (CreateTemporaryTable fixtures.db0 "x" fixtures.intKey 0
                            fixtures.readOnlyWorld).2))
    by (vm_compute; reflexivity).
  pose proof (CreateTemporaryTable_frame fixtures.db0 "x" fixtures.intKey 0
                fixtures.readOnlyWorld) as [Hany Hframe].
  split.
  - apply (proj2 (proj2 (proj2 (proj2 (Hframe _ Hrun))))). reflexivity.
  - rewrite (Hany (fun _ => true)). reflexivity.
Defined.

(** ** Column tags *)

Section ColumnTags.
Context {doltdbNames : Names} {diffTables : dtables.DiffTables}
        {constructors : Constructors}.

Lemma tableByColTag_Some (root : RootValue) (tag : N) (n : string) :
  tableByColTag root tag = Some n ->
  exists t, tables root !! n = Some t /\ owns_tag t tag = true.
Proof.
  unfold tableByColTag.
  destruct (List.find _ _) as [[n' t] |] eqn:Hf; [|discriminate].
  intros [= <-]. apply find_some in Hf as [Hin Hown].
  exists t. split; [|exact Hown].
  apply elem_of_map_to_list, list_elem_of_In. exact Hin.
Qed.

Lemma tableByColTag_None (root : RootValue) (tag : N) :
  tableByColTag root tag = None ->
  forall n t, tables root !! n = Some t -> owns_tag t tag = false.
Proof.
  unfold tableByColTag.
  destruct (List.find _ _) as [[n' t'] |] eqn:Hf; [discriminate|].
  intros _ n t Hn.
  apply (find_none _ _ Hf (n, t)).
  apply list_elem_of_In, elem_of_map_to_list. exact Hn.
Qed.

Lemma tag_used_owner (root : RootValue) (tag : N) :
  tag_used root tag = true <->
  exists n t, tables root !! n = Some t /\ owns_tag t tag = true.
Proof.
  unfold tag_used. rewrite bool_decide_eq_true. split.
  - intros [n Hn]. exists n. apply tableByColTag_Some. exact Hn.
  - intros (n & t & Hn & Hown).
    destruct (tableByColTag root tag) as [m |] eqn:Hg; [eexists; reflexivity|].
    rewrite (tableByColTag_None _ _ Hg n t Hn) in Hown. discriminate.
Qed.

Lemma HasTable_false (root : RootValue) (name : string) :
  HasTable root name = false <-> tables root !! name = None.
Proof.
  unfold HasTable. rewrite bool_decide_eq_false, <- eq_None_not_Some. tauto.
Qed.

Lemma tagConflict_readable (root : RootValue) (name : string) (col : Column)
  (lines : list (N * string * string)) :
  TagLookupError root (Tag col) = None ->
  tagConflict root name (Tag col) col lines =
    (Ok false, lines ++ from_option (fun l => [l]) [] (conflictOf root name col)).
Proof.
  intros Hok. unfold tagConflict, conflictOf, bind, lift, GetTableByColTag.
  rewrite Hok.
  destruct (tableByColTag root (Tag col)) as [tbl |]; cbn.
  - destruct (String.eqb tbl name); cbn; [rewrite app_nil_r|]; reflexivity.
  - rewrite app_nil_r. reflexivity.
Qed.

Lemma tagConflict_unreadable (root : RootValue) (name : string) (col : Column)
  (lines : list (N * string * string)) (e : error) :
  TagLookupError root (Tag col) = Some e ->
  tagConflict root name (Tag col) col lines = (Err e, lines).
Proof.
  intros He. unfold tagConflict, bind, lift, GetTableByColTag.
  rewrite He. reflexivity.
Qed.

(** When the storage answers every lookup the iteration runs to its end
    without error and collects one entry per conflicting column. *)
Lemma Iter_readable (root : RootValue) (name : string) (sch : Schema)
  (lines : list (N * string * string)) :
  tags_readable root sch ->
  Iter sch (tagConflict root name) lines =
    (Ok tt, lines ++ omap (conflictOf root name) sch).
Proof.
  intros Hok. revert lines.
  induction Hok as [| col sch Hcol _ IH]; intros lines.
  - cbn. rewrite app_nil_r. reflexivity.
  - cbn [Iter]. unfold bind at 1. rewrite (tagConflict_readable _ _ _ _ Hcol).
    rewrite IH. cbn [omap list_omap].
    destruct (conflictOf root name col) as [l |]; cbn.
    + rewrite <- app_assoc. reflexivity.
    + rewrite app_nil_r. reflexivity.
Qed.

Lemma conflictingTbls_readable (root : RootValue) (name : string) (sch : Schema) :
  tags_readable root sch ->
  conflictingTbls root name sch = omap (conflictOf root name) sch.
Proof.
  intros Hok. unfold conflictingTbls. rewrite (Iter_readable _ _ _ _ Hok).
  reflexivity.
Qed.

(** The first lookup that the storage does not answer ends the iteration:
    the entries are those of the columns before it. *)
Lemma conflictingTbls_unreadable (root : RootValue) (name : string)
  (before after : Schema) (col : Column) (e : error) :
  tags_readable root before ->
  TagLookupError root (Tag col) = Some e ->
  Iter (before ++ col :: after) (tagConflict root name) [] =
    (Err e, omap (conflictOf root name) before).
Proof.
  intros Hok He.
  assert (Hgen : forall lines,
            Iter (before ++ col :: after) (tagConflict root name) lines =
              (Err e, lines ++ omap (conflictOf root name) before)).
  { induction Hok as [| c sch Hc _ IH]; intros lines.
    - cbn [app Iter]. unfold bind.
      rewrite (tagConflict_unreadable _ _ _ _ _ He). cbn.
      rewrite app_nil_r. reflexivity.
    - cbn [app Iter]. unfold bind at 1.
      rewrite (tagConflict_readable _ _ _ _ Hc). rewrite IH.
      cbn [omap list_omap].
      destruct (conflictOf root name c) as [l |]; cbn.
      + rewrite <- app_assoc. reflexivity.
      + rewrite app_nil_r. reflexivity. }
  exact (Hgen []).
Qed.

(** With every lookup answered, the lines name exactly the columns whose
    tag is in use, in column order, one line each. *)
Lemma conflictingTbls_tags (root : RootValue) (name : string) (sch : Schema) :
  tables root !! name = None ->
  tags_readable root sch ->
  (fun line => line.1.1) <$> conflictingTbls root name sch =
  Tag <$> List.filter (fun col => tag_used root (Tag col)) sch.
Proof.
  intros Hnew Hok. rewrite (conflictingTbls_readable _ _ _ Hok). clear Hok.
  induction sch as [| col sch IH]; [reflexivity|].
  cbn. unfold tag_used at 1, conflictOf at 1.
  destruct (tableByColTag root (Tag col)) as [tbl |] eqn:Hg.
  - rewrite bool_decide_eq_true_2 by (eexists; reflexivity).
    destruct (String.eqb_spec tbl name) as [-> | _].
    + apply tableByColTag_Some in Hg as (t & Ht & _). congruence.
    + cbn. f_equal. exact IH.
  - rewrite bool_decide_eq_false_2 by (intros [? ?]; discriminate). exact IH.
Qed.

Lemma conflictOf_line (root : RootValue) (name : string) (col : Column)
  tag cn tbl :
  conflictOf root name col = Some (tag, cn, tbl) ->
  tbl <> name /\
  (exists t, tables root !! tbl = Some t /\ owns_tag t tag = true) /\
  Tag col = tag /\ doltdb.Name col = cn.
Proof.
  unfold conflictOf.
  destruct (tableByColTag root (Tag col)) as [tbl' |] eqn:Hg; [|discriminate].
  destruct (String.eqb_spec tbl' name) as [| Hne]; [discriminate|].
  cbn. intros [= <- <- <-].
  split; [exact Hne|]. split; [exact (tableByColTag_Some _ _ _ Hg)|]. auto.
Qed.

(** Whatever the storage answers, every line names a column of the schema
    and a table other than the new one that owns the column's tag. *)
Lemma conflictingTbls_line (root : RootValue) (name : string) (sch : Schema)
  tag cn tbl :
  (tag, cn, tbl) ∈ conflictingTbls root name sch ->
  tbl <> name /\
  (exists t, tables root !! tbl = Some t /\ owns_tag t tag = true) /\
  (exists col, col ∈ sch /\ Tag col = tag /\ doltdb.Name col = cn).
Proof.
  unfold conflictingTbls.
  assert (Hgen : forall lines,
            (tag, cn, tbl) ∈ (Iter sch (tagConflict root name) lines).2 ->
            (tag, cn, tbl) ∈ lines \/
            exists col, col ∈ sch /\
              conflictOf root name col = Some (tag, cn, tbl)).
  { induction sch as [| col sch IH]; intros lines; [cbn; auto|].
    cbn [Iter]. unfold bind at 1.
    destruct (TagLookupError root (Tag col)) as [e |] eqn:He.
    - rewrite (tagConflict_unreadable _ _ _ _ _ He). cbn. auto.
    - rewrite (tagConflict_readable _ _ _ _ He).
      intros Hin. apply IH in Hin as [Hin | (c & Hc & Hline)].
      + apply elem_of_app in Hin as [Hin | Hin]; [auto|].
        right. exists col. split; [apply list_elem_of_here|].
        destruct (conflictOf root name col) as [l |]; cbn in Hin.
        * apply list_elem_of_singleton in Hin. congruence.
        * inversion Hin.
      + right. exists c. split; [apply list_elem_of_further; exact Hc | exact Hline]. }
  intros Hin. apply Hgen in Hin as [Hin | (col & Hcol & Hline)]; [inversion Hin|].
  apply conflictOf_line in Hline as (Hne & Hown & Htag & Hcn).
  split; [exact Hne|]. split; [exact Hown|]. exists col. auto.
Qed.

Lemma CreateEmptyTable_unique (root : RootValue) (name : string) (sch : Schema) :
  tags_unique root ->
  tags_readable root sch ->
  conflictingTbls root name sch = [] ->
  tags_unique (CreateEmptyTable root name sch).
Proof.
  intros Huniq Hok Hnone. rewrite (conflictingTbls_readable _ _ _ Hok) in Hnone.
  assert (Hfree : forall col n t, col ∈ sch -> n <> name ->
            tables root !! n = Some t -> owns_tag t (Tag col) = false).
  { intros col n t Hcol Hne Hn.
    destruct (tableByColTag root (Tag col)) as [tbl |] eqn:Hg.
    - destruct (String.eqb_spec tbl name) as [-> | Hne'].
      + destruct (owns_tag t (Tag col)) eqn:Hown; [|reflexivity].
        apply tableByColTag_Some in Hg as (t' & Ht' & Hown').
        exfalso. apply Hne. exact (Huniq _ _ _ _ _ Hn Ht' Hown Hown').
      + exfalso.
        assert (Hin : (Tag col, doltdb.Name col, tbl) ∈
                        omap (conflictOf root name) sch).
        { apply list_elem_of_omap. exists col.
          split; [exact Hcol|]. unfold conflictOf. rewrite Hg.
          destruct (String.eqb_spec tbl name); [contradiction | reflexivity]. }
        rewrite Hnone in Hin. inversion Hin.
    - exact (tableByColTag_None _ _ Hg n t Hn). }
  assert (Hnew : forall n t tag, n <> name -> tables root !! n = Some t ->
            owns_tag t tag = true ->
            existsb (fun c => (Tag c =? tag)%N) sch = true -> False).
  { intros n t tag Hne Hn Hown Hex.
    apply existsb_exists in Hex as (col & Hcol & Heq).
    apply N.eqb_eq in Heq. subst tag.
    rewrite (Hfree col n t) in Hown; [discriminate | | exact Hne | exact Hn].
    apply list_elem_of_In. exact Hcol. }
  intros n1 n2 t1 t2 tag. cbn.
  destruct (decide (n1 = name)) as [-> | Hne1];
    destruct (decide (n2 = name)) as [-> | Hne2]; [reflexivity | | |].
  - rewrite lookup_insert_eq, lookup_insert_ne by congruence.
    intros [= <-] Hn2 Hown1 Hown2. exfalso. exact (Hnew _ _ _ Hne2 Hn2 Hown2 Hown1).
  - rewrite lookup_insert_eq, lookup_insert_ne by congruence.
    intros Hn1 [= <-] Hown1 Hown2. exfalso. exact (Hnew _ _ _ Hne1 Hn1 Hown1 Hown2).
  - rewrite !lookup_insert_ne by congruence. apply Huniq.
Qed.

Lemma SetRoot_inv (db : Database) (r : RootValue) (w w' : World) :
  SetRoot db r w = (Ok tt, w') ->
  exists st ws,
    dbStates (session w) !! RevisionQualifiedName db = Some st /\
    workingSet st = Some ws /\
    w' = set_session (set_dbStates
           (<[RevisionQualifiedName db :=
                {| headCommit := headCommit st; headRoot := headRoot st;
                   workingSet := Some (WithWorkingRoot ws r);
                   sessionCache :=
                     filter (fun kv => kv.1 = NewDataCacheKey r) (sessionCache st) |}]>)) w.
Proof.
  unfold SetRoot, dsess.SetRoot.
  destruct (dbStates (session w) !! RevisionQualifiedName db) as [st |] eqn:Hst;
    [|discriminate].
  destruct (workingSet st) as [ws |] eqn:Hws; [|discriminate].
  intros [= <-]. exists st, ws. auto.
Qed.

Lemma SetRoot_GetRoot (db : Database) (r : RootValue) (w w' : World) :
  SetRoot db r w = (Ok tt, w') -> GetRoot db w' = (Ok r, w').
Proof.
  intros Hs. apply SetRoot_inv in Hs as (st & ws & Hst & Hws & ->).
  unfold GetRoot, bind, LookupDbState. cbn.
  rewrite lookup_insert_eq. reflexivity.
Qed.

(** X31: when the storage answers every tag lookup of the create, and the
    table name is not yet in the root, [createDoltTable] fails whenever a
    column of the schema carries a tag that a table of the root owns; the
    error lists exactly those columns, one line each in column order,
    every line naming an owning table other than the new one, and the
    session (hence the root) is unchanged.  When it succeeds no tag of the
    schema was in use, the working root is the old root plus the new empty
    table, and tags that were unique across the tables of the old root are
    unique across those of the new one. *)
Theorem createDoltTable_readable_tags
  (db : Database) (name : string) (root : RootValue) (sch : Schema) (w : World) :
  HasTable root name = false ->
  tags_readable root sch ->
  (Exists (fun col => tag_used root (Tag col) = true) sch ->
   exists lines,
     createDoltTable db name root sch w = (Err (ErrTagsPrevUsed lines), w) /\
     (fun line => line.1.1) <$> lines =
       Tag <$> List.filter (fun col => tag_used root (Tag col)) sch /\
     (forall tag cn tbl, (tag, cn, tbl) ∈ lines ->
        tbl <> name /\
        (exists t, tables root !! tbl = Some t /\ owns_tag t tag = true) /\
        (exists col, col ∈ sch /\ Tag col = tag /\ doltdb.Name col = cn))) /\
  (forall w', createDoltTable db name root sch w = (Ok tt, w') ->
     Forall (fun col => tag_used root (Tag col) = false) sch /\
     GetRoot db w' = (Ok (CreateEmptyTable root name sch), w') /\
     (tags_unique root -> tags_unique (CreateEmptyTable root name sch))).
Proof.
  intros Hnew Hok. pose proof (proj1 (HasTable_false _ _) Hnew) as Hnone.
  pose proof (conflictingTbls_tags root name sch Hnone Hok) as Htags.
  split.
  - intros Hex. exists (conflictingTbls root name sch).
    split; [|split; [exact Htags | apply conflictingTbls_line]].
    unfold createDoltTable. rewrite Hnew.
    destruct (conflictingTbls root name sch) as [| l ls]; [|reflexivity].
    exfalso. apply Exists_exists in Hex as (col & Hcol & Hused).
    assert (Hin : Tag col ∈
              Tag <$> List.filter (fun col => tag_used root (Tag col)) sch).
    { apply list_elem_of_fmap. exists col. split; [reflexivity|].
      apply list_elem_of_In, filter_In. split; [|exact Hused].
      apply list_elem_of_In. exact Hcol. }
    rewrite <- Htags in Hin. inversion Hin.
  - intros w'. unfold createDoltTable. rewrite Hnew.
    destruct (conflictingTbls root name sch) as [| l ls] eqn:Hc; [|discriminate].
    intros Hs. split; [|split].
    + apply Forall_forall. intros col Hcol.
      destruct (tag_used root (Tag col)) eqn:Hused; [|reflexivity].
      exfalso.
      assert (Hin : Tag col ∈
                Tag <$> List.filter (fun col => tag_used root (Tag col)) sch).
      { apply list_elem_of_fmap. exists col. split; [reflexivity|].
        apply list_elem_of_In, filter_In. split; [|exact Hused].
        apply list_elem_of_In. exact Hcol. }
      rewrite <- Htags in Hin. inversion Hin.
    + exact (SetRoot_GetRoot _ _ _ _ Hs).
    + intros Hu. apply CreateEmptyTable_unique; assumption.
Qed.

End ColumnTags.

Lemma createDoltTable_readable_tags_witness :
  (HasTable fixtures.root0 "other" = false /\
   tags_readable fixtures.root0 fixtures.reusingTags) /\
  exists lines,
    createDoltTable fixtures.db0 "other" fixtures.root0 fixtures.reusingTags
      fixtures.world0 = (Err (ErrTagsPrevUsed lines), fixtures.world0) /\
    (fun line => line.1.1) <$> lines = [1%N; 2%N].
Proof.
  assert (Hok : tags_readable fixtures.root0 fixtures.reusingTags)
    by (repeat constructor).
  split; [split; [reflexivity | exact Hok]|].
  destruct (proj1 (createDoltTable_readable_tags fixtures.db0 "other" fixtures.root0
                     fixtures.reusingTags fixtures.world0 eq_refl Hok))
    as (lines & Hrun & Htags & _).
  { apply Exists_cons_hd. vm_compute. reflexivity. }
  exists lines. split; [exact Hrun|]. rewrite Htags. vm_compute. reflexivity.
Defined.

(** C3 fails on the code.  [createDoltTable] drops the error of its
    column iteration, so a tag lookup that the storage does not answer
    hides the conflicts from that column on.  The root holds the one table
    [vals], which owns the tags 1 and 2, and the new table [other] reuses
    both.  When the lookup of tag 1 fails, the create succeeds and the
    working root then holds two tables that own tag 1; when only the
    lookup of tag 2 fails, the tag-already-used error lists tag 1 alone. *)
Lemma createDoltTable_drops_lookup_error :
  tags_unique fixtures.root0 /\
  HasTable fixtures.root0 "other" = false /\
  tag_used fixtures.root0 1 = true /\ tag_used fixtures.root0 2 = true /\
  (let names := model.namesOver (N.eqb 1) in
   let created :=
     @createDoltTable names fixtures.db0 "other" fixtures.root0
        fixtures.reusingTags fixtures.world0 in
   created.1 = Ok tt /\
   (GetRoot fixtures.db0 created.2).1 =
     Ok (CreateEmptyTable fixtures.root0 "other" fixtures.reusingTags) /\
   ~ tags_unique (CreateEmptyTable fixtures.root0 "other" fixtures.reusingTags)) /\
  (let names := model.namesOver (N.eqb 2) in
   @createDoltTable names fixtures.db0 "other" fixtures.root0
      fixtures.reusingTags fixtures.world0 =
     (Err (ErrTagsPrevUsed [(1%N, "a", "vals")]), fixtures.world0)).
Proof.
  split.
  { intros n1 n2 t1 t2 tag H1 H2 _ _.
    change (({["vals" := fixtures.vals]} : gmap string Table) !! n1 = Some t1) in H1.
    change (({["vals" := fixtures.vals]} : gmap string Table) !! n2 = Some t2) in H2.
    apply lookup_singleton_Some in H1 as [<- _].
    apply lookup_singleton_Some in H2 as [<- _]. reflexivity. }
  split; [reflexivity|]. split; [reflexivity|]. split; [reflexivity|].
  split.
  - cbv zeta. split; [vm_compute; reflexivity|].
    split; [vm_compute; reflexivity|].
    intros Hu.
    assert (Hne : "other" = "vals"); [|discriminate Hne].
    apply (Hu "other" "vals"
             {| GetSchema := fixtures.reusingTags; GetRowData := [];
                AutoIncVal := 1 |} fixtures.vals 1%N); reflexivity.
  - vm_compute. reflexivity.
Qed.

(** ** Temporary tables shadow persisted ones *)

Section Shadowing.
Context {doltdbNames : Names} {diffTables : dtables.DiffTables}
        {constructors : Constructors}.

Lemma HasPrefix_trans (s p q : string) :
  HasPrefix s p = true -> HasPrefix p q = true -> HasPrefix s q = true.
Proof.
  revert s p. induction q as [| c q IH]; intros s p Hsp Hpq; [destruct s; reflexivity|].
  destruct p as [| b p]; [discriminate|].
  destruct s as [| a s]; [discriminate|].
  cbn in *. destruct (Ascii.eqb_spec b a) as [Hba |]; [|discriminate].
  destruct (Ascii.eqb_spec c b) as [Hcb |]; [|discriminate].
  subst. rewrite Ascii.eqb_refl. exact (IH _ _ Hsp Hpq).
Qed.

(** A lowered name outside the [dolt_] namespace matches no reflective
    prefix and no reflective name. *)
Lemma not_dolt_prefix (s p : string) :
  HasPrefix s "dolt_" = false -> HasPrefix p "dolt_" = true ->
  HasPrefix s p = false.
Proof.
  intros Hs Hp. destruct (HasPrefix s p) eqn:Hsp; [|reflexivity].
  rewrite (HasPrefix_trans _ _ _ Hsp Hp) in Hs. discriminate.
Qed.

Lemma not_dolt_name (s n : string) :
  HasPrefix s "dolt_" = false -> HasPrefix n "dolt_" = true ->
  String.eqb s n = false.
Proof.
  intros Hs Hn. destruct (String.eqb_spec s n) as [-> |]; [|reflexivity].
  congruence.
Qed.

Lemma exactNameTable_not_dolt (db : Database) head root (lwrName : string) (w : World) :
  HasPrefix lwrName "dolt_" = false ->
  exactNameTable db head root lwrName w = (Ok None, w).
Proof.
  intros Hs. unfold exactNameTable.
  rewrite !(not_dolt_name lwrName _ Hs) by reflexivity. reflexivity.
Qed.

Lemma getTableInsensitive_not_dolt (depth : nat) (db : Database) head root
  (tblName : string) (w : World) :
  HasPrefix (ToLower tblName) "dolt_" = false ->
  getTableInsensitive_rec depth db head root tblName w = getTable db root tblName w.
Proof.
  intros Hs.
  assert (Hbody : forall self,
            getTableInsensitive_body self db head root tblName w =
            getTable db root tblName w).
  { intros self. unfold getTableInsensitive_body.
    rewrite !(not_dolt_prefix _ _ Hs) by reflexivity.
    unfold bind. rewrite (exactNameTable_not_dolt _ _ _ _ _ Hs). reflexivity. }
  destruct depth; apply Hbody.
Qed.

Lemma GetTableNameInsensitive_exact (x : string) (names : list string) :
  x ∈ names -> sql.GetTableNameInsensitive x names = Some x.
Proof.
  intros Hin. unfold sql.GetTableNameInsensitive.
  destruct (List.find (String.eqb x) names) as [n |] eqn:Hf.
  - apply find_some in Hf as [_ Heq]. apply String.eqb_eq in Heq. congruence.
  - exfalso. apply list_elem_of_In in Hin.
    pose proof (find_none _ _ Hf x Hin) as Hne. rewrite String.eqb_refl in Hne.
    discriminate.
Qed.

Lemma GetTableNames_elem (root : RootValue) (n : string) :
  n ∈ GetTableNames root <-> is_Some (tables root !! n).
Proof.
  unfold GetTableNames. rewrite list_elem_of_fmap. split.
  - intros ([n' t] & -> & Hin). apply elem_of_map_to_list in Hin. eexists; exact Hin.
  - intros [t Ht]. exists (n, t). split; [reflexivity|].
    apply elem_of_map_to_list. exact Ht.
Qed.

Lemma getTable_exact (db : Database) (root : RootValue) (x : string) (t : Table)
  (st : DbState) (w : World) :
  dbStates (session w) !! RevisionQualifiedName db = Some st ->
  tables root !! x = Some t ->
  (forall cached,
     GetCachedTable st (NewDataCacheKey root) x = Some cached ->
     cached = adapter x t) ->
  (getTable db root x w).1 = Ok (Some (adapter x t)).
Proof.
  intros Hst Ht Hcache. unfold getTable, bind, LookupDbState. rewrite Hst.
  destruct (GetCachedTable st (NewDataCacheKey root) x) as [cached |] eqn:Hc.
  - rewrite (Hcache cached eq_refl). reflexivity.
  - rewrite GetTableNameInsensitive_exact
      by (apply GetTableNames_elem; eexists; exact Ht).
    unfold GetTable. rewrite Ht. reflexivity.
Qed.

(** C6: a session that holds a temporary table named [x] (up to letter
    case) for the database gets that table from [GetTableInsensitive], with
    no look at the session's root, its cache or the reflective tables and
    with the session unchanged; a session that holds none gets, for a name
    outside the [dolt_] namespace that a table of its working root carries,
    the adapter of that persisted table. *)
Theorem GetTableInsensitive_temporary_first (db : Database) (x : string) (w : World) :
  (forall tmp,
     GetTemporaryTable w (Name db) x = Some tmp ->
     GetTableInsensitive db x w = (Ok (Some (Temporary tmp)), w)) /\
  (GetTemporaryTable w (Name db) x = None ->
   forall st t,
     dbStates (session w) !! RevisionQualifiedName db = Some st ->
     HasPrefix (ToLower x) "dolt_" = false ->
     tables (DbState_WorkingRoot st) !! x = Some t ->
     (forall cached,
        GetCachedTable st (NewDataCacheKey (DbState_WorkingRoot st)) x = Some cached ->
        cached = adapter x t) ->
     (GetTableInsensitive db x w).1 = Ok (Some (adapter x t))).
Proof.
  split.
  - intros tmp Htmp. unfold GetTableInsensitive, bind, get. rewrite Htmp. reflexivity.
  - intros Hnone st t Hst Hx Ht Hcache.
    unfold GetTableInsensitive, bind, get. rewrite Hnone.
    fold (bind (GetRoot db) (fun root => getTableInsensitive db None root x)).
    unfold bind. rewrite (GetRoot_state _ _ _ Hst).
    unfold getTableInsensitive. rewrite getTableInsensitive_not_dolt by exact Hx.
    exact (getTable_exact db _ x t st w Hst Ht Hcache).
Qed.

End Shadowing.

Lemma GetTableInsensitive_temporary_first_witness :
  (GetTemporaryTable fixtures.worldWithTempX (Name fixtures.db0) "x" =
     Some fixtures.tempX /\
   GetTableInsensitive fixtures.db0 "x" fixtures.worldWithTempX =
     (Ok (Some (Temporary fixtures.tempX)), fixtures.worldWithTempX)) /\
  (GetTemporaryTable fixtures.worldWithoutTempX (Name fixtures.db0) "x" = None /\
   (GetTableInsensitive fixtures.db0 "x" fixtures.worldWithoutTempX).1 =
     Ok (Some (Alterable {| tableName := "x"; sch := GetSchema fixtures.vals;
                            table := fixtures.vals |}))).
Proof.
  split; (split; [reflexivity|]).
  - apply (proj1 (GetTableInsensitive_temporary_first fixtures.db0 "x"
                    fixtures.worldWithTempX)).
    reflexivity.
  - assert (Hmiss : forall cached,
              GetCachedTable fixtures.stateX
                (NewDataCacheKey (DbState_WorkingRoot fixtures.stateX)) "x"
                = Some cached ->
              cached = adapter "x" fixtures.vals)
      by (intros cached Hc; discriminate Hc).
    exact (proj2 (GetTableInsensitive_temporary_first fixtures.db0 "x"
                    fixtures.worldWithoutTempX) eq_refl fixtures.stateX fixtures.vals
             eq_refl eq_refl eq_refl Hmiss).
Defined.

(** ** Names of the full-text auxiliary tables *)

Section Fulltext.
Context {doltdbNames : Names} {diffTables : dtables.DiffTables}
        {constructors : Constructors}.

Lemma append_cons (c : ascii) (a b : string) :
  String c a +:+ b = String c (a +:+ b).
Proof. reflexivity. Qed.

Lemma length_append (a b : string) :
  String.length (a +:+ b) = String.length a + String.length b.
Proof.
  induction a as [| c a IH]; [reflexivity|].
  rewrite append_cons. cbn. f_equal. exact IH.
Qed.

Lemma length_ToLower (s : string) : String.length (ToLower s) = String.length s.
Proof. induction s as [| c s IH]; [reflexivity|]. cbn. f_equal. exact IH. Qed.

Lemma HasPrefix_length (s p : string) :
  HasPrefix s p = true -> String.length p <= String.length s.
Proof.
  revert s. induction p as [| a p IH]; intros s Hp; [cbn; lia|].
  destruct s as [| b s]; [discriminate|]. cbn in *.
  destruct (Ascii.eqb a b); [|discriminate]. specialize (IH s Hp). lia.
Qed.

Lemma pretty_N_go_length (x : N) (s : string) :
  String.length s <= String.length (pretty_N_go x s).
Proof.
  revert s. induction (N.lt_wf_0 x) as [x _ IH]. intros s.
  destruct (decide (x = 0)%N) as [-> | Hx]; [rewrite pretty_N_go_0; lia|].
  rewrite pretty_N_go_step by lia.
  etransitivity; [|apply IH; apply N.div_lt; lia]. cbn. lia.
Qed.

Lemma pretty_N_go_pow (k : nat) (x : N) (s : string) :
  (10 ^ N.of_nat k <= x)%N ->
  k + 1 + String.length s <= String.length (pretty_N_go x s).
Proof.
  revert x s. induction k as [| k IH]; intros x s Hx.
  - cbn in Hx. rewrite pretty_N_go_step by lia.
    etransitivity; [|apply pretty_N_go_length]. cbn. lia.
  - assert (Hpos : (0 < 10 ^ N.of_nat k)%N)
      by (apply N.neq_0_lt_0, N.pow_nonzero; lia).
    rewrite Nat2N.inj_succ, N.pow_succ_r' in Hx.
    rewrite pretty_N_go_step by lia.
    etransitivity; [|apply IH]; [cbn; lia|].
    apply N.div_le_lower_bound; lia.
Qed.

(** Decimal renderings get arbitrarily long. *)
Lemma pretty_length_pow (k : nat) :
  S k <= String.length (pretty (10 ^ N.of_nat k)%N).
Proof.
  unfold pretty, pretty_N.
  destruct (decide (10 ^ N.of_nat k = 0)%N) as [H0 | _].
  - exfalso. revert H0. apply N.pow_nonzero. lia.
  - pose proof (pretty_N_go_pow k (10 ^ N.of_nat k) "" (N.le_refl _)). cbn in *. lia.
Qed.

Lemma totalLength_ge (names : list string) (s : string) :
  In s names -> String.length s <= totalLength names.
Proof.
  induction names as [| a names IH]; [intros []|].
  intros [-> | Hin]; [|specialize (IH Hin)];
    unfold totalLength in *; cbn [foldr]; lia.
Qed.

(** Some counter value is free: its prefix is longer than every name. *)
Lemma untaken_exists (names : list string) (t i : string) :
  exists n, prefixTaken names (ToLower (prefixFormat t i n)) = false.
Proof.
  exists (10 ^ N.of_nat (totalLength names))%N.
  destruct (prefixTaken _ _) eqn:Htaken; [|reflexivity]. exfalso.
  apply existsb_exists in Htaken as (name & Hin & Hpre).
  apply HasPrefix_length in Hpre. rewrite !length_ToLower in Hpre.
  pose proof (totalLength_ge _ _ Hin) as Hle.
  pose proof (pretty_length_pow (totalLength names)) as Hlong.
  unfold prefixFormat in Hpre. rewrite !length_append in Hpre. lia.
Qed.

Lemma least_exists (P : N -> bool) :
  (exists n, P n = false) ->
  exists n, P n = false /\ forall m, (m < n)%N -> P m = true.
Proof.
  intros [n Hn].
  assert (Hsearch : forall k : nat,
            (forall m, N.to_nat m < k -> P m = true) \/
            (exists m, P m = false /\ forall m', (m' < m)%N -> P m' = true)).
  { induction k as [| k [IH | IH]]; [left; intros m Hm; lia | | right; exact IH].
    destruct (P (N.of_nat k)) eqn:Hk.
    - left. intros m Hm.
      destruct (decide (N.to_nat m = k)) as [<- | Hne];
        [rewrite N2Nat.id in Hk; exact Hk | apply IH; lia].
    - right. exists (N.of_nat k). split; [exact Hk|].
      intros m' Hm'. apply IH. lia. }
  destruct (Hsearch (S (N.to_nat n))) as [Hall | Hleast]; [|exact Hleast].
  rewrite Hall in Hn by lia. discriminate.
Qed.

(** The loop, started at [start], stops at the first free counter value
    at or after [start], provided the counter does not wrap before. *)
Lemma OuterLoop_reaches (names : list string) (t i : string) (d : nat) :
  forall (start : N) (steps : nat),
    (start + N.of_nat d < 2 ^ 64)%N ->
    (forall m, (start <= m < start + N.of_nat d)%N ->
       prefixTaken names (ToLower (prefixFormat t i m)) = true) ->
    prefixTaken names (ToLower (prefixFormat t i (start + N.of_nat d))) = false ->
    d < steps ->
    OuterLoop steps names t i start =
      Some (ToLower (prefixFormat t i (start + N.of_nat d))).
Proof.
  induction d as [| d IH]; intros start steps Hlt Hbelow Hfree Hsteps;
    (destruct steps as [| steps]; [lia|]); cbn [OuterLoop].
  - rewrite N.add_0_r in *. rewrite Hfree. reflexivity.
  - rewrite Hbelow by lia.
    rewrite N.mod_small by lia.
    replace (start + N.of_nat (S d))%N with (start + 1 + N.of_nat d)%N in * by lia.
    apply IH; [exact Hlt | intros m Hm; apply Hbelow; lia | exact Hfree | lia].
Qed.

Lemma HasSuffix_app (a suf : string) : HasSuffix (a +:+ suf) suf = true.
Proof.
  induction a as [| c a IH].
  - change ("" +:+ suf) with suf.
    destruct suf; cbn; rewrite ?String.eqb_refl, ?Ascii.eqb_refl; reflexivity.
  - rewrite append_cons. cbn [HasSuffix].
    destruct (String.eqb (String c (a +:+ suf)) suf); [reflexivity | exact IH].
Qed.

Lemma append_assoc (a b c : string) : (a +:+ b) +:+ c = a +:+ (b +:+ c).
Proof.
  induction a as [| x a IH]; [reflexivity|].
  rewrite !append_cons. f_equal. exact IH.
Qed.

Lemma ToLower_append (a b : string) : ToLower (a +:+ b) = ToLower a +:+ ToLower b.
Proof.
  induction a as [| x a IH]; [reflexivity|].
  rewrite append_cons. cbn [ToLower]. rewrite append_cons. f_equal. exact IH.
Qed.

Lemma lower_pretty_N_char (x : N) : lower_ascii (pretty_N_char x) = pretty_N_char x.
Proof. unfold pretty_N_char. repeat case_match; reflexivity. Qed.

Lemma ToLower_pretty_N_go (x : N) (s : string) :
  ToLower (pretty_N_go x s) = pretty_N_go x (ToLower s).
Proof.
  revert s. induction (N.lt_wf_0 x) as [x _ IH]. intros s.
  destruct (decide (x = 0)%N) as [-> | Hx]; [rewrite !pretty_N_go_0; reflexivity|].
  rewrite (pretty_N_go_step x s), (pretty_N_go_step x (ToLower s)) by lia.
  rewrite IH by (apply N.div_lt; lia).
  cbn [ToLower]. rewrite lower_pretty_N_char. reflexivity.
Qed.

(** Decimal digits have no letter case. *)
Lemma ToLower_pretty (n : N) : ToLower (pretty n) = pretty n.
Proof.
  unfold pretty, pretty_N. destruct (decide (n = 0)%N); [reflexivity|].
  apply ToLower_pretty_N_go.
Qed.

Lemma tablePrefix_form (t i : string) (n : N) :
  ToLower (prefixFormat t i n) =
  "dolt_" +:+ ToLower t +:+ "_" +:+ ToLower i +:+ "_" +:+ pretty n.
Proof.
  unfold prefixFormat. rewrite !ToLower_append, ToLower_pretty. reflexivity.
Qed.

Lemma fulltext_format (r suf : string) :
  suf ∈ ["_fts_config"; "_fts_position"; "_fts_doc_count"; "_fts_global_count";
         "_fts_row_count"] ->
  model.IsFullTextTable (("dolt_" +:+ r) +:+ suf) = true.
Proof.
  intros Hsuf. unfold model.IsFullTextTable.
  apply andb_true_iff. split; [reflexivity|].
  repeat (apply elem_of_cons in Hsuf as [-> | Hsuf];
          [rewrite HasSuffix_app, ?orb_true_r; reflexivity|]).
  inversion Hsuf.
Qed.

(** C9: there is a least counter value [n] for which no table name of the
    working root starts, up to letter case, with
    [dolt_<parent-table>_<parent-index>_<n>]; when [n] fits the 64-bit
    counter the call returns, as soon as it is given more than [n]
    iterations, and leaves the session unchanged; the table prefix is the
    lowered text for that [n]; the position, doc-count, global-count and
    row-count names are the prefix followed by [_fts_position],
    [_fts_doc_count], [_fts_global_count], [_fts_row_count], the config
    name is [dolt_<parent-table>_fts_config], and all five have the
    full-text auxiliary format. *)
Theorem CreateFulltextTableNames_least_free
  (db : Database) (parentTableName parentIndexName : string) (w : World)
  (st : DbState) :
  dbStates (session w) !! RevisionQualifiedName db = Some st ->
  exists n : N,
    let allTableNames := GetTableNames (DbState_WorkingRoot st) in
    let tablePrefix := ToLower (prefixFormat parentTableName parentIndexName n) in
    let result := namesWith parentTableName tablePrefix in
    prefixTaken allTableNames tablePrefix = false /\
    (forall m, (m < n)%N ->
       prefixTaken allTableNames
         (ToLower (prefixFormat parentTableName parentIndexName m)) = true) /\
    ((n < 2 ^ 64)%N ->
     forall steps, N.to_nat n < steps ->
       CreateFulltextTableNames steps db parentTableName parentIndexName w =
         (Ok (Some result), w)) /\
    tablePrefix =
      "dolt_" +:+ ToLower parentTableName +:+ "_" +:+ ToLower parentIndexName
      +:+ "_" +:+ pretty n /\
    Forall (fun s => model.IsFullTextTable s = true)
      [Config result; Position result; DocCount result; GlobalCount result;
       RowCount result].
Proof.
  intros Hst.
  destruct (least_exists
              (fun n => prefixTaken (GetTableNames (DbState_WorkingRoot st))
                          (ToLower (prefixFormat parentTableName parentIndexName n)))
              (untaken_exists _ _ _)) as (n & Hfree & Hleast).
  exists n. cbv zeta. split; [exact Hfree|]. split; [exact Hleast|].
  split; [|split].
  - intros Hfit steps Hsteps.
    unfold CreateFulltextTableNames, GetAllTableNames, bind.
    rewrite (GetRoot_state _ _ _ Hst). cbn [ret].
    pose proof (OuterLoop_reaches (GetTableNames (DbState_WorkingRoot st))
                  parentTableName parentIndexName (N.to_nat n) 0 steps) as Hloop.
    rewrite N2Nat.id, N.add_0_l in Hloop.
    rewrite Hloop; [reflexivity | exact Hfit | | exact Hfree | exact Hsteps].
    intros m Hm. apply Hleast. lia.
  - apply tablePrefix_form.
  - rewrite tablePrefix_form. unfold namesWith. cbn [Config Position DocCount GlobalCount RowCount].
    rewrite <- (append_assoc "dolt_" parentTableName "_fts_config").
    repeat (apply Forall_cons; split;
            [apply fulltext_format;
             repeat first [apply list_elem_of_here | apply list_elem_of_further]|]).
    apply Forall_nil. exact I.
Qed.

End Fulltext.

Lemma CreateFulltextTableNames_least_free_witness :
  dbStates (session fixtures.worldFts) !! RevisionQualifiedName fixtures.db0 =
    Some fixtures.stateFts /\
  CreateFulltextTableNames 2 fixtures.db0 "Vals" "idx" fixtures.worldFts =
    (Ok (Some {| Config := "dolt_Vals_fts_config";
                 Position := "dolt_vals_idx_1_fts_position";
                 DocCount := "dolt_vals_idx_1_fts_doc_count";
                 GlobalCount := "dolt_vals_idx_1_fts_global_count";
                 RowCount := "dolt_vals_idx_1_fts_row_count" |}),
     fixtures.worldFts).
Proof.
  split; [reflexivity|].
  destruct (CreateFulltextTableNames_least_free fixtures.db0 "Vals" "idx"
              fixtures.worldFts fixtures.stateFts eq_refl)
    as (n & Hfree & Hleast & Hrun & _).
  assert (Hn : n = 1%N).
  { destruct (N.lt_trichotomy n 1) as [Hlt | [Heq | Hgt]]; [| exact Heq |].
    - assert (n = 0%N) by lia. subst n. vm_compute in Hfree. discriminate Hfree.
    - specialize (Hleast 1%N Hgt). vm_compute in Hleast. discriminate Hleast. }
  subst n. rewrite (Hrun eq_refl 2); [vm_compute; reflexivity | cbn; lia].
Defined.

(** ** Creating and dropping the first view or trigger *)

Section SchemaFragments.
Context {doltdbNames : Names} {diffTables : dtables.DiffTables}
        {constructors : Constructors}.
Variable db : Database.

(** The schemas table is a writable, not read-only, system table, and its
    schema has no auto-increment column. *)
Hypothesis schemas_not_read_only : IsReadOnlySystemTable SchemasTableName = false.
Hypothesis schemas_dolt_prefix : HasDoltPrefix SchemasTableName = true.
Hypothesis schemas_not_fulltext : IsFullTextTable SchemasTableName = false.
Hypothesis schemas_no_auto_increment : HasAutoIncrement SchemaTableSchema = false.

Lemma sees_GetRoot (w : World) (r : RootValue) :
  sees db w r -> GetRoot db w = (Ok r, w).
Proof.
  intros (st & ws & Hst & Hws & Hr & _).
  rewrite (GetRoot_state _ _ _ Hst). unfold DbState_WorkingRoot.
  rewrite Hws, Hr. reflexivity.
Qed.

Lemma sees_access (w : World) (r : RootValue) :
  sees db w r -> CheckAccessForDb (RevisionQualifiedName db) w = (Ok tt, w).
Proof.
  intros (st & ws & _ & _ & _ & _ & _ & Ha). apply CheckAccessForDb_allowed, Ha.
Qed.

Lemma sees_SetRoot (w : World) (r r' : RootValue) :
  sees db w r -> exists w', SetRoot db r' w = (Ok tt, w') /\ sees db w' r'.
Proof.
  intros (st & ws & Hst & Hws & Hr & Hcache & Htmp & Ha).
  unfold SetRoot, dsess.SetRoot. rewrite Hst, Hws.
  eexists. split; [reflexivity|].
  eexists _, _. cbn. rewrite lookup_insert_eq.
  split; [reflexivity|]. split; [reflexivity|]. split; [reflexivity|].
  split; [|split; [exact Htmp | exact Ha]].
  cbn. intros key m tbl Hm. apply map_lookup_filter_Some in Hm as [Hm _].
  exact (Hcache key m tbl Hm).
Qed.

Lemma schemas_adapter (t : Table) :
  adapter SchemasTableName t =
  Writable {| tableName := SchemasTableName; sch := GetSchema t; table := t |}.
Proof.
  unfold adapter.
  rewrite schemas_not_read_only, schemas_dolt_prefix, schemas_not_fulltext.
  reflexivity.
Qed.

Lemma getTableInsensitive_schemas (root : RootValue) (w : World) :
  getTableInsensitive db None root SchemasTableName w =
  getTable db root SchemasTableName w.
Proof. reflexivity. Qed.

Lemma CacheTable_state (name : string) (key : N) (tableName : string)
  (tbl : SqlTable) (w : World) (st : DbState) :
  dbStates (session w) !! name = Some st ->
  CacheTable name key tableName tbl w =
    (Ok tt,
     set_session (set_dbStates
       (<[name := {| headCommit := headCommit st; headRoot := headRoot st;
                     workingSet := workingSet st;
                     sessionCache :=
                       <[key := <[tableName := tbl]>
                                  (default ∅ (sessionCache st !! key))]>
                         (sessionCache st) |}]>)) w).
Proof.
  intros Hst. unfold CacheTable, modify, set_session, set_dbStates.
  cbv beta. rewrite Hst. reflexivity.
Qed.

Lemma GetTableNameInsensitive_None (x : string) (names : list string) :
  sql.GetTableNameInsensitive x names = None -> x ∉ names.
Proof.
  intros Hnone Hin. rewrite (GetTableNameInsensitive_exact _ _ Hin) in Hnone.
  discriminate.
Qed.

(** Resolving the schemas table when the root has it. *)
Lemma GetTableInsensitive_schemas_present (w : World) (r : RootValue) (t : Table) :
  sees db w r -> tables r !! SchemasTableName = Some t ->
  exists d w',
    GetTableInsensitive db SchemasTableName w = (Ok (Some (Writable d)), w') /\
    tableName d = SchemasTableName /\ sees db w' r.
Proof.
  intros Hsees Ht.
  pose proof (sees_GetRoot _ _ Hsees) as Hroot.
  destruct Hsees as (st & ws & Hst & Hws & Hr & Hcache & Htmp & Ha).
  unfold GetTableInsensitive, bind, get. rewrite Htmp.
  fold (bind (GetRoot db) (fun root => getTableInsensitive db None root SchemasTableName)).
  unfold bind. rewrite Hroot, getTableInsensitive_schemas.
  unfold getTable, bind, LookupDbState. rewrite Hst.
  destruct (GetCachedTable st (NewDataCacheKey r) SchemasTableName)
    as [cached |] eqn:Hc.
  - unfold GetCachedTable in Hc.
    destruct (sessionCache st !! NewDataCacheKey r) as [m |] eqn:Hm; [|discriminate].
    destruct (Hcache _ _ _ Hm Hc) as (d & -> & Hd).
    exists d, w. split; [reflexivity|]. split; [exact Hd|].
    exists st, ws. auto 10.
  - rewrite GetTableNameInsensitive_exact
      by (apply GetTableNames_elem; eexists; exact Ht).
    unfold GetTable. rewrite Ht, schemas_adapter.
    rewrite (CacheTable_state _ _ _ _ _ _ Hst). cbn [ret].
    eexists _, _. split; [reflexivity|]. split; [reflexivity|].
    eexists _, ws. cbn [session set_session set_dbStates dbStates].
    rewrite lookup_insert_eq.
    split; [reflexivity|]. split; [exact Hws|]. split; [exact Hr|].
    split; [|split; [exact Htmp | exact Ha]].
    cbn [sessionCache]. intros key m tbl Hm Htbl.
    destruct (decide (NewDataCacheKey r = key)) as [<- | Hne].
    + rewrite lookup_insert_eq in Hm. injection Hm as <-.
      rewrite lookup_insert_eq in Htbl. injection Htbl as <-.
      eexists. split; reflexivity.
    + rewrite lookup_insert_ne in Hm by exact Hne. exact (Hcache key m tbl Hm Htbl).
Qed.

(** Resolving the schemas table when neither the root nor the cache has
    it. *)
Lemma GetTableInsensitive_schemas_absent (w : World) (r : RootValue) :
  sees db w r ->
  sql.GetTableNameInsensitive SchemasTableName (GetTableNames r) = None ->
  (forall st, dbStates (session w) !! RevisionQualifiedName db = Some st ->
     GetCachedTable st (NewDataCacheKey r) SchemasTableName = None) ->
  GetTableInsensitive db SchemasTableName w = (Ok None, w).
Proof.
  intros Hsees Hnames Hmiss.
  pose proof (sees_GetRoot _ _ Hsees) as Hroot.
  destruct Hsees as (st & ws & Hst & Hws & Hr & Hcache & Htmp & Ha).
  unfold GetTableInsensitive, bind, get. rewrite Htmp.
  fold (bind (GetRoot db) (fun root => getTableInsensitive db None root SchemasTableName)).
  unfold bind. rewrite Hroot, getTableInsensitive_schemas.
  unfold getTable, bind, LookupDbState. rewrite Hst, (Hmiss st Hst), Hnames.
  reflexivity.
Qed.

Lemma DoltTable_schemas (w : World) (r : RootValue) (t : Table) (d : DoltTable) :
  sees db w r -> tableName d = SchemasTableName ->
  tables r !! SchemasTableName = Some t ->
  DoltTable_DoltTable db d w = (Ok t, w).
Proof.
  intros Hsees Hd Ht. unfold DoltTable_DoltTable, bind.
  rewrite (sees_GetRoot _ _ Hsees), Hd. unfold GetTable. rewrite Ht. reflexivity.
Qed.

Lemma fragFromSchemasTable_schemas (w : World) (r : RootValue) (t : Table)
  (d : DoltTable) (fragType name : string) :
  sees db w r -> tableName d = SchemasTableName ->
  tables r !! SchemasTableName = Some t ->
  fragFromSchemasTable db d fragType name w =
    (Ok (List.find (isFragment fragType name) (GetRowData t)), w).
Proof.
  intros Hsees Hd Ht. unfold fragFromSchemasTable, bind.
  rewrite (DoltTable_schemas _ _ _ _ Hsees Hd Ht). reflexivity.
Qed.

Lemma Insert_schemas (w : World) (r : RootValue) (t : Table) (d : DoltTable)
  (row : Row) :
  sees db w r -> tableName d = SchemasTableName ->
  tables r !! SchemasTableName = Some t ->
  exists w',
    Insert db d row w = (Ok tt, w') /\
    sees db w' (PutTable r SchemasTableName (with_rows t (GetRowData t ++ [row]))).
Proof.
  intros Hsees Hd Ht. unfold Insert, bind.
  rewrite (sees_GetRoot _ _ Hsees), Hd. unfold GetTable. rewrite Ht.
  apply (sees_SetRoot _ _ _ Hsees).
Qed.

Lemma Delete_schemas (w : World) (r : RootValue) (t : Table) (d : DoltTable)
  (row : Row) :
  sees db w r -> tableName d = SchemasTableName ->
  tables r !! SchemasTableName = Some t ->
  exists w',
    Delete db d row w = (Ok tt, w') /\
    sees db w' (PutTable r SchemasTableName
               (with_rows t (List.filter (fun x => negb (bool_decide (x = row)))
                                         (GetRowData t)))).
Proof.
  intros Hsees Hd Ht. unfold Delete, bind.
  rewrite (sees_GetRoot _ _ Hsees), Hd. unfold GetTable. rewrite Ht.
  apply (sees_SetRoot _ _ _ Hsees).
Qed.

Lemma GetWorkingSet_some (w : World) (st : DbState) (ws : doltdb.WorkingSet) :
  dbStates (session w) !! RevisionQualifiedName db = Some st ->
  workingSet st = Some ws ->
  GetWorkingSet db w = (Ok ws, w).
Proof.
  intros Hst Hws. unfold GetWorkingSet, bind, LookupDbState.
  rewrite Hst, Hws. reflexivity.
Qed.

Lemma dropTable_schemas (w : World) (r : RootValue) (t : Table) :
  sees db w r -> tables r !! SchemasTableName = Some t ->
  HasAutoIncrement (GetSchema t) = false ->
  exists w',
    dropTable db SchemasTableName w = (Ok tt, w') /\
    sees db w' (RemoveTables r SchemasTableName).
Proof.
  intros Hsees Ht Hauto.
  destruct Hsees as (st & ws & Hst & Hws & Hr & Hcache & Htmp & Ha).
  unfold dropTable, bind, get. rewrite Htmp.
  fold (bind (GetWorkingSet db)
          (fun ws => let root := WorkingRoot ws in
             match GetTable root SchemasTableName with
             | None => fail (ErrTableNotFound SchemasTableName)
             | Some tbl =>
                 let newRoot := RemoveTables root SchemasTableName in
                 let sch := GetSchema tbl in
                 bind (if HasAutoIncrement sch
                       then removeTableFromAutoIncrementTracker db SchemasTableName
                              (ddb db) (Ref ws)
                       else ret tt)
                      (fun _ => SetRoot db newRoot)
             end)).
  unfold bind. rewrite (GetWorkingSet_some _ _ _ Hst Hws).
  cbv zeta. rewrite Hr. unfold GetTable. rewrite Ht, Hauto. cbn [ret].
  apply (sees_SetRoot w r). exists st, ws. auto 10.
Qed.

Lemma dropTableIfEmpty_schemas (w : World) (r : RootValue) (t : Table) :
  sees db w r -> tables r !! SchemasTableName = Some t ->
  (GetRowData t = [] -> HasAutoIncrement (GetSchema t) = false) ->
  exists w',
    dropTableIfEmpty db SchemasTableName w = (Ok tt, w') /\
    sees db w' (if Nat.eqb (List.length (GetRowData t)) 0
             then RemoveTables r SchemasTableName else r).
Proof.
  intros Hsees Ht Hauto.
  destruct (GetTableInsensitive_schemas_present _ _ _ Hsees Ht)
    as (d & w1 & Hget & Hd & Hsees1).
  unfold dropTableIfEmpty, bind. rewrite Hget. cbn [asWritableDoltTable ret].
  rewrite (DoltTable_schemas _ _ _ _ Hsees1 Hd Ht).
  destruct (Nat.eqb (List.length (GetRowData t)) 0) eqn:Hlen.
  - apply (dropTable_schemas _ _ _ Hsees1 Ht). apply Hauto.
    apply Nat.eqb_eq in Hlen. destruct (GetRowData t); [reflexivity | discriminate].
  - exists w1. split; [reflexivity | exact Hsees1].
Qed.

Lemma getOrCreate_present (w : World) (r : RootValue) (t : Table) :
  sees db w r -> tables r !! SchemasTableName = Some t ->
  exists d w',
    getOrCreateDoltSchemasTable db w = (Ok d, w') /\
    tableName d = SchemasTableName /\ sees db w' r.
Proof.
  intros Hsees Ht.
  destruct (GetTableInsensitive_schemas_present _ _ _ Hsees Ht)
    as (d & w1 & Hget & Hd & Hsees1).
  unfold getOrCreateDoltSchemasTable, bind. rewrite Hget.
  exists d, w1. split; [reflexivity|]. split; assumption.
Qed.

Lemma getOrCreate_absent (w : World) (r : RootValue) :
  sees db w r ->
  sql.GetTableNameInsensitive SchemasTableName (GetTableNames r) = None ->
  (forall st, dbStates (session w) !! RevisionQualifiedName db = Some st ->
     GetCachedTable st (NewDataCacheKey r) SchemasTableName = None) ->
  conflictingTbls r SchemasTableName SchemaTableSchema = [] ->
  exists d w',
    getOrCreateDoltSchemasTable db w = (Ok d, w') /\
    tableName d = SchemasTableName /\
    sees db w' (CreateEmptyTable r SchemasTableName SchemaTableSchema).
Proof.
  intros Hsees Hnames Hmiss Htags.
  assert (Hnone : tables r !! SchemasTableName = None).
  { apply GetTableNameInsensitive_None in Hnames.
    apply eq_None_not_Some. intros Hsome. apply Hnames, GetTableNames_elem, Hsome. }
  destruct (sees_SetRoot _ _ (CreateEmptyTable r SchemasTableName SchemaTableSchema)
              Hsees) as (w1 & Hset & Hsees1).
  destruct (GetTableInsensitive_schemas_present w1 _
              {| GetSchema := SchemaTableSchema; GetRowData := []; AutoIncVal := 1 |}
              Hsees1) as (d & w2 & Hget & Hd & Hsees2).
  { cbn. apply lookup_insert_eq. }
  unfold getOrCreateDoltSchemasTable, bind.
  rewrite (GetTableInsensitive_schemas_absent _ _ Hsees Hnames Hmiss).
  rewrite (sees_GetRoot _ _ Hsees).
  unfold createDoltTable.
  rewrite (proj2 (HasTable_false _ _) Hnone), Htags, Hset, Hget.
  exists d, w2. split; [reflexivity|]. split; assumption.
Qed.

Lemma addFrag_steps (w w1 : World) (r r1 : RootValue) (t1 : Table) (d : DoltTable)
  (fragType name definition : string) (created : gotime.Time)
  (existingErr : error) :
  sees db w r ->
  getOrCreateDoltSchemasTable db w = (Ok d, w1) ->
  tableName d = SchemasTableName -> sees db w1 r1 ->
  tables r1 !! SchemasTableName = Some t1 ->
  List.find (isFragment fragType name) (GetRowData t1) = None ->
  exists w' mode,
    addFragToSchemasTable db fragType name definition created existingErr w =
      (Ok tt, w') /\
    sees db w' (PutTable r1 SchemasTableName
               (with_rows t1 (GetRowData t1 ++
                  [fragmentRow fragType name definition
                     (gotime.Time_Unix created) mode]))).
Proof.
  intros Hsees Hgoc Hd Hsees1 Ht1 Hfind.
  destruct (Insert_schemas w1 r1 t1 d
              (fragmentRow fragType name definition (gotime.Time_Unix created)
                 (sqlMode (session w1)))
              Hsees1 Hd Ht1) as (w2 & Hins & Hsees2).
  exists w2, (sqlMode (session w1)). split; [|exact Hsees2].
  unfold addFragToSchemasTable, bind.
  rewrite (sees_access _ _ Hsees), Hgoc.
  rewrite (fragFromSchemasTable_schemas _ _ _ _ _ _ Hsees1 Hd Ht1), Hfind.
  unfold get. exact Hins.
Qed.

Lemma dropFrag_steps (w : World) (r : RootValue) (t : Table)
  (fragType name : string) (missingErr : error) (row : Row) :
  sees db w r -> tables r !! SchemasTableName = Some t ->
  List.find (isFragment fragType name) (GetRowData t) = Some row ->
  (List.filter (fun x => negb (bool_decide (x = row))) (GetRowData t) = [] ->
   HasAutoIncrement (GetSchema t) = false) ->
  let rows' := List.filter (fun x => negb (bool_decide (x = row))) (GetRowData t) in
  let r1 := PutTable r SchemasTableName (with_rows t rows') in
  exists w',
    dropFragFromSchemasTable db fragType name missingErr w = (Ok tt, w') /\
    sees db w' (if Nat.eqb (List.length rows') 0
             then RemoveTables r1 SchemasTableName else r1).
Proof.
  intros Hsees Ht Hfind Hauto rows' r1.
  destruct (GetTableInsensitive_schemas_present _ _ _ Hsees Ht)
    as (d & w1 & Hget & Hd & Hsees1).
  destruct (Delete_schemas w1 r t d row Hsees1 Hd Ht) as (w2 & Hdel & Hsees2).
  destruct (dropTableIfEmpty_schemas w2 r1 (with_rows t rows') Hsees2)
    as (w3 & Hdrop & Hsees3).
  { cbn. apply lookup_insert_eq. }
  { exact Hauto. }
  exists w3. split; [|exact Hsees3].
  unfold dropFragFromSchemasTable, bind.
  rewrite (sees_access _ _ Hsees), Hget. cbn [asWritableDoltTable ret].
  rewrite (fragFromSchemasTable_schemas _ _ _ _ _ _ Hsees1 Hd Ht), Hfind.
  fold rows' in Hdel. rewrite Hdel. exact Hdrop.
Qed.

Lemma isFragment_row (fragType name definition : string) (created : Z)
  (mode : string) :
  ToLower fragType = fragType ->
  isFragment fragType name (fragmentRow fragType name definition created mode) = true.
Proof.
  intros Hl. cbn. rewrite Hl, !String.eqb_refl. reflexivity.
Qed.

Lemma find_snoc {A} (f : A -> bool) (l : list A) (x : A) :
  List.find f l = None -> f x = true -> List.find f (l ++ [x]) = Some x.
Proof.
  intros Hnone Hx. induction l as [| a l IH]; cbn in *; [rewrite Hx; reflexivity|].
  destruct (f a); [discriminate | exact (IH Hnone)].
Qed.

Lemma filter_snoc (f : Row -> bool) (rows : list Row) (row : Row) :
  List.find f rows = None -> f row = true ->
  List.filter (fun x => negb (bool_decide (x = row))) (rows ++ [row]) = rows.
Proof.
  intros Hnone Hrow. induction rows as [| a rows IH]; cbn in *.
  - rewrite bool_decide_eq_true_2 by reflexivity. reflexivity.
  - destruct (f a) eqn:Ha; [discriminate|].
    rewrite bool_decide_eq_false_2 by congruence. cbn. f_equal. exact (IH Hnone).
Qed.

Lemma with_rows_same (t : Table) : with_rows t (GetRowData t) = t.
Proof. destruct t. reflexivity. Qed.

(** Adding the table, filling and emptying it, and removing it again
    gives back a root that did not have it. *)
Lemma root_restored_absent (r : RootValue) (n : string) (t1 t2 t3 : Table) :
  tables r !! n = None ->
  RemoveTables (PutTable (PutTable (PutTable r n t1) n t2) n t3) n = r.
Proof.
  intros Hnone. destruct r as [m c]. unfold RemoveTables, PutTable. cbn in *.
  f_equal. rewrite !insert_insert_eq. apply delete_insert_id. exact Hnone.
Qed.

Lemma root_restored_present (r : RootValue) (n : string) (t t' : Table) :
  tables r !! n = Some t ->
  PutTable (PutTable r n t') n t = r.
Proof.
  intros Hsome. destruct r as [m c]. unfold PutTable. cbn in *.
  f_equal. rewrite insert_insert_eq. apply insert_id. exact Hsome.
Qed.

Lemma fragment_round_trip (w : World) (r : RootValue)
  (fragType name definition : string) (created : gotime.Time) (e1 e2 : error) :
  ToLower fragType = fragType ->
  sees db w r -> first_fragment db w r fragType name ->
  exists w1 w2,
    addFragToSchemasTable db fragType name definition created e1 w = (Ok tt, w1) /\
    dropFragFromSchemasTable db fragType name e2 w1 = (Ok tt, w2) /\
    GetRoot db w2 = (Ok r, w2).
Proof.
  intros Hl Hsees [(Hnames & Hmiss & Htags) | (t & Ht & Hrows & Hfind)].
  - assert (Hnone : tables r !! SchemasTableName = None).
    { apply GetTableNameInsensitive_None in Hnames.
      apply eq_None_not_Some. intros Hs. apply Hnames, GetTableNames_elem, Hs. }
    destruct (getOrCreate_absent _ _ Hsees Hnames Hmiss Htags)
      as (d & w0 & Hgoc & Hd & Hsees0).
    set (t0 := {| GetSchema := SchemaTableSchema; GetRowData := []; AutoIncVal := 1 |}).
    destruct (addFrag_steps w w0 r _ t0 d fragType name definition created e1
                Hsees Hgoc Hd Hsees0) as (w1 & mode & Hadd & Hsees1);
      [apply lookup_insert_eq | reflexivity |].
    set (row := fragmentRow fragType name definition
                  (gotime.Time_Unix created) mode) in *.
    destruct (dropFrag_steps w1 _ (with_rows t0 ([] ++ [row])) fragType name e2 row
                Hsees1) as (w2 & Hdrop & Hsees2).
    { cbn. apply lookup_insert_eq. }
    { cbn [with_rows GetRowData app List.find]. unfold row.
      rewrite isFragment_row by exact Hl. reflexivity. }
    { intros _. exact schemas_no_auto_increment. }
    exists w1, w2. split; [exact Hadd|]. split; [exact Hdrop|].
    rewrite (sees_GetRoot _ _ Hsees2). f_equal. f_equal.
    cbn [with_rows GetRowData app List.filter].
    rewrite bool_decide_eq_true_2 by reflexivity. cbn [negb List.length Nat.eqb].
    apply (root_restored_absent r SchemasTableName). exact Hnone.
  - destruct (getOrCreate_present _ _ _ Hsees Ht) as (d & w0 & Hgoc & Hd & Hsees0).
    destruct (addFrag_steps w w0 r r t d fragType name definition created e1
                Hsees Hgoc Hd Hsees0 Ht Hfind) as (w1 & mode & Hadd & Hsees1).
    set (row := fragmentRow fragType name definition
                  (gotime.Time_Unix created) mode) in *.
    assert (Hrow : isFragment fragType name row = true)
      by (apply isFragment_row; exact Hl).
    destruct (dropFrag_steps w1 _ (with_rows t (GetRowData t ++ [row])) fragType
                name e2 row Hsees1) as (w2 & Hdrop & Hsees2).
    { cbn. apply lookup_insert_eq. }
    { cbn [with_rows GetRowData]. apply find_snoc; assumption. }
    { cbn [with_rows GetRowData].
      rewrite (filter_snoc _ _ _ Hfind Hrow). intros Hnil. contradiction. }
    exists w1, w2. split; [exact Hadd|]. split; [exact Hdrop|].
    rewrite (sees_GetRoot _ _ Hsees2). f_equal. f_equal.
    cbn [with_rows GetRowData].
    rewrite (filter_snoc _ _ _ Hfind Hrow).
    destruct (GetRowData t) as [| x rows] eqn:Hdata; [contradiction|].
    cbn [List.length Nat.eqb]. rewrite <- Hdata.
    change (with_rows (with_rows t (GetRowData t ++ [row])) (GetRowData t))
      with (with_rows t (GetRowData t)).
    rewrite with_rows_same. apply root_restored_present. exact Ht.
Qed.

Lemma sees_GetAllTableNames (w : World) (r : RootValue) :
  GetRoot db w = (Ok r, w) -> GetAllTableNames db w = (Ok (GetTableNames r), w).
Proof. intros Hr. unfold GetAllTableNames, bind. rewrite Hr. reflexivity. Qed.

Lemma drop_last_fragment (w : World) (r : RootValue) (t : Table) (row : Row)
  (fragType name : string) (missingErr : error) :
  sees db w r -> tables r !! SchemasTableName = Some t ->
  GetRowData t = [row] -> isFragment fragType name row = true ->
  HasAutoIncrement (GetSchema t) = false ->
  exists w',
    dropFragFromSchemasTable db fragType name missingErr w = (Ok tt, w') /\
    GetRoot db w' = (Ok (RemoveTables r SchemasTableName), w').
Proof.
  intros Hsees Ht Hrows Hrow Hauto.
  destruct (dropFrag_steps w r t fragType name missingErr row Hsees Ht)
    as (w' & Hdrop & Hsees').
  { rewrite Hrows. cbn. rewrite Hrow. reflexivity. }
  { intros _. exact Hauto. }
  exists w'. split; [exact Hdrop|].
  rewrite (sees_GetRoot _ _ Hsees'). f_equal. f_equal.
  rewrite Hrows. cbn [List.filter].
  rewrite bool_decide_eq_true_2 by reflexivity. cbn [negb List.length Nat.eqb].
  destruct r as [m c]. unfold RemoveTables, PutTable. cbn. f_equal.
  apply delete_insert_eq.
Qed.

(** X32: the round trip of the first fragment.  The schemas table is a
    writable system table whose schema has no auto-increment column.  The
    session may write, works on a working set, holds no temporary table
    named like the schemas table and has cached nothing but writable
    adapters of the schemas table under that name.  When the working root
    has no schemas table (in no letter case, none cached for this root,
    and the column iteration of its creation reports no tag conflict), or
    has one that holds at least one fragment and none of the type and name
    about to be created, creating a view and dropping it succeed and leave
    the working root, hence the list of table names, exactly as it was;
    the same for a trigger; and dropping the only fragment of a schemas
    table removes the table from the working root. *)
Theorem first_fragment_round_trip
  (w : World) (r : RootValue) (viewName selectStatement createViewStmt : string)
  (trigger : TriggerDefinition) :
  sees db w r ->
  GetAllTableNames db w = (Ok (GetTableNames r), w) /\
  (first_fragment db w r "view" viewName ->
   exists w1 w2,
     CreateView db viewName selectStatement createViewStmt w = (Ok tt, w1) /\
     DropView db viewName w1 = (Ok tt, w2) /\
     GetRoot db w2 = (Ok r, w2) /\
     GetAllTableNames db w2 = (Ok (GetTableNames r), w2)) /\
  (first_fragment db w r "trigger" (TriggerName trigger) ->
   exists w1 w2,
     CreateTrigger db trigger w = (Ok tt, w1) /\
     DropTrigger db (TriggerName trigger) w1 = (Ok tt, w2) /\
     GetRoot db w2 = (Ok r, w2) /\
     GetAllTableNames db w2 = (Ok (GetTableNames r), w2)) /\
  (forall t row fragType name missingErr,
     tables r !! SchemasTableName = Some t ->
     GetRowData t = [row] -> isFragment fragType name row = true ->
     HasAutoIncrement (GetSchema t) = false ->
     exists w',
       dropFragFromSchemasTable db fragType name missingErr w = (Ok tt, w') /\
       GetRoot db w' = (Ok (RemoveTables r SchemasTableName), w')).
Proof.
  intros Hsees.
  split; [exact (sees_GetAllTableNames _ _ (sees_GetRoot _ _ Hsees))|].
  split; [|split].
  - intros Hfirst. unfold CreateView, DropView.
    destruct (fragment_round_trip w r "view" viewName createViewStmt
                (gotime.Unix 0 0)
                (ErrExistingView (Name db) viewName)
                (ErrViewDoesNotExist (baseName db) viewName) eq_refl Hsees Hfirst)
      as (w1 & w2 & Hadd & Hdrop & Hroot).
    exists w1, w2. auto using sees_GetAllTableNames.
  - intros Hfirst. unfold CreateTrigger, DropTrigger.
    destruct (fragment_round_trip w r "trigger" (TriggerName trigger)
                (CreateStatement trigger) (CreatedAt trigger)
                (ErrTriggerAlreadyExists (TriggerName trigger))
                (ErrTriggerDoesNotExist (TriggerName trigger)) eq_refl Hsees Hfirst)
      as (w1 & w2 & Hadd & Hdrop & Hroot).
    exists w1, w2. auto using sees_GetAllTableNames.
  - intros t row fragType name missingErr. apply drop_last_fragment. exact Hsees.
Qed.

End SchemaFragments.

Lemma sees_world0 : sees fixtures.db0 fixtures.world0 fixtures.root0.
Proof.
  exists fixtures.state0, fixtures.ws0.
  split; [reflexivity|]. split; [reflexivity|]. split; [reflexivity|].
  split; [|split; reflexivity].
  intros key m tbl Hm. cbn in Hm. rewrite lookup_empty in Hm. discriminate Hm.
Qed.

Lemma first_fragment_world0 :
  first_fragment fixtures.db0 fixtures.world0 fixtures.root0 "view" "v".
Proof.
  left. split; [vm_compute; reflexivity|]. split; [|vm_compute; reflexivity].
  intros st Hst. vm_compute in Hst. injection Hst as <-. reflexivity.
Qed.

Lemma first_fragment_round_trip_witness :
  sees fixtures.db0 fixtures.world0 fixtures.root0 /\
  first_fragment fixtures.db0 fixtures.world0 fixtures.root0 "view" "v" /\
  exists w1 w2,
    CreateView fixtures.db0 "v" "SELECT 1" "CREATE VIEW v AS SELECT 1"
      fixtures.world0 = (Ok tt, w1) /\
    DropView fixtures.db0 "v" w1 = (Ok tt, w2) /\
    GetRoot fixtures.db0 w2 = (Ok fixtures.root0, w2) /\
    GetAllTableNames fixtures.db0 w2 = (Ok (GetTableNames fixtures.root0), w2).
Proof.
  split; [exact sees_world0|]. split; [exact first_fragment_world0|].
  exact (proj1 (proj2
           (first_fragment_round_trip fixtures.db0 eq_refl eq_refl eq_refl eq_refl
              fixtures.world0 fixtures.root0 "v" "SELECT 1"
              "CREATE VIEW v AS SELECT 1"
              {| TriggerName := "t"; CreateStatement := ""; CreatedAt := 0%Z |}
              sees_world0))
           first_fragment_world0).
Defined.

(** C4 fails on the code.  A database whose schemas table is empty has
    no view and no trigger, yet creating a view and dropping it removes the
    schemas table from its table names: [dropTableIfEmpty] drops the table
    whenever it is empty after the delete, also when it was there, empty,
    before the create.  The comment in [dropFragFromSchemasTable] gives the
    purpose the code misses here: the drop is there so that creating and
    immediately dropping a view or trigger, when none previously existed,
    does not change the database state.  Such a database arises when the
    rows of the schemas table are deleted through the table editor. *)
Lemma empty_schemas_table_not_restored :
  let w := fixtures.worldEmptySchemas in
  let created :=
    CreateView fixtures.db0 "v" "SELECT 1" "CREATE VIEW v AS SELECT 1" w in
  let dropped := DropView fixtures.db0 "v" created.2 in
  GetRowData <$> tables fixtures.rootEmptySchemas !! SchemasTableName = Some [] /\
  (GetRoot fixtures.db0 w).1 = Ok fixtures.rootEmptySchemas /\
  (GetRoot fixtures.db0 fixtures.worldAfterDelete).1 = Ok fixtures.rootEmptySchemas /\
  created.1 = Ok tt /\
  dropped.1 = Ok tt /\
  (GetAllTableNames fixtures.db0 w).1 = Ok ["vals"; "dolt_schemas"] /\
  (GetAllTableNames fixtures.db0 dropped.2).1 = Ok ["vals"].
Proof.
  cbv zeta.
  split; [|split; [|split; [|split; [|split; [|split]]]]]; vm_compute; reflexivity.
Qed.

(** * Further properties of the commit-diff table *)

Section CommitDiffMore.
Context {doltdbNames : Names} {diffTables : dtables.DiffTables}.

Import dtables.

Lemma nexts_from (ps : list DiffPartition) (n : nat) :
  forall k,
    (nexts n {| partitions := ps; i := k |}).1 =
      (Ok <$> take n (skipn k ps)) ++ replicate (n - (List.length ps - k)) (Err EOF).
Proof.
  induction n as [| n IH]; intros k; [reflexivity|].
  cbn [nexts]. unfold Next. cbn [partitions i].
  destruct (ps !! k) as [p |] eqn:Hk.
  - specialize (IH (S k)).
    destruct (nexts n {| partitions := ps; i := S k |}) as [rs itr2].
    cbn [fst] in *. rewrite IH.
    pose proof (lookup_lt_Some _ _ _ Hk) as Hlt.
    rewrite (drop_S _ _ _ Hk). cbn [take fmap list_fmap].
    replace (S n - (List.length ps - k)) with (n - (List.length ps - S k)) by lia.
    reflexivity.
  - pose proof (lookup_ge_None_1 _ _ Hk) as Hge.
    specialize (IH k).
    destruct (nexts n {| partitions := ps; i := k |}) as [rs itr2].
    cbn [fst] in *. rewrite IH.
    rewrite (drop_ge ps k) by lia. rewrite !take_nil. cbn [fmap list_fmap app].
    replace (List.length ps - k) with 0 by lia. rewrite !Nat.sub_0_r. reflexivity.
Qed.

(** X1: a partition iterator made from a slice hands out the partitions of
    the slice, in their order, one per call of [Next]; every later call
    returns [io.EOF]. *)
Theorem Next_yields_partitions_then_EOF (ps : list DiffPartition) (n : nat) :
  (nexts n (NewSliceOfPartitionsItr ps)).1 =
    (Ok <$> take n ps) ++ replicate (n - List.length ps) (Err EOF).
Proof.
  unfold NewSliceOfPartitionsItr. rewrite nexts_from.
  rewrite drop_0, Nat.sub_0_r. reflexivity.
Qed.

(** X2: on a well-formed lookup whose two commits resolve and whose
    partition is diffable, [LookupPartitions] returns an iterator over that
    one partition: its tables are the ones the two roots hold under the
    table's name (none where a root has no such table), its names are the
    commit names as given and its dates the ones of the commits.  The
    receiver is bound to the two commit names and no warning is added. *)
Theorem LookupPartitions_diffable
  (i : sql.IndexLookup) (st : LookupState) to_ from_ kt kf toC fromC
  toRoot toHash toTime fromRoot fromHash fromTime :
  sql.Ranges i = [[to_; from_]] ->
  keyed (sql.UpperBound to_) kt ->
  keyed (sql.UpperBound from_) kf ->
  sql.Convert (sql.Typ to_) kt = Ok (sql.VString toC) ->
  sql.Convert (sql.Typ from_) kf = Ok (sql.VString fromC) ->
  rootValForHash (dt st) toC = Ok (toRoot, toHash, toTime) ->
  rootValForHash (dt st) fromC = Ok (fromRoot, fromHash, fromTime) ->
  let dp :=
    {| to := fst <$> doltdb.GetTableInsensitive toRoot (name (dt st));
       from := fst <$> doltdb.GetTableInsensitive fromRoot (name (dt st));
       toName := toC; fromName := fromC;
       toDate := toTime; fromDate := fromTime;
       toSch := targetSchema (dt st); fromSch := targetSchema (dt st) |} in
  isDiffablePartition dp = Ok true ->
  LookupPartitions i st =
    (Ok (NewSliceOfPartitionsItr [dp]),
     {| dt := set_fromCommit (set_toCommit (dt st) toC) fromC;
        warnings := warnings st |}) /\
  (nexts 2 (NewSliceOfPartitionsItr [dp])).1 = [Ok dp; Err EOF].
Proof.
  intros Hr Hkt Hkf Hct Hcf Hto Hfrom dp Hdiff.
  pose proof (rootValForHash_name _ _ _ _ _ Hto) as ->.
  pose proof (rootValForHash_name _ _ _ _ _ Hfrom) as ->.
  split; [|reflexivity].
  unfold LookupPartitions. rewrite Hr.
  rewrite (keyed_shape _ _ Hkt), (keyed_shape _ _ Hkf). cbn [negb].
  unfold bind, lift, set_dt, modify, get.
  rewrite (keyed_key _ _ Hkt), Hct. cbn.
  rewrite (keyed_key _ _ Hkf), Hcf. cbn.
  rewrite !rootValForHash_receiver, Hto, Hfrom. cbn.
  fold dp. rewrite Hdiff. reflexivity.
Qed.

(** X3: [LookupPartitions] reads the type and the upper bound of each
    column range and nothing else: two lookups that agree on those, column
    by column, have the same outcome, whatever their lower bounds are. *)
Theorem LookupPartitions_reads_upper_bounds
  (i i' : sql.IndexLookup) (st : LookupState) :
  Forall2 (Forall2 same_upper) (sql.Ranges i) (sql.Ranges i') ->
  LookupPartitions i st = LookupPartitions i' st.
Proof.
  intros H. unfold LookupPartitions.
  destruct H as [| r r' rs rs' Hr Hrs]; [reflexivity|].
  destruct Hrs as [| ? ? ? ? _ _];
    [|destruct Hr as [| ? ? ? ? _ [| ? ? ? ? _ [| ? ? ? ? _ _]]]; reflexivity].
  destruct Hr as [| to_ to' cs cs' [Hub Hty] Hcs]; [reflexivity|].
  destruct Hcs as [| from_ from' ds ds' [Hub' Hty'] Hds]; [reflexivity|].
  destruct Hds as [| ? ? ? ? _ _]; [|reflexivity].
  rewrite Hub, Hty, Hub', Hty'. reflexivity.
Qed.

(** X4: whatever the lookup, [LookupPartitions] leaves the table's name,
    database, schemas and working root as they were.  A failed call adds
    no warning; a successful one returns a fresh iterator that holds
    either one partition, and then no warning was added, or none, and
    then exactly one warning was added. *)
Theorem LookupPartitions_frame (i : sql.IndexLookup) (st : LookupState) :
  let out := LookupPartitions i st in
  name (dt out.2) = name (dt st) /\
  ddb (dt out.2) = ddb (dt st) /\
  sqlSch (dt out.2) = sqlSch (dt st) /\
  workingRoot (dt out.2) = workingRoot (dt st) /\
  targetSchema (dt out.2) = targetSchema (dt st) /\
  match out.1 with
  | Err _ => warnings out.2 = warnings st
  | Ok itr =>
      dtables.i itr = 0 /\
      ((List.length (partitions itr) = 1 /\ warnings out.2 = warnings st) \/
       (partitions itr = [] /\ exists w, warnings out.2 = warnings st ++ [w]))
  end.
Proof.
  unfold LookupPartitions.
  destruct (sql.Ranges i) as [| [| to_ [| from_ [| x r]]] [| r' rs]];
    try (cbn; tauto).
  destruct (is_above_or_below (sql.UpperBound to_)); [|cbn; tauto].
  destruct (is_above_or_below (sql.UpperBound from_)); [|cbn; tauto].
  cbn [negb]. unfold bind, lift, set_dt, modify, get.
  destruct (sql.GetRangeCutKey (sql.UpperBound to_)) as [kt | e]; [|cbn; tauto].
  destruct (sql.Convert (sql.Typ to_) kt) as [tv | e]; [|cbn; tauto].
  destruct tv as [toC | z | ]; try (cbn; tauto). cbn [as_string].
  destruct (sql.GetRangeCutKey (sql.UpperBound from_)) as [kf | e]; [|cbn; tauto].
  destruct (sql.Convert (sql.Typ from_) kf) as [fv | e]; [|cbn; tauto].
  destruct fv as [fromC | z | ]; try (cbn; tauto). cbn [as_string].
  cbn [dt]. rewrite !rootValForHash_receiver.
  cbn [toCommit fromCommit set_toCommit set_fromCommit].
  destruct (rootValForHash (dt st) toC) as [[[toRoot toHash] toTime] | e];
    [|cbn; tauto].
  destruct (rootValForHash (dt st) fromC) as [[[fromRoot fromHash] fromTime] | e];
    [|cbn; tauto].
  match goal with
  | |- context [isDiffablePartition ?dp] =>
      destruct (isDiffablePartition dp) as [[|] | e]
  end; cbn; repeat (split; [reflexivity|]).
  - left. split; reflexivity.
  - right. split; [reflexivity|]. eexists. reflexivity.
  - reflexivity.
Qed.

(** X5: when [rootValForHash] succeeds, the name it reports is the commit
    name as it was given; for the name [working], in any letter case, the
    root is the working root of the table and there is no commit date;
    for every other name the root and the date are those of the commit
    the database resolves the name to. *)
Theorem rootValForHash_sound (t : CommitDiffTable) (h : string) root n time :
  rootValForHash t h = Ok (root, n, time) ->
  n = h /\
  if String.eqb (ToLower h) "working"
  then root = workingRoot t /\ time = None
  else exists cs cm meta,
         NewCommitSpec h = Ok cs /\ Resolve (ddb t) cs None = Ok cm /\
         GetRootValue cm = Ok root /\ GetCommitMeta cm = Ok meta /\
         time = Some (Time meta).
Proof.
  intros H. split; [exact (rootValForHash_name _ _ _ _ _ H)|].
  unfold rootValForHash in H.
  destruct (String.eqb (ToLower h) "working").
  - inversion H. split; reflexivity.
  - destruct (NewCommitSpec h) as [cs |] eqn:Hcs; [|discriminate].
    destruct (Resolve (ddb t) cs None) as [cm |] eqn:Hcm; [|discriminate].
    destruct (GetRootValue cm) as [r |] eqn:Hroot; [|discriminate].
    destruct (GetCommitMeta cm) as [meta |] eqn:Hmeta; [|discriminate].
    inversion H; subst. exists cs, cm, meta. repeat split; assumption.
Qed.

End CommitDiffMore.

Lemma LookupPartitions_diffable_witness :
  let dp :=
    {| dtables.to := Some fixtures.vals; dtables.from := None;
       dtables.toName := "WORKING"; dtables.fromName := "c100";
       dtables.toDate := None; dtables.fromDate := Some 100%Z;
       dtables.toSch := GetSchema fixtures.vals;
       dtables.fromSch := GetSchema fixtures.vals |} in
  dtables.isDiffablePartition dp = Ok true /\
  dtables.LookupPartitions fixtures.workingSinceC100 fixtures.lookup0 =
    (Ok (dtables.NewSliceOfPartitionsItr [dp]),
     {| dtables.dt :=
          dtables.set_fromCommit
            (dtables.set_toCommit fixtures.commitDiffVals "WORKING") "c100";
        dtables.warnings := [] |}).
Proof.
  intros dp. split; [reflexivity|].
  assert (Hto : dtables.rootValForHash (dtables.dt fixtures.lookup0) "WORKING" =
                Ok (fixtures.root0, "WORKING", None)) by reflexivity.
  assert (Hfrom : dtables.rootValForHash (dtables.dt fixtures.lookup0) "c100" =
                  Ok (fixtures.emptyRoot, "c100", Some 100%Z)) by reflexivity.
  assert (Hdiff : dtables.isDiffablePartition dp = Ok true) by reflexivity.
  exact (proj1 (LookupPartitions_diffable fixtures.workingSinceC100 fixtures.lookup0
           (fixtures.equalTo "WORKING") (fixtures.equalTo "c100")
           (sql.VString "WORKING") (sql.VString "c100") "WORKING" "c100"
           fixtures.root0 "WORKING" None fixtures.emptyRoot "c100" (Some 100%Z)
           eq_refl (or_introl eq_refl) (or_introl eq_refl) eq_refl eq_refl
           Hto Hfrom Hdiff)).
Defined.

Lemma LookupPartitions_reads_upper_bounds_witness :
  Forall2 (Forall2 same_upper) (sql.Ranges fixtures.bothAtMost)
          (sql.Ranges fixtures.bothCommits) /\
  dtables.LookupPartitions fixtures.bothAtMost fixtures.lookup0 =
    dtables.LookupPartitions fixtures.bothCommits fixtures.lookup0.
Proof.
  assert (H : Forall2 (Forall2 same_upper) (sql.Ranges fixtures.bothAtMost)
                      (sql.Ranges fixtures.bothCommits)).
  { repeat constructor. }
  split; [exact H|].
  exact (LookupPartitions_reads_upper_bounds fixtures.bothAtMost fixtures.bothCommits
           fixtures.lookup0 H).
Defined.

Lemma rootValForHash_sound_witness :
  dtables.rootValForHash fixtures.commitDiffVals "Working" =
    Ok (fixtures.root0, "Working", None) /\
  "Working" = "Working" /\ fixtures.root0 = fixtures.root0 /\ @None Z = None.
Proof.
  assert (H : dtables.rootValForHash fixtures.commitDiffVals "Working" =
              Ok (fixtures.root0, "Working", None)) by reflexivity.
  split; [exact H|].
  pose proof (rootValForHash_sound fixtures.commitDiffVals "Working"
                fixtures.root0 "Working" None H) as [Hn Hw].
  split; [exact Hn|]. exact Hw.
Defined.

(** * Further properties of name resolution *)

Section NameResolution.
Context {doltdbNames : Names} {diffTables : dtables.DiffTables}
        {constructors : Constructors}.

Lemma filter_loop (acc l : list string) :
  foldl (fun result tbl =>
           if negb (HasDoltPrefix tbl) then result ++ [tbl] else result) acc l =
  acc ++ userTables l.
Proof.
  revert acc. induction l as [| x l IH]; intros acc; cbn.
  - rewrite app_nil_r. reflexivity.
  - rewrite IH. destruct (HasDoltPrefix x); cbn; [reflexivity|].
    rewrite <- app_assoc. reflexivity.
Qed.

Lemma elem_of_userTables (names : list string) (n : string) :
  n ∈ userTables names <-> n ∈ names /\ HasDoltPrefix n = false.
Proof.
  unfold userTables. rewrite !list_elem_of_In, filter_In, negb_true_iff.
  reflexivity.
Qed.

Lemma userTables_sublist (names : list string) : sublist (userTables names) names.
Proof.
  induction names as [| x l IH]; cbn; [constructor|].
  destruct (HasDoltPrefix x); cbn; constructor; exact IH.
Qed.

(** X6: [GetTableNames] lists the user tables: the names of
    [GetAllTableNames] that do not carry the reserved prefix, each once per
    occurrence and in the same order; it fails exactly when
    [GetAllTableNames] does, and never writes to the session. *)
Theorem GetTableNames_user_tables (db : Database) (w : World) :
  (facade.GetTableNames db w).2 = w /\
  match (facade.GetTableNames db w).1, (GetAllTableNames db w).1 with
  | Ok names, Ok all =>
      names = facade.filterDoltInternalTables all /\
      names = userTables all /\
      (forall n, n ∈ names <-> n ∈ all /\ HasDoltPrefix n = false) /\
      sublist names all
  | Err e, Err e' => e = e'
  | _, _ => False
  end.
Proof.
  unfold facade.GetTableNames, GetAllTableNames, GetRoot, LookupDbState, bind.
  destruct (dbStates (session w) !! RevisionQualifiedName db) as [st |]; cbn.
  - split; [reflexivity|].
    unfold facade.filterDoltInternalTables. rewrite filter_loop. cbn.
    split; [reflexivity|]. split; [reflexivity|].
    split; [apply elem_of_userTables | apply userTables_sublist].
  - split; reflexivity.
Qed.

Lemma GetTableNameInsensitive_Some_elem (x cn : string) (names : list string) :
  sql.GetTableNameInsensitive x names = Some cn -> cn ∈ names.
Proof.
  unfold sql.GetTableNameInsensitive. intros H. apply list_elem_of_In.
  destruct (List.find (String.eqb x) names) eqn:E.
  - inversion H; subst. exact (proj1 (find_some _ _ E)).
  - exact (proj1 (find_some _ _ H)).
Qed.

(** The state of a database after [getTable] cached [tbl] under [cn]. *)
Lemma getTable_cases (db : Database) (root : RootValue) (n : string) (w : World)
  (st : DbState) :
  dbStates (session w) !! RevisionQualifiedName db = Some st ->
  getTable db root n w =
    match GetCachedTable st (NewDataCacheKey root) n with
    | Some cached => (Ok (Some cached), w)
    | None =>
        match sql.GetTableNameInsensitive n (doltdb.GetTableNames root) with
        | None => (Ok None, w)
        | Some cn =>
            match tables root !! cn with
            | None => (Err (ErrTableNotFound cn), w)
            | Some tbl =>
                (Ok (Some (adapter cn tbl)),
                 set_session (set_dbStates
                   (<[RevisionQualifiedName db :=
                        {| headCommit := headCommit st; headRoot := headRoot st;
                           workingSet := workingSet st;
                           sessionCache :=
                             <[NewDataCacheKey root :=
                                 <[cn := adapter cn tbl]>
                                   (default ∅ (sessionCache st !! NewDataCacheKey root))]>
                               (sessionCache st) |}]>)) w)
            end
        end
    end.
Proof.
  intros Hst. unfold getTable, bind, LookupDbState. rewrite Hst.
  destruct (GetCachedTable st (NewDataCacheKey root) n); [reflexivity|].
  destruct (sql.GetTableNameInsensitive n (doltdb.GetTableNames root)) as [cn |];
    [|reflexivity].
  unfold GetTable. destruct (tables root !! cn) as [tbl |]; [|reflexivity].
  rewrite (CacheTable_state _ _ _ _ _ _ Hst). reflexivity.
Qed.




End NameResolution.


(** ** The reflective tables *)

Section ReflectiveTables.
Context {doltdbNames : Names} {diffTables : dtables.DiffTables}
        {constructors : Constructors}.

(** Two prefixes of one string are prefixes of one another. *)
Lemma HasPrefix_comparable (s p q : string) :
  HasPrefix s p = true -> HasPrefix s q = true ->
  HasPrefix p q = true \/ HasPrefix q p = true.
Proof.
  revert s q. induction p as [| a p IH]; intros s q Hp Hq.
  - right. destruct q; reflexivity.
  - destruct q as [| b q]; [left; reflexivity|].
    destruct s as [| c s]; [discriminate Hp|].
    cbn in Hp, Hq |- *.
    destruct (Ascii.eqb a c) eqn:Hac; [|discriminate Hp].
    destruct (Ascii.eqb b c) eqn:Hbc; [|discriminate Hq].
    apply Ascii.eqb_eq in Hac, Hbc. subst.
    rewrite Ascii.eqb_refl. exact (IH _ _ Hp Hq).
Qed.

Lemma HasPrefix_exclusive (s p q : string) :
  HasPrefix s p = true -> HasPrefix p q = false -> HasPrefix q p = false ->
  HasPrefix s q = false.
Proof.
  intros Hp Hpq Hqp. destruct (HasPrefix s q) eqn:Hq; [|reflexivity].
  destruct (HasPrefix_comparable _ _ _ Hp Hq); congruence.
Qed.

Lemma length_drop (k : nat) (s : string) :
  String.length (drop k s) = String.length s - k.
Proof.
  revert s. induction k as [| k IH]; intros s; cbn.
  - lia.
  - destruct s; cbn; [reflexivity | apply IH].
Qed.

Lemma getTableInsensitive_rec_unfold (d : nat) (db : Database) head root n :
  getTableInsensitive_rec d db head root n =
  getTableInsensitive_body
    (match d with
     | O => fun _ => fail (Panic "unreachable")
     | S d' => getTableInsensitive_rec d' db head root
     end) db head root n.
Proof. destruct d; reflexivity. Qed.

(** The body calls itself on the rest of a conflicts name only. *)
Lemma getTableInsensitive_body_ext
  (self1 self2 : string -> M World (option SqlTable)) (db : Database) head root n :
  (HasPrefix (ToLower n) DoltConfTablePrefix = true ->
   forall w, self1 (drop (String.length DoltConfTablePrefix) n) w =
             self2 (drop (String.length DoltConfTablePrefix) n) w) ->
  forall w, getTableInsensitive_body self1 db head root n w =
            getTableInsensitive_body self2 db head root n w.
Proof.
  intros H w. unfold getTableInsensitive_body.
  destruct (HasPrefix (ToLower n) DoltDiffTablePrefix); [reflexivity|].
  destruct (HasPrefix (ToLower n) DoltCommitDiffTablePrefix); [reflexivity|].
  destruct (HasPrefix (ToLower n) DoltHistoryTablePrefix); [reflexivity|].
  destruct (HasPrefix (ToLower n) DoltConfTablePrefix); [|reflexivity].
  unfold bind. rewrite (H eq_refl). reflexivity.
Qed.

Lemma getTableInsensitive_rec_depth (db : Database) head root (m : nat) :
  forall n d1 d2,
    String.length n <= m -> String.length n <= d1 -> String.length n <= d2 ->
    forall w, getTableInsensitive_rec d1 db head root n w =
              getTableInsensitive_rec d2 db head root n w.
Proof.
  induction m as [| m IH]; intros n d1 d2 Hm H1 H2 w;
    rewrite !getTableInsensitive_rec_unfold;
    apply getTableInsensitive_body_ext; intros Hp w';
    pose proof (HasPrefix_length _ _ Hp) as Hlen;
    rewrite length_ToLower in Hlen; cbn in Hlen.
  - lia.
  - destruct d1 as [| d1]; [lia|]. destruct d2 as [| d2]; [lia|].
    apply IH; rewrite length_drop; cbn; lia.
Qed.

Lemma getTableInsensitive_upto_unfold bottom (d : nat) (db : Database) head root n :
  getTableInsensitive_upto bottom d db head root n =
  getTableInsensitive_body
    (match d with
     | O => bottom
     | S d' => getTableInsensitive_upto bottom d' db head root
     end) db head root n.
Proof. destruct d; reflexivity. Qed.

(** Within a depth of the length of the name the answer given where the
    depth runs out is never asked for. *)
Lemma getTableInsensitive_upto_depth (db : Database) head root (m : nat) :
  forall n d1 d2 bottom1 bottom2,
    String.length n <= m -> String.length n <= d1 -> String.length n <= d2 ->
    forall w, getTableInsensitive_upto bottom1 d1 db head root n w =
              getTableInsensitive_upto bottom2 d2 db head root n w.
Proof.
  induction m as [| m IH]; intros n d1 d2 bottom1 bottom2 Hm H1 H2 w;
    rewrite !getTableInsensitive_upto_unfold;
    apply getTableInsensitive_body_ext; intros Hp w';
    pose proof (HasPrefix_length _ _ Hp) as Hlen;
    rewrite length_ToLower in Hlen; cbn in Hlen.
  - lia.
  - destruct d1 as [| d1]; [lia|]. destruct d2 as [| d2]; [lia|].
    apply IH; rewrite length_drop; cbn; lia.
Qed.

Lemma getTableInsensitive_rec_upto (db : Database) head root (d : nat) :
  forall n w,
    getTableInsensitive_rec d db head root n w =
    getTableInsensitive_upto (fun _ => fail (Panic "unreachable")) d db head root n w.
Proof.
  induction d as [| d IH]; intros n w;
    rewrite getTableInsensitive_rec_unfold, getTableInsensitive_upto_unfold;
    apply getTableInsensitive_body_ext; intros _ w'; [reflexivity | apply IH].
Qed.

(** X9: the recursion of [getTableInsensitive] on the rest of a
    [dolt_conflicts_] name always ends.  Run to a depth of the length of
    the name or more, the recursion never reaches the point where the depth
    runs out: whatever is answered there, the result and the session are
    those of [getTableInsensitive].  In particular every larger depth
    gives the same answer and the same session. *)
Theorem getTableInsensitive_depth
  (db : Database) head root (n : string) (k : nat) (w : World) :
  (forall bottom,
     getTableInsensitive_upto bottom (String.length n + k) db head root n w =
     getTableInsensitive db head root n w) /\
  getTableInsensitive_rec (String.length n + k) db head root n w =
  getTableInsensitive db head root n w.
Proof.
  assert (Hany : forall bottom,
            getTableInsensitive_upto bottom (String.length n + k) db head root n w =
            getTableInsensitive db head root n w).
  { intros bottom. unfold getTableInsensitive.
    rewrite getTableInsensitive_rec_upto.
    apply (getTableInsensitive_upto_depth db head root (String.length n)); lia. }
  split; [exact Hany|].
  rewrite getTableInsensitive_rec_upto. apply Hany.
Qed.

(** X10: what the reflective tables of a table that does not exist resolve
    to.  For a name with the commit-diff prefix the lookup fails with
    table-not-found, naming the commit-diff table; for a name with the
    history prefix, and for a name with the conflicts prefix over a name
    outside the [dolt_] namespace, the lookup reports no table and no
    error.  In each case the session is left as it was. *)
Theorem reflective_tables_of_a_missing_table
  (db : Database) head root (tblName : string) (w : World) (st : DbState) :
  dbStates (session w) !! RevisionQualifiedName db = Some st ->
  (HasPrefix (ToLower tblName) DoltCommitDiffTablePrefix = true ->
   let base := drop (String.length DoltCommitDiffTablePrefix) tblName in
   sql.GetTableNameInsensitive base (doltdb.GetTableNames root) = None ->
   getTableInsensitive db head root tblName w =
     (Err (ErrTableNotFound (DoltCommitDiffTablePrefix +:+ base)), w)) /\
  (HasPrefix (ToLower tblName) DoltHistoryTablePrefix = true ->
   let base := drop (String.length DoltHistoryTablePrefix) tblName in
   sql.GetTableNameInsensitive base (doltdb.GetTableNames root) = None ->
   GetCachedTable st (NewDataCacheKey root) base = None ->
   getTableInsensitive db head root tblName w = (Ok None, w)) /\
  (HasPrefix (ToLower tblName) DoltConfTablePrefix = true ->
   let base := drop (String.length DoltConfTablePrefix) tblName in
   HasPrefix (ToLower base) "dolt_" = false ->
   sql.GetTableNameInsensitive base (doltdb.GetTableNames root) = None ->
   GetCachedTable st (NewDataCacheKey root) base = None ->
   getTableInsensitive db head root tblName w = (Ok None, w)).
Proof.
  intros Hst. unfold getTableInsensitive.
  rewrite getTableInsensitive_rec_unfold. unfold getTableInsensitive_body.
  cbv zeta. split; [|split].
  - intros Hp Hbase.
    rewrite (HasPrefix_exclusive _ _ DoltDiffTablePrefix Hp eq_refl eq_refl), Hp.
    unfold bind, lift, dtables.NewCommitDiffTable, doltdb.GetTableInsensitive.
    rewrite Hbase. reflexivity.
  - intros Hp Hbase Hcache.
    rewrite (HasPrefix_exclusive _ _ DoltDiffTablePrefix Hp eq_refl eq_refl),
      (HasPrefix_exclusive _ _ DoltCommitDiffTablePrefix Hp eq_refl eq_refl), Hp.
    unfold bind.
    rewrite (getTable_cases _ _ _ _ _ Hst), Hcache, Hbase. reflexivity.
  - intros Hp Hnd Hbase Hcache.
    rewrite (HasPrefix_exclusive _ _ DoltDiffTablePrefix Hp eq_refl eq_refl),
      (HasPrefix_exclusive _ _ DoltCommitDiffTablePrefix Hp eq_refl eq_refl),
      (HasPrefix_exclusive _ _ DoltHistoryTablePrefix Hp eq_refl eq_refl), Hp.
    unfold bind.
    pose proof (HasPrefix_length _ _ Hp) as Hlen.
    rewrite length_ToLower in Hlen. cbn in Hlen.
    destruct (String.length tblName) as [| d]; [lia|].
    rewrite (getTableInsensitive_not_dolt d db head root _ w Hnd).
    rewrite (getTable_cases _ _ _ _ _ Hst), Hcache, Hbase. reflexivity.
Qed.

(** X11: the exact-name reflective tables hide whatever the root stores
    under their names.  A name that is, up to letter case, one of the ten
    tables that need nothing from the session resolves to that reflective
    table in every session and for every root.  A name of one of the three
    tables built from the head commit resolves to it when a head commit is
    given or the session has a state for the database, and fails with the
    no-state error otherwise.  The session is not written to. *)
Theorem exact_name_tables_hide_stored_ones
  (db : Database) root (n : string) (k : ExactKind) (w : World) :
  ((ToLower n, k) ∈ alwaysAvailable ->
   forall head,
     getTableInsensitive db head root n w = (Ok (Some (Exact k)), w)) /\
  ((ToLower n, k) ∈ builtFromHead ->
   (forall h, getTableInsensitive db (Some h) root n w = (Ok (Some (Exact k)), w)) /\
   getTableInsensitive db None root n w =
     match dbStates (session w) !! RevisionQualifiedName db with
     | Some _ => (Ok (Some (Exact k)), w)
     | None => (Err (ErrNoStateForDatabase (RevisionQualifiedName db)), w)
     end).
Proof.
  assert (Hstep : forall head,
            getTableInsensitive db head root n w =
            getTableInsensitive_body
              (match String.length n with
               | O => fun _ => fail (Panic "unreachable")
               | S d' => getTableInsensitive_rec d' db head root
               end) db head root n w).
  { intros head. unfold getTableInsensitive.
    rewrite getTableInsensitive_rec_unfold. reflexivity. }
  split; intros Hin.
  - intros head. unfold alwaysAvailable in Hin.
    repeat (apply elem_of_cons in Hin as [Hin | Hin];
            [injection Hin as Hn ->; rewrite (Hstep head);
             unfold getTableInsensitive_body; rewrite Hn; reflexivity|]).
    inversion Hin.
  - unfold builtFromHead in Hin.
    repeat (apply elem_of_cons in Hin as [Hin | Hin];
            [injection Hin as Hn ->; split;
             [intros h; rewrite (Hstep (Some h));
              unfold getTableInsensitive_body; rewrite Hn; reflexivity|];
             rewrite (Hstep None);
             unfold getTableInsensitive_body; rewrite Hn;
             cbn; unfold bind, headOrSession, GetHeadCommit;
             destruct (dbStates (session w) !! RevisionQualifiedName db);
             reflexivity|]).
    inversion Hin.
Qed.

End ReflectiveTables.

Lemma reflective_tables_of_a_missing_table_witness :
  dbStates (session fixtures.world0) !! RevisionQualifiedName fixtures.db0 =
    Some fixtures.state0 /\
  getTableInsensitive fixtures.db0 None fixtures.root0 "DOLT_COMMIT_DIFF_nope"
    fixtures.world0 =
    (Err (ErrTableNotFound "dolt_commit_diff_nope"), fixtures.world0) /\
  getTableInsensitive fixtures.db0 None fixtures.root0 "dolt_history_nope"
    fixtures.world0 = (Ok None, fixtures.world0) /\
  getTableInsensitive fixtures.db0 None fixtures.root0 "dolt_conflicts_nope"
    fixtures.world0 = (Ok None, fixtures.world0).
Proof.
  assert (Hst : dbStates (session fixtures.world0)
                  !! RevisionQualifiedName fixtures.db0 = Some fixtures.state0)
    by reflexivity.
  split; [exact Hst|].
  pose proof (reflective_tables_of_a_missing_table fixtures.db0 None fixtures.root0
                "DOLT_COMMIT_DIFF_nope" fixtures.world0 fixtures.state0 Hst)
    as [Hcd _].
  pose proof (reflective_tables_of_a_missing_table fixtures.db0 None fixtures.root0
                "dolt_history_nope" fixtures.world0 fixtures.state0 Hst)
    as [_ [Hh _]].
  pose proof (reflective_tables_of_a_missing_table fixtures.db0 None fixtures.root0
                "dolt_conflicts_nope" fixtures.world0 fixtures.state0 Hst)
    as [_ [_ Hc]].
  split; [exact (Hcd eq_refl eq_refl)|].
  split; [exact (Hh eq_refl eq_refl eq_refl)|].
  exact (Hc eq_refl eq_refl eq_refl eq_refl).
Defined.

Lemma exact_name_tables_hide_stored_ones_witness :
  (ToLower "Dolt_Branches", BranchesTable) ∈ alwaysAvailable /\
  getTableInsensitive fixtures.db0 None fixtures.root0 "Dolt_Branches"
    fixtures.world0 = (Ok (Some (Exact BranchesTable)), fixtures.world0).
Proof.
  assert (Hin : (ToLower "Dolt_Branches", BranchesTable) ∈ alwaysAvailable).
  { unfold alwaysAvailable.
    repeat first [apply list_elem_of_here | apply list_elem_of_further]. }
  split; [exact Hin|].
  exact (proj1 (exact_name_tables_hide_stored_ones fixtures.db0 fixtures.root0
                  "Dolt_Branches" BranchesTable fixtures.world0) Hin None).
Defined.

(** * Further properties of creating, dropping and renaming tables *)

Section TableLifecycle.
Context {doltdbNames : Names} {diffTables : dtables.DiffTables}
        {constructors : Constructors}.

Lemma SetRoot_state (db : Database) (r : RootValue) (w : World) st ws :
  dbStates (session w) !! RevisionQualifiedName db = Some st ->
  workingSet st = Some ws ->
  SetRoot db r w = (Ok tt, rooted db st ws r w).
Proof.
  intros Hst Hws. unfold SetRoot, dsess.SetRoot. rewrite Hst, Hws. reflexivity.
Qed.

Lemma rooted_GetRoot (db : Database) st ws r w :
  GetRoot db (rooted db st ws r w) = (Ok r, rooted db st ws r w).
Proof.
  unfold GetRoot, bind, LookupDbState, rooted. cbn.
  rewrite lookup_insert_eq. reflexivity.
Qed.

Lemma dropTable_cases (db : Database) (n : string) (w : World) :
  dropTable db n w =
    match GetTemporaryTable w (Name db) n with
    | Some _ => DropTemporaryTable (Name db) n w
    | None =>
        match dbStates (session w) !! RevisionQualifiedName db with
        | None => (Err ErrNoRootValueInSession, w)
        | Some st =>
            match workingSet st with
            | None => (Err ErrOperationNotSupportedInDetachedHead, w)
            | Some ws =>
                match tables (WorkingRoot ws) !! n with
                | None => (Err (ErrTableNotFound n), w)
                | Some tbl =>
                    if HasAutoIncrement (GetSchema tbl) then
                      match GetBranches (ddb db) with
                      | Err e => (Err e, w)
                      | Ok branches =>
                          match otherWorkingSets (ddb db) (Ref ws) branches with
                          | Err e => (Err e, w)
                          | Ok wses =>
                              SetRoot db (RemoveTables (WorkingRoot ws) n)
                                (TrackerDropTable n wses w).2
                          end
                      end
                    else SetRoot db (RemoveTables (WorkingRoot ws) n) w
                end
            end
        end
    end.
Proof.
  unfold dropTable, bind, get.
  destruct (GetTemporaryTable w (Name db) n); [reflexivity|].
  unfold GetWorkingSet, bind, LookupDbState.
  destruct (dbStates (session w) !! RevisionQualifiedName db) as [st |];
    [|reflexivity].
  destruct (workingSet st) as [ws |]; [|reflexivity].
  cbn [ret]. unfold GetTable.
  destruct (tables (WorkingRoot ws) !! n) as [tbl |]; [|reflexivity].
  destruct (HasAutoIncrement (GetSchema tbl)); [|reflexivity].
  unfold removeTableFromAutoIncrementTracker, bind, lift.
  destruct (GetBranches (ddb db)) as [branches |]; [|reflexivity].
  destruct (otherWorkingSets (ddb db) (Ref ws) branches); reflexivity.
Qed.

(** X12: what [DropTable] does to a persisted table, for a session that
    may write, a name that is not a non-alterable system table and that no
    temporary table carries.  On a detached head it fails with the
    detached-head error; when the working root has no table of exactly
    that name (the comparison is case-sensitive) it fails with
    table-not-found; in both cases nothing is written.  Otherwise, for a
    table without an auto-increment column, it succeeds: the new working
    root is the old one without that table, every other table is kept,
    and the temporary tables and the auto-increment tracker are left as
    they were. *)
Theorem DropTable_outcomes (db : Database) (n : string) (w : World) (st : DbState) :
  writeAllowed (session w) (RevisionQualifiedName db) = true ->
  IsNonAlterableSystemTable n = false ->
  GetTemporaryTable w (Name db) n = None ->
  dbStates (session w) !! RevisionQualifiedName db = Some st ->
  match workingSet st with
  | None => DropTable db n w = (Err ErrOperationNotSupportedInDetachedHead, w)
  | Some ws =>
      match tables (WorkingRoot ws) !! n with
      | None => DropTable db n w = (Err (ErrTableNotFound n), w)
      | Some tbl =>
          HasAutoIncrement (GetSchema tbl) = false ->
          exists w' r',
            DropTable db n w = (Ok tt, w') /\
            GetRoot db w' = (Ok r', w') /\
            tables r' !! n = None /\
            (forall m, m <> n -> tables r' !! m = tables (WorkingRoot ws) !! m) /\
            collation r' = collation (WorkingRoot ws) /\
            tempTables (session w') = tempTables (session w) /\
            autoIncrement w' = autoIncrement w
      end
  end.
Proof.
  intros Ha Hsys Htmp Hst.
  unfold DropTable, bind. rewrite (CheckAccessForDb_allowed _ _ Ha), Hsys.
  rewrite dropTable_cases, Htmp, Hst.
  destruct (workingSet st) as [ws |] eqn:Hws; [|reflexivity].
  destruct (tables (WorkingRoot ws) !! n) as [tbl |] eqn:Htbl; [|reflexivity].
  intros ->. rewrite (SetRoot_state _ _ _ _ _ Hst Hws).
  eexists _, _. split; [reflexivity|]. split; [apply rooted_GetRoot|].
  cbn. split; [apply lookup_delete_eq|].
  split; [intros m Hm; apply lookup_delete_ne; congruence|].
  repeat split.
Qed.

(** X13: dropping a table that has an auto-increment column, under the
    conditions of X12.  The branches of the database are listed and the
    working sets of the other branches resolved; a failure of either step
    aborts the drop and leaves the session and the tracker as they were.
    Otherwise the table is removed from the working root and the tracker
    entry of the table becomes the largest auto-increment value the table
    has in the working sets of the other branches, or 1 when none of them
    has it. *)
Theorem DropTable_auto_increment
  (db : Database) (n : string) (w : World) (st : DbState) ws tbl :
  writeAllowed (session w) (RevisionQualifiedName db) = true ->
  IsNonAlterableSystemTable n = false ->
  GetTemporaryTable w (Name db) n = None ->
  dbStates (session w) !! RevisionQualifiedName db = Some st ->
  workingSet st = Some ws ->
  tables (WorkingRoot ws) !! n = Some tbl ->
  HasAutoIncrement (GetSchema tbl) = true ->
  match GetBranches (ddb db) with
  | Err e => DropTable db n w = (Err e, w)
  | Ok branches =>
      match otherWorkingSets (ddb db) (Ref ws) branches with
      | Err e => DropTable db n w = (Err e, w)
      | Ok wses =>
          exists w',
            DropTable db n w = (Ok tt, w') /\
            GetRoot db w' = (Ok (RemoveTables (WorkingRoot ws) n), w') /\
            autoIncrement w' !! n =
              Some (foldr N.max 1%N
                      (omap (fun ws' => AutoIncVal <$> tables (WorkingRoot ws') !! n)
                            wses)) /\
            (forall m, m <> n -> autoIncrement w' !! m = autoIncrement w !! m)
      end
  end.
Proof.
  intros Ha Hsys Htmp Hst Hws Htbl Hauto.
  unfold DropTable, bind. rewrite (CheckAccessForDb_allowed _ _ Ha), Hsys.
  rewrite dropTable_cases, Htmp, Hst, Hws, Htbl, Hauto.
  destruct (GetBranches (ddb db)) as [branches |]; [|reflexivity].
  destruct (otherWorkingSets (ddb db) (Ref ws) branches) as [wses |];
    [|reflexivity].
  unfold TrackerDropTable, modify. cbn [snd].
  erewrite SetRoot_state; [|exact Hst|exact Hws].
  eexists. split; [reflexivity|]. split; [apply rooted_GetRoot|].
  cbn. split; [apply lookup_insert_eq|].
  intros m Hm. apply lookup_insert_ne. congruence.
Qed.

End TableLifecycle.

Lemma DropTable_outcomes_witness :
  (writeAllowed (session fixtures.worldWithoutTempX)
     (RevisionQualifiedName fixtures.db0) = true /\
   IsNonAlterableSystemTable "x" = false /\
   GetTemporaryTable fixtures.worldWithoutTempX (Name fixtures.db0) "x" = None) /\
  exists w' r',
    DropTable fixtures.db0 "x" fixtures.worldWithoutTempX = (Ok tt, w') /\
    GetRoot fixtures.db0 w' = (Ok r', w') /\
    tables r' !! "x" = None.
Proof.
  assert (Ha : writeAllowed (session fixtures.worldWithoutTempX)
                 (RevisionQualifiedName fixtures.db0) = true) by reflexivity.
  assert (Hsys : IsNonAlterableSystemTable "x" = false) by reflexivity.
  assert (Htmp : GetTemporaryTable fixtures.worldWithoutTempX (Name fixtures.db0)
                   "x" = None) by reflexivity.
  assert (Hst : dbStates (session fixtures.worldWithoutTempX)
                  !! RevisionQualifiedName fixtures.db0 = Some fixtures.stateX)
    by reflexivity.
  split; [repeat split; assumption|].
  destruct (DropTable_outcomes fixtures.db0 "x" fixtures.worldWithoutTempX
              fixtures.stateX Ha Hsys Htmp Hst eq_refl)
    as (w' & r' & Hd & Hr & Hx & _).
  exists w', r'. auto.
Defined.

Lemma DropTable_auto_increment_witness :
  (tables (WorkingRoot fixtures.wsA) !! "t" = Some (fixtures.sequenced 50) /\
   HasAutoIncrement (GetSchema (fixtures.sequenced 50)) = true) /\
  exists w',
    DropTable fixtures.dbA "t" fixtures.worldA = (Ok tt, w') /\
    GetRoot fixtures.dbA w' = (Ok (RemoveTables fixtures.rootA "t"), w') /\
    autoIncrement w' !! "t" = Some 80%N.
Proof.
  assert (Ha : writeAllowed (session fixtures.worldA)
                 (RevisionQualifiedName fixtures.dbA) = true) by reflexivity.
  assert (Hsys : IsNonAlterableSystemTable "t" = false) by reflexivity.
  assert (Htmp : GetTemporaryTable fixtures.worldA (Name fixtures.dbA) "t" = None)
    by reflexivity.
  assert (Hst : dbStates (session fixtures.worldA)
                  !! RevisionQualifiedName fixtures.dbA = Some fixtures.stateA)
    by reflexivity.
  assert (Htbl : tables (WorkingRoot fixtures.wsA) !! "t" =
                 Some (fixtures.sequenced 50)) by reflexivity.
  assert (Hauto : HasAutoIncrement (GetSchema (fixtures.sequenced 50)) = true)
    by reflexivity.
  split; [split; assumption|].
  pose proof (DropTable_auto_increment fixtures.dbA "t" fixtures.worldA
                fixtures.stateA fixtures.wsA (fixtures.sequenced 50)
                Ha Hsys Htmp Hst eq_refl Htbl Hauto) as H.
  hnf in H. destruct H as (w' & Hd & Hr & Hn & _).
  exists w'. split; [exact Hd|]. split; [exact Hr|]. exact Hn.
Defined.

Section CreateAndDrop.
Context {doltdbNames : Names} {diffTables : dtables.DiffTables}
        {constructors : Constructors}.

Lemma find_filter_negb {A} (f : A -> bool) (l : list A) :
  List.find f (List.filter (fun x => negb (f x)) l) = None.
Proof.
  induction l as [| x l IH]; cbn; [reflexivity|].
  destruct (f x) eqn:Hx; cbn; [exact IH|]. rewrite Hx. exact IH.
Qed.

Lemma find_filter_kept {A} (f g : A -> bool) (l : list A) :
  (forall x, f x = true -> g x = true) ->
  List.find f (List.filter g l) = List.find f l.
Proof.
  intros H. induction l as [| x l IH]; cbn; [reflexivity|].
  destruct (g x) eqn:Hg; cbn.
  - destruct (f x); [reflexivity | exact IH].
  - destruct (f x) eqn:Hf; [|exact IH]. rewrite (H _ Hf) in Hg. discriminate.
Qed.

Lemma temp_named_other (n m : string) (t : TempTable) :
  ToLower m <> ToLower n -> temp_named m t = true -> negb (temp_named n t) = true.
Proof.
  unfold temp_named. intros Hne Hm. apply String.eqb_eq in Hm.
  apply negb_true_iff, String.eqb_neq. congruence.
Qed.

Lemma DropTemporaryTable_spec (dbName n : string) (w : World) :
  exists w',
    DropTemporaryTable dbName n w = (Ok tt, w') /\
    dbStates (session w') = dbStates (session w) /\
    autoIncrement w' = autoIncrement w /\
    GetTemporaryTable w' dbName n = None /\
    (forall m, ToLower m <> ToLower n ->
       GetTemporaryTable w' dbName m = GetTemporaryTable w dbName m) /\
    (forall other, other <> dbName ->
       tempTables (session w') !! other = tempTables (session w) !! other).
Proof.
  eexists. split; [reflexivity|]. cbn.
  split; [reflexivity|]. split; [reflexivity|].
  unfold GetTemporaryTable. cbn. rewrite !lookup_insert_eq.
  split; [apply find_filter_negb|]. split.
  - intros m Hm.
    rewrite (find_filter_kept _ _ _ (fun t => temp_named_other n m t Hm)).
    destruct (tempTables (session w) !! dbName); reflexivity.
  - intros other Hother. apply lookup_insert_ne. congruence.
Qed.

(** X14: a temporary table is dropped before any persisted one.  When the
    session holds a temporary table under the name (up to letter case),
    [DropTable] removes the temporary tables of that name and nothing
    else: the states of the databases, hence their roots, the
    auto-increment tracker, the temporary tables of other names and those
    of other databases are left as they were.  No working set is needed. *)
Theorem DropTable_temporary_first
  (db : Database) (n : string) (w : World) (tmp : TempTable) :
  writeAllowed (session w) (RevisionQualifiedName db) = true ->
  IsNonAlterableSystemTable n = false ->
  GetTemporaryTable w (Name db) n = Some tmp ->
  exists w',
    DropTable db n w = (Ok tt, w') /\
    dbStates (session w') = dbStates (session w) /\
    autoIncrement w' = autoIncrement w /\
    GetTemporaryTable w' (Name db) n = None /\
    (forall m, ToLower m <> ToLower n ->
       GetTemporaryTable w' (Name db) m = GetTemporaryTable w (Name db) m) /\
    (forall other, other <> Name db ->
       tempTables (session w') !! other = tempTables (session w) !! other).
Proof.
  intros Ha Hsys Htmp.
  unfold DropTable, bind. rewrite (CheckAccessForDb_allowed _ _ Ha), Hsys.
  rewrite dropTable_cases, Htmp.
  apply DropTemporaryTable_spec.
Qed.

Lemma createSqlTable_cases (db : Database) (n : string)
  (sch : sql.PrimaryKeySchema) (coll : N) (w : World) :
  createSqlTable db n sch coll w =
    match dbStates (session w) !! RevisionQualifiedName db with
    | None => (Err ErrNoRootValueInSession, w)
    | Some st =>
        match workingSet st with
        | None => (Err ErrOperationNotSupportedInDetachedHead, w)
        | Some ws =>
            if HasTable (WorkingRoot ws) n then (Err (ErrTableAlreadyExists n), w)
            else
              match GetRootValue (headCommit st) with
              | Err e => (Err e, w)
              | Ok headRoot =>
                  match ToDoltSchema (WorkingRoot ws) n sch headRoot coll with
                  | Err e => (Err e, w)
                  | Ok doltSch =>
                      if IsUsingSpatialColAsKey doltSch
                      then (Err (ErrUsingSpatialKey n), w)
                      else
                        let w0 := if HasAutoIncrement doltSch
                                  then (AddNewTable n w).2 else w in
                        match conflictingTbls (WorkingRoot ws) n doltSch with
                        | [] =>
                            (Ok tt,
                             rooted db st ws
                               (CreateEmptyTable (WorkingRoot ws) n doltSch) w0)
                        | (_ :: _) as lines => (Err (ErrTagsPrevUsed lines), w0)
                        end
                  end
              end
        end
    end.
Proof.
  unfold createSqlTable, bind, GetWorkingSet, bind, LookupDbState.
  destruct (dbStates (session w) !! RevisionQualifiedName db) as [st |] eqn:Hst;
    [|reflexivity].
  destruct (workingSet st) as [ws |] eqn:Hws; [|reflexivity].
  cbn [ret]. destruct (HasTable (WorkingRoot ws) n) eqn:Hhas; [reflexivity|].
  unfold GetHeadRoot, bind, GetHeadCommit, lift. rewrite Hst.
  destruct (GetRootValue (headCommit st)) as [headRoot |]; [|reflexivity].
  destruct (ToDoltSchema (WorkingRoot ws) n sch headRoot coll) as [doltSch |];
    [|reflexivity].
  destruct (IsUsingSpatialColAsKey doltSch); [reflexivity|].
  cbv zeta. unfold createDoltTable.
  destruct (HasAutoIncrement doltSch); cbn [AddNewTable modify ret snd];
    rewrite Hhas;
    (destruct (conflictingTbls (WorkingRoot ws) n doltSch); [|reflexivity]);
    erewrite SetRoot_state; try reflexivity; try exact Hws; exact Hst.
Qed.

Lemma CreateTable_inv (db : Database) (n : string) (sch : sql.PrimaryKeySchema)
  (coll : N) (w w' : World) :
  CreateTable db n sch coll w = (Ok tt, w') ->
  exists st ws headRoot doltSch,
    writeAllowed (session w) (RevisionQualifiedName db) = true /\
    IsValidTableName n = true /\
    dbStates (session w) !! RevisionQualifiedName db = Some st /\
    workingSet st = Some ws /\
    HasTable (WorkingRoot ws) n = false /\
    GetRootValue (headCommit st) = Ok headRoot /\
    ToDoltSchema (WorkingRoot ws) n sch headRoot coll = Ok doltSch /\
    IsUsingSpatialColAsKey doltSch = false /\
    conflictingTbls (WorkingRoot ws) n doltSch = [] /\
    w' = rooted db st ws (CreateEmptyTable (WorkingRoot ws) n doltSch)
           (if HasAutoIncrement doltSch then (AddNewTable n w).2 else w).
Proof.
  unfold CreateTable, bind, CheckAccessForDb.
  destruct (writeAllowed (session w) (RevisionQualifiedName db)) eqn:Ha;
    [|discriminate].
  match goal with
  | |- context [if String.eqb (ToLower n) DocTableName then ?a else ?b] =>
      destruct ((if String.eqb (ToLower n) DocTableName then a else b) w)
        as [[[] | e] w0] eqn:Hname
  end; [|discriminate].
  assert (w0 = w) as ->.
  { destruct (String.eqb (ToLower n) DocTableName).
    - destruct (negb (sql.Equals DoltDocsSqlSchema (sql.PkSchema sch))
                && negb (sql.Equals OldDoltDocsSqlSchema (sql.PkSchema sch)));
        inversion Hname; reflexivity.
    - destruct (HasDoltPrefix n && negb (IsFullTextTable n));
        inversion Hname; reflexivity. }
  destruct (IsValidTableName n) eqn:Hvalid; [|discriminate]. cbn [negb].
  rewrite createSqlTable_cases.
  destruct (dbStates (session w) !! RevisionQualifiedName db) as [st |] eqn:Hst;
    [|discriminate].
  destruct (workingSet st) as [ws |] eqn:Hws; [|discriminate].
  destruct (HasTable (WorkingRoot ws) n) eqn:Hhas; [discriminate|].
  destruct (GetRootValue (headCommit st)) as [headRoot |] eqn:Hhead;
    [|discriminate].
  destruct (ToDoltSchema (WorkingRoot ws) n sch headRoot coll) as [doltSch |]
    eqn:Hsch; [|discriminate].
  destruct (IsUsingSpatialColAsKey doltSch) eqn:Hsp; [discriminate|].
  cbv zeta.
  destruct (conflictingTbls (WorkingRoot ws) n doltSch) eqn:Hc; [|discriminate].
  intros [= <-]. exists st, ws, headRoot, doltSch. auto 12.
Qed.

(** X15: when [CreateTable] succeeds, the session worked on a branch (it
    has a working set), the working root had no table of that name, and
    the new working root is the old one plus that table: empty, with the
    schema the conversion gave, which has no spatial key column; the
    column iteration reported no tag conflict, and if the storage answered
    every tag lookup of the iteration then no table of the old root owns a
    tag of the schema.  Every other table and the collation are kept, the
    temporary tables are left as they were, and the auto-increment tracker
    changes only for a schema with an auto-increment column, and then only
    at the name of the table. *)
Theorem CreateTable_success (db : Database) (n : string)
  (sch : sql.PrimaryKeySchema) (coll : N) (w w' : World) :
  CreateTable db n sch coll w = (Ok tt, w') ->
  exists st ws headRoot doltSch r',
    dbStates (session w) !! RevisionQualifiedName db = Some st /\
    workingSet st = Some ws /\
    tables (WorkingRoot ws) !! n = None /\
    ToDoltSchema (WorkingRoot ws) n sch headRoot coll = Ok doltSch /\
    IsUsingSpatialColAsKey doltSch = false /\
    conflictingTbls (WorkingRoot ws) n doltSch = [] /\
    (tags_readable (WorkingRoot ws) doltSch ->
     Forall (fun col => tag_used (WorkingRoot ws) (Tag col) = false) doltSch) /\
    GetRoot db w' = (Ok r', w') /\
    tables r' !! n =
      Some {| GetSchema := doltSch; GetRowData := []; AutoIncVal := 1 |} /\
    (forall m, m <> n -> tables r' !! m = tables (WorkingRoot ws) !! m) /\
    collation r' = collation (WorkingRoot ws) /\
    tempTables (session w') = tempTables (session w) /\
    (forall m, m <> n \/ HasAutoIncrement doltSch = false ->
       autoIncrement w' !! m = autoIncrement w !! m).
Proof.
  intros H.
  apply CreateTable_inv in H
    as (st & ws & headRoot & doltSch & Ha & Hv & Hst & Hws & Hhas & Hhead & Hsch
        & Hsp & Hc & ->).
  exists st, ws, headRoot, doltSch, (CreateEmptyTable (WorkingRoot ws) n doltSch).
  pose proof (proj1 (HasTable_false _ _) Hhas) as Hnone.
  split; [exact Hst|]. split; [exact Hws|]. split; [exact Hnone|].
  split; [exact Hsch|]. split; [exact Hsp|].
  split; [exact Hc|].
  split.
  { intros Hok.
    pose proof (conflictingTbls_tags _ _ doltSch Hnone Hok) as Ht. rewrite Hc in Ht.
    cbn in Ht. symmetry in Ht. apply fmap_nil_inv in Ht.
    apply Forall_forall. intros col Hcol.
    destruct (tag_used (WorkingRoot ws) (Tag col)) eqn:Hu; [|reflexivity].
    assert (Hin : col ∈ List.filter (fun c => tag_used (WorkingRoot ws) (Tag c)) doltSch).
    { apply list_elem_of_In, filter_In. split; [apply list_elem_of_In, Hcol | exact Hu]. }
    rewrite Ht in Hin. inversion Hin. }
  split; [apply rooted_GetRoot|].
  cbn. split; [apply lookup_insert_eq|].
  split; [intros m Hm; apply lookup_insert_ne; congruence|].
  split; [reflexivity|].
  split; [destruct (HasAutoIncrement doltSch); reflexivity|].
  intros m Hm. destruct (HasAutoIncrement doltSch); [|reflexivity].
  destruct Hm as [Hm | Hm]; [|discriminate Hm].
  cbn. destruct (autoIncrement w !! n); [reflexivity|].
  apply lookup_insert_ne. congruence.
Qed.

(** X16: creating a table and dropping it again gives back the working
    root the session started from, for a name that no temporary table
    carries and that is not a non-alterable system table, and a schema
    without an auto-increment column; the temporary tables and the
    auto-increment tracker are as they were. *)
Theorem CreateTable_DropTable_round_trip (db : Database) (n : string)
  (sch : sql.PrimaryKeySchema) (coll : N) (w w1 : World) (r : RootValue) :
  GetRoot db w = (Ok r, w) ->
  CreateTable db n sch coll w = (Ok tt, w1) ->
  GetTemporaryTable w (Name db) n = None ->
  IsNonAlterableSystemTable n = false ->
  (forall root headRoot doltSch,
     ToDoltSchema root n sch headRoot coll = Ok doltSch ->
     HasAutoIncrement doltSch = false) ->
  exists w2,
    DropTable db n w1 = (Ok tt, w2) /\
    GetRoot db w2 = (Ok r, w2) /\
    tempTables (session w2) = tempTables (session w) /\
    autoIncrement w2 = autoIncrement w.
Proof.
  intros Hroot H Htmp Hsys Hauto.
  apply CreateTable_inv in H
    as (st & ws & headRoot & doltSch & Ha & Hv & Hst & Hws & Hhas & Hhead & Hsch
        & Hsp & Hc & ->).
  rewrite (Hauto _ _ _ Hsch).
  rewrite (GetRoot_state _ _ _ Hst) in Hroot.
  unfold DbState_WorkingRoot in Hroot. rewrite Hws in Hroot.
  injection Hroot as Hr.
  set (r1 := CreateEmptyTable (WorkingRoot ws) n doltSch).
  set (w1 := rooted db st ws r1 w).
  assert (Hst1 : exists st1, dbStates (session w1) !! RevisionQualifiedName db = Some st1 /\
                   workingSet st1 = Some (WithWorkingRoot ws r1)).
  { eexists. split; [cbn; apply lookup_insert_eq | reflexivity]. }
  destruct Hst1 as (st1 & Hst1 & Hws1).
  unfold DropTable, bind.
  rewrite (CheckAccessForDb_allowed _ w1 Ha), Hsys.
  rewrite dropTable_cases.
  change (GetTemporaryTable w1 (Name db) n) with (GetTemporaryTable w (Name db) n).
  rewrite Htmp, Hst1, Hws1. cbn [WorkingRoot WithWorkingRoot].
  assert (Hn : tables r1 !! n =
               Some {| GetSchema := doltSch; GetRowData := []; AutoIncVal := 1 |})
    by (cbn; apply lookup_insert_eq).
  rewrite Hn. cbn [GetSchema]. rewrite (Hauto _ _ _ Hsch).
  rewrite (SetRoot_state _ _ _ _ _ Hst1 Hws1).
  eexists. split; [reflexivity|].
  split.
  - rewrite rooted_GetRoot. f_equal. f_equal.
    rewrite <- Hr. unfold RemoveTables, r1, CreateEmptyTable. cbn.
    rewrite delete_insert_id by (apply HasTable_false; exact Hhas).
    destruct (WorkingRoot ws); reflexivity.
  - split; reflexivity.
Qed.

End CreateAndDrop.

Lemma DropTable_temporary_first_witness :
  GetTemporaryTable fixtures.worldWithTempX (Name fixtures.db0) "X" =
    Some fixtures.tempX /\
  exists w',
    DropTable fixtures.db0 "X" fixtures.worldWithTempX = (Ok tt, w') /\
    dbStates (session w') = dbStates (session fixtures.worldWithTempX) /\
    GetTemporaryTable w' (Name fixtures.db0) "X" = None.
Proof.
  assert (Ha : writeAllowed (session fixtures.worldWithTempX)
                 (RevisionQualifiedName fixtures.db0) = true) by reflexivity.
  assert (Hsys : IsNonAlterableSystemTable "X" = false) by reflexivity.
  assert (Htmp : GetTemporaryTable fixtures.worldWithTempX (Name fixtures.db0) "X" =
                 Some fixtures.tempX) by reflexivity.
  split; [exact Htmp|].
  destruct (DropTable_temporary_first fixtures.db0 "X" fixtures.worldWithTempX
              fixtures.tempX Ha Hsys Htmp) as (w' & Hd & Hs & _ & Hn & _).
  exists w'. auto.
Defined.

Lemma CreateTable_success_witness :
  exists w',
    CreateTable fixtures.db0 "t2" fixtures.intKey 0 fixtures.world0 = (Ok tt, w') /\
    exists r',
      GetRoot fixtures.db0 w' = (Ok r', w') /\
      GetRowData <$> tables r' !! "t2" = Some [] /\
      tables r' !! "vals" = Some fixtures.vals.
Proof.
  assert (H1 : (CreateTable fixtures.db0 "t2" fixtures.intKey 0 fixtures.world0).1
               = Ok tt) by (vm_compute; reflexivity).
  destruct (CreateTable fixtures.db0 "t2" fixtures.intKey 0 fixtures.world0)
    as [res w'] eqn:E.
  cbn in H1. subst res. exists w'. split; [reflexivity|].
  destruct (CreateTable_success fixtures.db0 "t2" fixtures.intKey 0 fixtures.world0
              w' E)
    as (st & ws & headRoot & doltSch & r' & Hst & Hws & _ & _ & _ & _ & _ & Hr & Hn
        & Hother & _).
  exists r'. split; [exact Hr|]. split; [rewrite Hn; reflexivity|].
  rewrite (Hother "vals") by discriminate.
  assert (Hst0 : dbStates (session fixtures.world0)
                   !! RevisionQualifiedName fixtures.db0 = Some fixtures.state0)
    by reflexivity.
  rewrite Hst0 in Hst. injection Hst as <-.
  cbn in Hws. injection Hws as <-. reflexivity.
Defined.

Lemma CreateTable_DropTable_round_trip_witness :
  exists w1 w2,
    CreateTable fixtures.db0 "t2" fixtures.intKey 0 fixtures.world0 = (Ok tt, w1) /\
    DropTable fixtures.db0 "t2" w1 = (Ok tt, w2) /\
    GetRoot fixtures.db0 w2 = (Ok fixtures.root0, w2).
Proof.
  assert (H1 : (CreateTable fixtures.db0 "t2" fixtures.intKey 0 fixtures.world0).1
               = Ok tt) by (vm_compute; reflexivity).
  destruct (CreateTable fixtures.db0 "t2" fixtures.intKey 0 fixtures.world0)
    as [res w1] eqn:E.
  cbn in H1. subst res.
  assert (Hroot : GetRoot fixtures.db0 fixtures.world0 =
                  (Ok fixtures.root0, fixtures.world0)) by reflexivity.
  assert (Htmp : GetTemporaryTable fixtures.world0 (Name fixtures.db0) "t2" = None)
    by reflexivity.
  assert (Hsys : IsNonAlterableSystemTable "t2" = false) by reflexivity.
  assert (Hauto : forall root headRoot doltSch,
            ToDoltSchema root "t2" fixtures.intKey headRoot 0 = Ok doltSch ->
            HasAutoIncrement doltSch = false).
  { intros root headRoot doltSch [= <-]. reflexivity. }
  destruct (CreateTable_DropTable_round_trip fixtures.db0 "t2" fixtures.intKey 0
              fixtures.world0 w1 fixtures.root0 Hroot E Htmp Hsys Hauto)
    as (w2 & Hd & Hr & _).
  exists w1, w2. auto.
Defined.

Section RenameAndTemporary.
Context {doltdbNames : Names} {diffTables : dtables.DiffTables}
        {constructors : Constructors}.

(** A persisted table of a name outside the [dolt_] namespace that the
    root resolves is found, and the lookup keeps the working root. *)
Lemma GetTableInsensitive_resolves (db : Database) (n cn : string) (w : World)
  (st : DbState) :
  dbStates (session w) !! RevisionQualifiedName db = Some st ->
  GetTemporaryTable w (Name db) n = None ->
  HasPrefix (ToLower n) "dolt_" = false ->
  sql.GetTableNameInsensitive n (doltdb.GetTableNames (DbState_WorkingRoot st)) = Some cn ->
  exists tbl w',
    GetTableInsensitive db n w = (Ok (Some tbl), w') /\
    GetRoot db w' = (Ok (DbState_WorkingRoot st), w') /\
    tempTables (session w') = tempTables (session w) /\
    autoIncrement w' = autoIncrement w /\
    writeAllowed (session w') = writeAllowed (session w).
Proof.
  intros Hst Htmp Hnd Hcn.
  unfold GetTableInsensitive, bind, get. rewrite Htmp.
  rewrite (GetRoot_state _ _ _ Hst). unfold getTableInsensitive.
  rewrite (getTableInsensitive_not_dolt _ _ _ _ _ _ Hnd).
  rewrite (getTable_cases _ _ _ _ _ Hst).
  destruct (GetCachedTable st _ n) as [cached |].
  { exists cached, w. rewrite (GetRoot_state _ _ _ Hst). auto. }
  rewrite Hcn.
  pose proof (GetTableNameInsensitive_Some_elem _ _ _ Hcn) as Hin.
  apply GetTableNames_elem in Hin as [tbl Htbl]. rewrite Htbl.
  eexists _, _. split; [reflexivity|].
  split; [|repeat split].
  unfold GetRoot, bind, LookupDbState. cbn. rewrite lookup_insert_eq. reflexivity.
Qed.

(** X18: [RenameTable] refuses a new name that is taken, for a session
    that may write and has a state for the database, an old name that is
    not a non-alterable system table and a new name that is valid and not
    reserved.  The new name is taken when a temporary table carries it, or
    when the working root stores a table under it up to letter case, which
    includes the old name itself written in another case; the call fails
    with table-already-exists and the working root stays as it was.  When
    the name is free the session's root becomes the renamed root on a
    branch, and on a detached head the call fails with the detached-head
    error. *)
Theorem RenameTable_taken_name (db : Database) (old new : string) (w : World)
  (st : DbState) :
  writeAllowed (session w) (RevisionQualifiedName db) = true ->
  dbStates (session w) !! RevisionQualifiedName db = Some st ->
  IsNonAlterableSystemTable old = false ->
  HasDoltPrefix new = false ->
  IsValidTableName new = true ->
  let root := DbState_WorkingRoot st in
  (forall tmp,
     GetTemporaryTable w (Name db) new = Some tmp ->
     RenameTable db old new w = (Err (ErrTableAlreadyExists new), w)) /\
  (GetTemporaryTable w (Name db) new = None ->
   HasPrefix (ToLower new) "dolt_" = false ->
   (forall cn,
      sql.GetTableNameInsensitive new (doltdb.GetTableNames root) = Some cn ->
      exists w',
        RenameTable db old new w = (Err (ErrTableAlreadyExists new), w') /\
        GetRoot db w' = (Ok root, w')) /\
   (sql.GetTableNameInsensitive new (doltdb.GetTableNames root) = None ->
    GetCachedTable st (NewDataCacheKey root) new = None ->
    forall newRoot,
      renameTable root old new = Ok newRoot ->
      match workingSet st with
      | None => RenameTable db old new w =
                  (Err ErrOperationNotSupportedInDetachedHead, w)
      | Some ws => RenameTable db old new w = (Ok tt, rooted db st ws newRoot w) /\
                   GetRoot db (rooted db st ws newRoot w) =
                     (Ok newRoot, rooted db st ws newRoot w)
      end)).
Proof.
  intros Ha Hst Hsys Hpre Hvalid root.
  assert (Hstart : RenameTable db old new w =
            let '(found, w1) := GetTableInsensitive db new w in
            match found with
            | Ok (Some _) => (Err (ErrTableAlreadyExists new), w1)
            | _ => (do newRoot <- lift (renameTable root old new);
                    SetRoot db newRoot) w1
            end).
  { unfold RenameTable, bind. rewrite (CheckAccessForDb_allowed _ _ Ha).
    rewrite (GetRoot_state _ _ _ Hst), Hsys, Hpre, Hvalid. reflexivity. }
  rewrite Hstart. split; [|intros Htmp Hnd; split].
  - intros tmp Htmp. unfold GetTableInsensitive, bind, get. rewrite Htmp.
    reflexivity.
  - intros cn Hcn.
    destruct (GetTableInsensitive_resolves db new cn w st Hst Htmp Hnd Hcn)
      as (tbl & w' & Hget & Hroot & _).
    rewrite Hget. exists w'. split; [reflexivity | exact Hroot].
  - intros Hnone Hcache newRoot Hren.
    unfold GetTableInsensitive, bind, get. rewrite Htmp.
    rewrite (GetRoot_state _ _ _ Hst). unfold getTableInsensitive.
    rewrite (getTableInsensitive_not_dolt _ _ _ _ _ _ Hnd).
    rewrite (getTable_cases _ _ _ _ _ Hst). fold root.
    rewrite Hcache, Hnone. unfold lift. rewrite Hren.
    unfold SetRoot, dsess.SetRoot. rewrite Hst.
    destruct (workingSet st) as [ws |]; [|reflexivity].
    split; [reflexivity | apply rooted_GetRoot].
Qed.


End RenameAndTemporary.

Lemma RenameTable_taken_name_witness :
  GetTemporaryTable fixtures.world0 (Name fixtures.db0) "VALS" = None /\
  sql.GetTableNameInsensitive "VALS" (doltdb.GetTableNames fixtures.root0) =
    Some "vals" /\
  exists w',
    RenameTable fixtures.db0 "vals" "VALS" fixtures.world0 =
      (Err (ErrTableAlreadyExists "VALS"), w') /\
    GetRoot fixtures.db0 w' = (Ok fixtures.root0, w').
Proof.
  assert (Ha : writeAllowed (session fixtures.world0)
                 (RevisionQualifiedName fixtures.db0) = true) by reflexivity.
  assert (Hst : dbStates (session fixtures.world0)
                  !! RevisionQualifiedName fixtures.db0 = Some fixtures.state0)
    by reflexivity.
  assert (Hsys : IsNonAlterableSystemTable "vals" = false) by reflexivity.
  assert (Hpre : HasDoltPrefix "VALS" = false) by reflexivity.
  assert (Hvalid : IsValidTableName "VALS" = true) by reflexivity.
  assert (Htmp : GetTemporaryTable fixtures.world0 (Name fixtures.db0) "VALS" = None)
    by reflexivity.
  assert (Hcn : sql.GetTableNameInsensitive "VALS"
                  (doltdb.GetTableNames (DbState_WorkingRoot fixtures.state0)) =
                Some "vals") by (vm_compute; reflexivity).
  split; [exact Htmp|]. split; [exact Hcn|].
  destruct (RenameTable_taken_name fixtures.db0 "vals" "VALS" fixtures.world0
              fixtures.state0 Ha Hst Hsys Hpre Hvalid) as [_ H].
  destruct (H Htmp eq_refl) as [Htaken _].
  exact (Htaken "vals" Hcn).
Defined.


(** * Tables created with an index, and revisions *)

Section IndexedTables.
Context {doltdbNames : Names} {diffTables : dtables.DiffTables}
        {constructors : Constructors}.
Variable IsText : string -> bool.
Variable IndexOfColName : sql.Schema -> string -> Z.

(** X20: [CreateIndexedTable] reserves every name with the [dolt_] prefix
    other than [dolt_docs], the names of full-text tables included: in a
    session that may write such a name is rejected with
    reserved-table-name and nothing is written.  [CreateTable] makes the
    exception the indexed creation lacks: for a full-text name other than
    [dolt_docs] it goes on to the validity test and to [createSqlTable]. *)
Theorem CreateIndexedTable_reserves_fulltext_names
  (db : Database) (n : string) (sch : sql.PrimaryKeySchema)
  (idxDef : facade.IndexDef) (coll : N) (w : World) :
  writeAllowed (session w) (RevisionQualifiedName db) = true ->
  HasDoltPrefix n = true ->
  String.eqb (ToLower n) DocTableName = false ->
  facade.CreateIndexedTable IsText IndexOfColName db n sch idxDef coll w =
    (Err (ErrReservedTableName n), w) /\
  (IsFullTextTable n = true ->
   CreateTable db n sch coll w =
     if IsValidTableName n then createSqlTable db n sch coll w
     else (Err (ErrInvalidTableName n), w)).
Proof.
  intros Ha Hpre Hdocs. split.
  - unfold facade.CreateIndexedTable, bind.
    rewrite (CheckAccessForDb_allowed _ _ Ha), Hdocs, Hpre. reflexivity.
  - intros Hfts. unfold CreateTable, bind.
    rewrite (CheckAccessForDb_allowed _ _ Ha), Hdocs, Hpre, Hfts. cbn.
    destruct (IsValidTableName n); reflexivity.
Qed.

Lemma checkIndexPrefixes_accepted (sch : sql.Schema) (cols : list facade.IndexColumn) :
  Forall (accepted_index_column IsText IndexOfColName sch) cols ->
  facade.checkIndexPrefixes IsText IndexOfColName sch cols = Ok tt.
Proof.
  induction 1 as [| c cols (col & Hat & Hok) _ IH]; cbn; [reflexivity|].
  rewrite Hat, Hok. exact IH.
Qed.

(** X21: the index definition only adds a check to the creation of the
    table.  When every index column is accepted, [createIndexedSqlTable]
    does what [createSqlTable] does.  When the first column that is not
    accepted is a text column of the primary key with a prefix length, the
    check fails with unsupported-index-prefix for that column; a text
    column outside the primary key may carry a prefix length.  Whenever
    the check fails the call fails and writes nothing. *)
Theorem createIndexedSqlTable_prefix_check
  (db : Database) (n : string) (sch : sql.PrimaryKeySchema)
  (idxDef : facade.IndexDef) (coll : N) (w : World) :
  let check := facade.checkIndexPrefixes IsText IndexOfColName (sql.PkSchema sch)
                 (facade.Columns idxDef) in
  (Forall (accepted_index_column IsText IndexOfColName (sql.PkSchema sch))
          (facade.Columns idxDef) ->
   check = Ok tt /\
   facade.createIndexedSqlTable IsText IndexOfColName db n sch idxDef coll w =
     createSqlTable db n sch coll w) /\
  (forall pre idxCol post col,
     facade.Columns idxDef = pre ++ idxCol :: post ->
     Forall (accepted_index_column IsText IndexOfColName (sql.PkSchema sch)) pre ->
     facade.at_index (sql.PkSchema sch)
       (IndexOfColName (sql.PkSchema sch) (facade.IdxColName idxCol)) = Ok col ->
     sql.PrimaryKey col = true -> IsText (sql.ColType col) = true ->
     (0 < facade.Length idxCol)%Z ->
     check = Err (facade.ErrUnsupportedIndexPrefix (sql.ColName col))) /\
  (forall e, check = Err e ->
     exists e',
       facade.createIndexedSqlTable IsText IndexOfColName db n sch idxDef coll w =
         (Err e', w)).
Proof.
  intros check. subst check. split; [|split].
  - intros Hall. pose proof (checkIndexPrefixes_accepted _ _ Hall) as Hok.
    split; [exact Hok|].
    unfold facade.createIndexedSqlTable, createSqlTable, bind, lift.
    rewrite Hok.
    destruct (GetWorkingSet db w) as [[ws |] w1]; [|reflexivity].
    destruct (HasTable (WorkingRoot ws) n); [reflexivity|].
    destruct (GetHeadRoot db w1) as [[headRoot |] w2]; [|reflexivity].
    destruct (ToDoltSchema (WorkingRoot ws) n sch headRoot coll); [|reflexivity].
    destruct (IsUsingSpatialColAsKey _); reflexivity.
  - intros pre idxCol post col Hcols Hpre Hat Hpk Htext Hlen.
    rewrite Hcols. clear Hcols.
    induction Hpre as [| c cs (col' & Hat' & Hok') _ IH]; cbn.
    + rewrite Hat, Hpk, Htext. cbn.
      destruct (0 <? facade.Length idxCol)%Z eqn:Hl; [reflexivity|].
      apply Z.ltb_ge in Hl. lia.
    + rewrite Hat', Hok'. exact IH.
  - intros e He.
    unfold facade.createIndexedSqlTable, bind, lift. rewrite He.
    unfold GetWorkingSet, bind, LookupDbState.
    destruct (dbStates (session w) !! RevisionQualifiedName db) as [st |] eqn:Hst;
      [|eexists; reflexivity].
    destruct (workingSet st) as [ws |]; [|eexists; reflexivity]. cbn [ret].
    destruct (HasTable (WorkingRoot ws) n); [eexists; reflexivity|].
    unfold GetHeadRoot, bind, GetHeadCommit, lift. rewrite Hst.
    destruct (GetRootValue (headCommit st)) as [headRoot |]; [|eexists; reflexivity].
    destruct (ToDoltSchema (WorkingRoot ws) n sch headRoot coll);
      [|eexists; reflexivity].
    destruct (IsUsingSpatialColAsKey _); eexists; reflexivity.
Qed.

End IndexedTables.

Lemma CreateIndexedTable_reserves_fulltext_names_witness :
  (HasDoltPrefix "dolt_vals_idx_0_fts_position" = true /\
   IsFullTextTable "dolt_vals_idx_0_fts_position" = true) /\
  facade.CreateIndexedTable fixtures.isText fixtures.indexOfColName fixtures.db0
    "dolt_vals_idx_0_fts_position" fixtures.intKey fixtures.keyPrefix 0
    fixtures.world0 =
    (Err (ErrReservedTableName "dolt_vals_idx_0_fts_position"), fixtures.world0) /\
  (CreateTable fixtures.db0 "dolt_vals_idx_0_fts_position" fixtures.intKey 0
     fixtures.world0).1 = Ok tt.
Proof.
  assert (Ha : writeAllowed (session fixtures.world0)
                 (RevisionQualifiedName fixtures.db0) = true) by reflexivity.
  assert (Hpre : HasDoltPrefix "dolt_vals_idx_0_fts_position" = true) by reflexivity.
  assert (Hfts : IsFullTextTable "dolt_vals_idx_0_fts_position" = true)
    by reflexivity.
  split; [split; assumption|].
  destruct (CreateIndexedTable_reserves_fulltext_names fixtures.isText
              fixtures.indexOfColName fixtures.db0 "dolt_vals_idx_0_fts_position"
              fixtures.intKey fixtures.keyPrefix 0 fixtures.world0 Ha Hpre eq_refl)
    as [Hidx Hplain].
  split; [exact Hidx|]. rewrite (Hplain Hfts). vm_compute. reflexivity.
Defined.

Lemma createIndexedSqlTable_prefix_check_witness :
  Forall (accepted_index_column fixtures.isText fixtures.indexOfColName
            (sql.PkSchema fixtures.textKey))
         (facade.Columns fixtures.notePrefix) /\
  facade.createIndexedSqlTable fixtures.isText fixtures.indexOfColName fixtures.db0
    "names" fixtures.textKey fixtures.notePrefix 0 fixtures.world0 =
    createSqlTable fixtures.db0 "names" fixtures.textKey 0 fixtures.world0 /\
  facade.checkIndexPrefixes fixtures.isText fixtures.indexOfColName
    (sql.PkSchema fixtures.textKey) (facade.Columns fixtures.keyPrefix) =
    Err (facade.ErrUnsupportedIndexPrefix "name").
Proof.
  assert (Hall : Forall (accepted_index_column fixtures.isText fixtures.indexOfColName
                           (sql.PkSchema fixtures.textKey))
                        (facade.Columns fixtures.notePrefix)).
  { repeat constructor; eexists; split; reflexivity. }
  split; [exact Hall|].
  split.
  - exact (proj2 (proj1 (createIndexedSqlTable_prefix_check fixtures.isText
                           fixtures.indexOfColName fixtures.db0 "names"
                           fixtures.textKey fixtures.notePrefix 0 fixtures.world0)
                    Hall)).
  - refine (proj1 (proj2 (createIndexedSqlTable_prefix_check fixtures.isText
                            fixtures.indexOfColName fixtures.db0 "names"
                            fixtures.textKey fixtures.keyPrefix 0 fixtures.world0))
              [] _ [] _ eq_refl (Forall_nil_2 _) eq_refl eq_refl eq_refl _).
    reflexivity.
Defined.

Section Revisions.
Context {doltdbNames : Names} {diffTables : dtables.DiffTables}
        {constructors : Constructors}.

Lemma append_cancel (a b c : string) : a +:+ b = a +:+ c -> b = c.
Proof.
  induction a as [| x a IH]; [exact id|].
  rewrite !append_cons. intros [= H]. exact (IH H).
Qed.

Lemma append_grows (a b : string) : b <> "" -> a <> a +:+ b.
Proof.
  intros Hb H. apply (f_equal String.length) in H.
  rewrite length_append in H. destruct b; [congruence | cbn in H; lia].
Qed.

Lemma branch_of_qualified_name (db : Database) (b1 b2 : string) :
  (if String.eqb b1 "" then baseName db else baseName db +:+ "/" +:+ b1) =
  (if String.eqb b2 "" then baseName db else baseName db +:+ "/" +:+ b2) ->
  b1 = b2.
Proof.
  destruct (String.eqb_spec b1 ""), (String.eqb_spec b2 ""); subst; intros H.
  - reflexivity.
  - exfalso. exact (append_grows (baseName db) ("/" +:+ b2) ltac:(discriminate) H).
  - exfalso. symmetry in H.
    exact (append_grows (baseName db) ("/" +:+ b1) ltac:(discriminate) H).
  - apply append_cancel in H. apply (append_cancel "/") in H. exact H.
Qed.

(** X22: a branch view of a database keeps the base name, answers to the
    name it was requested under, and is qualified by its branch: its
    revision-qualified name is [base/branch], or the base name for an empty
    branch.  Two branch views of one database have the same qualified name
    only for the same branch, so a root installed through one branch view
    is not seen through a view of another branch. *)
Theorem branch_views_are_separate
  (db : Database) (requested : string) (spec : facade.SessionDatabaseBranchSpec) :
  let view := facade.WithBranchRevision db requested spec in
  Name view = requested /\
  facade.AliasedName view = facade.AliasedName db /\
  facade.Revision view = facade.Branch spec /\
  RevisionQualifiedName view =
    (if String.eqb (facade.Branch spec) "" then baseName db
     else baseName db +:+ "/" +:+ facade.Branch spec) /\
  (forall requested' spec',
     RevisionQualifiedName (facade.WithBranchRevision db requested' spec') =
       RevisionQualifiedName view ->
     facade.Branch spec' = facade.Branch spec) /\
  (forall requested' spec' r w w',
     facade.Branch spec' <> facade.Branch spec ->
     SetRoot view r w = (Ok tt, w') ->
     GetRoot (facade.WithBranchRevision db requested' spec') w' =
       (match dbStates (session w)
                !! RevisionQualifiedName (facade.WithBranchRevision db requested' spec')
        with
        | Some st => Ok (DbState_WorkingRoot st)
        | None => Err ErrNoRootValueInSession
        end, w')).
Proof.
  intros view. repeat (split; [reflexivity|]). split.
  - intros requested' spec'. unfold RevisionQualifiedName, view. cbn.
    apply branch_of_qualified_name.
  - intros requested' spec' r w w' Hne Hset.
    apply SetRoot_inv in Hset as (st & ws & Hst & Hws & ->).
    unfold GetRoot, bind, LookupDbState. cbn [session set_session set_dbStates dbStates].
    rewrite lookup_insert_ne.
    + destruct (dbStates (session w)
                  !! RevisionQualifiedName
                       (facade.WithBranchRevision db requested' spec'));
        reflexivity.
    + intros Heq. apply Hne. symmetry.
      exact (branch_of_qualified_name db _ _ Heq).
Qed.

End Revisions.

Lemma branch_views_are_separate_witness :
  RevisionQualifiedName fixtures.db0b1 = "mydb/b1" /\
  exists w',
    SetRoot fixtures.db0b1 fixtures.emptyRoot fixtures.worldBranches = (Ok tt, w') /\
    GetRoot fixtures.db0b1 w' = (Ok fixtures.emptyRoot, w') /\
    GetRoot fixtures.db0b2 w' = (Ok fixtures.rootX, w').
Proof.
  split; [reflexivity|].
  assert (H1 : (SetRoot fixtures.db0b1 fixtures.emptyRoot fixtures.worldBranches).1
               = Ok tt) by reflexivity.
  destruct (SetRoot fixtures.db0b1 fixtures.emptyRoot fixtures.worldBranches)
    as [res w'] eqn:E.
  cbn in H1. subst res. exists w'. split; [reflexivity|].
  split; [exact (SetRoot_GetRoot _ _ _ _ E)|].
  destruct (branch_views_are_separate fixtures.db0 "mydb/b1"
              {| facade.RepoState := Ok "refs/heads/b1"; facade.Branch := "b1" |})
    as (_ & _ & _ & _ & _ & Hsep).
  exact (Hsep "mydb/b2"
           {| facade.RepoState := Ok "refs/heads/b2"; facade.Branch := "b2" |}
           fixtures.emptyRoot fixtures.worldBranches w' ltac:(discriminate) E).
Defined.

(** * Further properties of the schema fragments store *)

Section FragmentsMore.
Context {doltdbNames : Names} {diffTables : dtables.DiffTables}
        {constructors : Constructors}.
Variable db : Database.

(** How the interfaces classify the schemas table, as in the section on
    schema fragments above. *)
Hypothesis schemas_not_read_only : IsReadOnlySystemTable SchemasTableName = false.
Hypothesis schemas_dolt_prefix : HasDoltPrefix SchemasTableName = true.
Hypothesis schemas_not_fulltext : IsFullTextTable SchemasTableName = false.

Lemma addFrag_existing (w : World) (r : RootValue)
  (fragType name definition : string) (created : Z) (existingErr : error) :
  sees db w r -> stored r fragType name ->
  exists w',
    addFragToSchemasTable db fragType name definition created existingErr w =
      (Err existingErr, w') /\
    GetRoot db w' = (Ok r, w').
Proof.
  intros Hsees (t & row & Ht & Hfind).
  destruct (getOrCreate_present db schemas_not_read_only schemas_dolt_prefix
              schemas_not_fulltext w r t Hsees Ht)
    as (d & w1 & Hgoc & Hd & Hsees1).
  exists w1. split; [|exact (sees_GetRoot db w1 r Hsees1)].
  unfold addFragToSchemasTable, bind.
  rewrite (sees_access db w r Hsees), Hgoc.
  rewrite (fragFromSchemasTable_schemas db w1 r t d fragType name Hsees1 Hd Ht), Hfind.
  reflexivity.
Qed.

(** X23: the name of a view, of a trigger and of an event is unique up to
    letter case.  In a session that works on a branch and may write, when
    the schemas table stores a fragment of the type under the name,
    written in any letter case, [CreateView] fails with the existing-view
    error for the name of the database, [CreateTrigger] with the
    trigger-exists error and [SaveEvent] with the event-exists error; the
    working root stays as it was. *)
Theorem fragment_names_are_unique (w : World) (r : RootValue) :
  sees db w r ->
  (forall name selectStatement createViewStmt,
     stored r "view" name ->
     exists w',
       CreateView db name selectStatement createViewStmt w =
         (Err (ErrExistingView (Name db) name), w') /\
       GetRoot db w' = (Ok r, w')) /\
  (forall trigger,
     stored r "trigger" (TriggerName trigger) ->
     exists w',
       CreateTrigger db trigger w =
         (Err (ErrTriggerAlreadyExists (TriggerName trigger)), w') /\
       GetRoot db w' = (Ok r, w')) /\
  (forall ed,
     stored r facade.eventFragment (facade.EventName ed) ->
     exists w',
       facade.SaveEvent db ed w =
         (Err (ErrEventAlreadyExists (facade.EventName ed)), w') /\
       GetRoot db w' = (Ok r, w')).
Proof.
  intros Hsees. split; [|split].
  - intros name sel stmt Hs. unfold CreateView.
    exact (addFrag_existing w r _ _ _ _ _ Hsees Hs).
  - intros trigger Hs. unfold CreateTrigger.
    exact (addFrag_existing w r _ _ _ _ _ Hsees Hs).
  - intros ed Hs. unfold facade.SaveEvent.
    exact (addFrag_existing w r _ _ _ _ _ Hsees Hs).
Qed.

Lemma dropFrag_missing (w : World) (r : RootValue) (fragType name : string)
  (missingErr : error) :
  sees db w r -> not_stored db w r fragType name ->
  exists w',
    dropFragFromSchemasTable db fragType name missingErr w = (Err missingErr, w') /\
    GetRoot db w' = (Ok r, w').
Proof.
  intros Hsees [(Hnames & Hmiss) | (t & Ht & Hfind)];
    unfold dropFragFromSchemasTable, bind; rewrite (sees_access db w r Hsees).
  - rewrite (GetTableInsensitive_schemas_absent db w r Hsees Hnames Hmiss).
    exists w. split; [reflexivity | exact (sees_GetRoot db w r Hsees)].
  - destruct (GetTableInsensitive_schemas_present db schemas_not_read_only
                schemas_dolt_prefix schemas_not_fulltext w r t Hsees Ht)
      as (d & w1 & Hget & Hd & Hsees1).
    rewrite Hget. cbn [asWritableDoltTable ret].
    rewrite (fragFromSchemasTable_schemas db w1 r t d fragType name Hsees1 Hd Ht),
      Hfind.
    exists w1. split; [reflexivity | exact (sees_GetRoot db w1 r Hsees1)].
Qed.

(** X24: dropping what is not stored fails and changes no table.  In a
    session that works on a branch and may write, when no fragment of the
    type is stored under the name, [DropView] fails with the
    view-does-not-exist error for the base name of the database,
    [DropTrigger] with the trigger-does-not-exist error and [DropEvent]
    with the event-does-not-exist error; [UpdateEvent] fails like
    [DropEvent] for the original name and saves nothing.  The working
    root stays as it was. *)
Theorem dropping_a_missing_fragment (w : World) (r : RootValue) (name : string) :
  sees db w r ->
  (not_stored db w r "view" name ->
   exists w',
     DropView db name w = (Err (ErrViewDoesNotExist (baseName db) name), w') /\
     GetRoot db w' = (Ok r, w')) /\
  (not_stored db w r "trigger" name ->
   exists w',
     DropTrigger db name w = (Err (ErrTriggerDoesNotExist name), w') /\
     GetRoot db w' = (Ok r, w')) /\
  (not_stored db w r facade.eventFragment name ->
   (exists w',
      facade.DropEvent db name w = (Err (ErrEventDoesNotExist name), w') /\
      GetRoot db w' = (Ok r, w')) /\
   (forall ed, exists w',
      facade.UpdateEvent db name ed w = (Err (ErrEventDoesNotExist name), w') /\
      GetRoot db w' = (Ok r, w'))).
Proof.
  intros Hsees. split; [|split].
  - intros Hn. unfold DropView. exact (dropFrag_missing w r _ _ _ Hsees Hn).
  - intros Hn. unfold DropTrigger. exact (dropFrag_missing w r _ _ _ Hsees Hn).
  - intros Hn.
    destruct (dropFrag_missing w r facade.eventFragment name
                (ErrEventDoesNotExist name) Hsees Hn) as (w' & Hdrop & Hroot).
    split; [exists w'; split; assumption|].
    intros ed. exists w'. split; [|exact Hroot].
    unfold facade.UpdateEvent, bind, facade.DropEvent. rewrite Hdrop. reflexivity.
Qed.

End FragmentsMore.

Lemma sees_worldWithView :
  sees fixtures.db0 fixtures.worldWithView fixtures.rootWithView.
Proof.
  eexists _, _.
  split; [reflexivity|]. split; [reflexivity|]. split; [reflexivity|].
  split; [|split; reflexivity].
  intros key m tbl Hm. cbn in Hm. rewrite lookup_empty in Hm. discriminate Hm.
Qed.

Lemma fragment_names_are_unique_witness :
  stored fixtures.rootWithView "view" "V" /\
  exists w',
    CreateView fixtures.db0 "V" "SELECT 2" "CREATE VIEW V AS SELECT 2"
      fixtures.worldWithView = (Err (ErrExistingView "mydb" "V"), w') /\
    GetRoot fixtures.db0 w' = (Ok fixtures.rootWithView, w').
Proof.
  assert (H1 : IsReadOnlySystemTable SchemasTableName = false) by reflexivity.
  assert (H2 : HasDoltPrefix SchemasTableName = true) by reflexivity.
  assert (H3 : IsFullTextTable SchemasTableName = false) by reflexivity.
  assert (Hs : stored fixtures.rootWithView "view" "V").
  { eexists _, _. split; vm_compute; reflexivity. }
  split; [exact Hs|].
  exact (proj1 (fragment_names_are_unique fixtures.db0 H1 H2 H3
                  fixtures.worldWithView fixtures.rootWithView sees_worldWithView)
           "V" "SELECT 2" "CREATE VIEW V AS SELECT 2" Hs).
Defined.

Lemma dropping_a_missing_fragment_witness :
  not_stored fixtures.db0 fixtures.world0 fixtures.root0 "view" "v" /\
  exists w',
    DropView fixtures.db0 "v" fixtures.world0 =
      (Err (ErrViewDoesNotExist "mydb" "v"), w') /\
    GetRoot fixtures.db0 w' = (Ok fixtures.root0, w').
Proof.
  assert (H1 : IsReadOnlySystemTable SchemasTableName = false) by reflexivity.
  assert (H2 : HasDoltPrefix SchemasTableName = true) by reflexivity.
  assert (H3 : IsFullTextTable SchemasTableName = false) by reflexivity.
  assert (Hn : not_stored fixtures.db0 fixtures.world0 fixtures.root0 "view" "v").
  { left. split; [vm_compute; reflexivity|].
    intros st Hst. vm_compute in Hst. injection Hst as <-. reflexivity. }
  split; [exact Hn|].
  exact (proj1 (dropping_a_missing_fragment fixtures.db0 H1 H2 H3
                  fixtures.world0 fixtures.root0 "v" sees_world0) Hn).
Defined.

Section Events.
Context {doltdbNames : Names} {diffTables : dtables.DiffTables}
        {constructors : Constructors}.
Variable db : Database.

Hypothesis schemas_not_read_only : IsReadOnlySystemTable SchemasTableName = false.
Hypothesis schemas_dolt_prefix : HasDoltPrefix SchemasTableName = true.
Hypothesis schemas_not_fulltext : IsFullTextTable SchemasTableName = false.

Lemma GetEvent_reads (w : World) (r : RootValue) (t : Table) (name : string) :
  sees db w r -> tables r !! SchemasTableName = Some t ->
  exists w',
    facade.GetEvent db name w =
      (Ok (facade.eventOf <$>
             List.find (fun frag => String.eqb (ToLower (facade.fragName frag))
                                               (ToLower name))
                       (omap (facade.fragmentOf facade.eventFragment) (GetRowData t))),
       w') /\
    sees db w' r.
Proof.
  intros Hsees Ht.
  destruct (GetTableInsensitive_schemas_present db schemas_not_read_only
              schemas_dolt_prefix schemas_not_fulltext w r t Hsees Ht)
    as (d & w1 & Hget & Hd & Hsees1).
  exists w1. split; [|exact Hsees1].
  unfold facade.GetEvent, bind. rewrite Hget. cbn [asWritableDoltTable ret].
  unfold facade.getSchemaFragmentsOfType, bind.
  rewrite (DoltTable_schemas db w1 r t d Hsees1 Hd Ht). reflexivity.
Qed.

Lemma no_event_fragment (rows : list Row) (name name' : string) :
  ToLower name' = ToLower name ->
  List.find (isFragment facade.eventFragment name) rows = None ->
  List.find (fun frag => String.eqb (ToLower (facade.fragName frag)) (ToLower name'))
            (omap (facade.fragmentOf facade.eventFragment) rows) = None.
Proof.
  intros Hn. unfold facade.eventFragment.
  induction rows as [| row rows IH]; [reflexivity|].
  cbn [List.find omap list_omap]. intros Hfind.
  destruct (isFragment "event" name row) eqn:Hrow; [discriminate|].
  specialize (IH Hfind).
  destruct (facade.fragmentOf "event" row) as [frag |] eqn:Hfrag; [|exact IH].
  cbn [List.find].
  destruct row as [| [ty | |] [| [n | |] [| [f | |] [| [ | c |] [| [m | |] [|]]]]]];
    try discriminate Hfrag.
  unfold facade.fragmentOf in Hfrag. unfold isFragment in Hrow.
  change (ToLower "event") with "event" in Hrow.
  destruct (String.eqb ty "event") eqn:Hty; [|discriminate Hfrag].
  injection Hfrag as <-. cbn [facade.fragName].
  cbn [andb] in Hrow. rewrite Hn in IH |- *. rewrite Hrow. exact IH.
Qed.

(** X25: an event that was saved can be read back.  In a session that
    works on a branch and may write, from a state where saving the first
    fragment of that name is possible, [SaveEvent] succeeds and [GetEvent]
    then finds the event under its name in any letter case, with the name
    and the statement it was saved with and, as creation time, the start
    of the second in which the saved creation time falls: the table stores
    whole seconds since the epoch. *)
Theorem SaveEvent_GetEvent_round_trip (w : World) (r : RootValue)
  (ed : facade.EventDefinition) (name' : string) :
  sees db w r ->
  first_fragment db w r facade.eventFragment (facade.EventName ed) ->
  ToLower name' = ToLower (facade.EventName ed) ->
  exists w1 w2 mode,
    facade.SaveEvent db ed w = (Ok tt, w1) /\
    facade.GetEvent db name' w1 =
      (Ok (Some {| facade.EventName := facade.EventName ed;
                   facade.EventCreateStatement := facade.EventCreateStatement ed;
                   facade.EventCreatedAt :=
                     gotime.Unix (gotime.Time_Unix (facade.EventCreatedAt ed)) 0;
                   facade.EventSqlMode := mode |}), w2).
Proof.
  intros Hsees Hfirst Hn.
  assert (Hsaved : exists w1 mode r1 rows,
            facade.SaveEvent db ed w = (Ok tt, w1) /\ sees db w1 r1 /\
            (exists t1, tables r1 !! SchemasTableName = Some t1 /\
               GetRowData t1 = rows ++
                 [fragmentRow facade.eventFragment (facade.EventName ed)
                    (facade.EventCreateStatement ed)
                    (gotime.Time_Unix (facade.EventCreatedAt ed)) mode]) /\
            List.find (isFragment facade.eventFragment (facade.EventName ed)) rows
              = None).
  { unfold facade.SaveEvent.
    destruct Hfirst as [(Hnames & Hmiss & Htags) | (t & Ht & Hrows & Hfind)].
    - destruct (getOrCreate_absent db schemas_not_read_only schemas_dolt_prefix
                  schemas_not_fulltext w r Hsees Hnames Hmiss Htags)
        as (d & w0 & Hgoc & Hd & Hsees0).
      destruct (addFrag_steps db w w0 r _
                  {| GetSchema := SchemaTableSchema; GetRowData := []; AutoIncVal := 1 |}
                  d facade.eventFragment (facade.EventName ed)
                  (facade.EventCreateStatement ed) (facade.EventCreatedAt ed)
                  (ErrEventAlreadyExists (facade.EventName ed))
                  Hsees Hgoc Hd Hsees0) as (w1 & mode & Hadd & Hsees1);
        [apply lookup_insert_eq | reflexivity |].
      exists w1, mode. eexists _, []. split; [exact Hadd|]. split; [exact Hsees1|].
      split; [|reflexivity].
      eexists. split; [cbn; apply lookup_insert_eq | reflexivity].
    - destruct (getOrCreate_present db schemas_not_read_only schemas_dolt_prefix
                  schemas_not_fulltext w r t Hsees Ht)
        as (d & w0 & Hgoc & Hd & Hsees0).
      destruct (addFrag_steps db w w0 r r t d facade.eventFragment
                  (facade.EventName ed) (facade.EventCreateStatement ed)
                  (facade.EventCreatedAt ed)
                  (ErrEventAlreadyExists (facade.EventName ed))
                  Hsees Hgoc Hd Hsees0 Ht Hfind) as (w1 & mode & Hadd & Hsees1).
      exists w1, mode. eexists _, (GetRowData t).
      split; [exact Hadd|]. split; [exact Hsees1|]. split; [|exact Hfind].
      eexists. split; [cbn; apply lookup_insert_eq | reflexivity]. }
  destruct Hsaved as (w1 & mode & r1 & rows & Hadd & Hsees1 & (t1 & Ht1 & Hdata) & Hnone).
  destruct (GetEvent_reads w1 r1 t1 name' Hsees1 Ht1) as (w2 & Hget & _).
  exists w1, w2, mode. split; [exact Hadd|].
  rewrite Hget, Hdata, omap_app.
  change (omap (facade.fragmentOf facade.eventFragment)
            [fragmentRow facade.eventFragment (facade.EventName ed)
               (facade.EventCreateStatement ed)
               (gotime.Time_Unix (facade.EventCreatedAt ed)) mode])
    with [{| facade.fragName := facade.EventName ed;
             facade.fragFragment := facade.EventCreateStatement ed;
             facade.fragCreated :=
               gotime.Unix (gotime.Time_Unix (facade.EventCreatedAt ed)) 0;
             facade.fragSqlMode := mode |}].
  rewrite (find_snoc _ _ _ (no_event_fragment rows _ _ Hn Hnone)).
  - reflexivity.
  - cbn. rewrite Hn. apply String.eqb_refl.
Qed.

End Events.

Lemma SaveEvent_GetEvent_round_trip_witness :
  let ed := {| facade.EventName := "ev1";
               facade.EventCreateStatement := "CREATE EVENT ev1 ...";
               facade.EventCreatedAt := 7500000000%Z;
               facade.EventSqlMode := "" |} in
  first_fragment fixtures.db0 fixtures.world0 fixtures.root0 facade.eventFragment
    "ev1" /\
  exists w1 w2 mode,
    facade.SaveEvent fixtures.db0 ed fixtures.world0 = (Ok tt, w1) /\
    facade.GetEvent fixtures.db0 "EV1" w1 =
      (Ok (Some {| facade.EventName := "ev1";
                   facade.EventCreateStatement := "CREATE EVENT ev1 ...";
                   facade.EventCreatedAt := 7000000000%Z;
                   facade.EventSqlMode := mode |}), w2).
Proof.
  intros ed.
  assert (H1 : IsReadOnlySystemTable SchemasTableName = false) by reflexivity.
  assert (H2 : HasDoltPrefix SchemasTableName = true) by reflexivity.
  assert (H3 : IsFullTextTable SchemasTableName = false) by reflexivity.
  assert (Hfirst : first_fragment fixtures.db0 fixtures.world0 fixtures.root0
                     facade.eventFragment "ev1").
  { left. split; [vm_compute; reflexivity|]. split; [|vm_compute; reflexivity].
    intros st Hst. vm_compute in Hst. injection Hst as <-. reflexivity. }
  split; [exact Hfirst|].
  exact (SaveEvent_GetEvent_round_trip fixtures.db0 H1 H2 H3 fixtures.world0
           fixtures.root0 ed "EV1" sees_world0 Hfirst eq_refl).
Defined.

(** * Further properties of [AS OF] lookups *)

Section AsOfMore.
Context {doltdbNames : Names} {diffTables : dtables.DiffTables}
        {constructors : Constructors}.
Variable resolveAsOfCommitRef :
  Database -> string -> string -> M World (option (Commit * RootValue)).
Variable LockedToRoot : DoltTable -> RootValue -> result DoltTable.

(** X26: the table names as of a time are the user tables of the first
    commit at or before that time in the walk from the head: the names of
    its root that do not carry the reserved prefix.  When every commit of
    the walk is later, the list is empty and there is no error.  An [AS OF]
    value that is neither a time nor a string fails with the
    unsupported-type error.  The session is not written to. *)
Theorem GetTableNamesAsOf_time
  (db : Database) (t : Z) (w : World) head cs cm h items :
  CWBHeadRef db = Ok head ->
  NewCommitSpec "HEAD" = Ok cs ->
  Resolve (ddb db) cs (Some head) = Ok cm ->
  HashOf cm = Ok h ->
  GetTopologicalOrderIterator (ddb db) h = Ok items ->
  (forall pre c post m r,
     items = (Ok <$> pre) ++ Ok c :: post ->
     Forall (later_than t) pre ->
     GetCommitMeta c = Ok m -> (Time m <= t)%Z -> GetRootValue c = Ok r ->
     facade.GetTableNamesAsOf resolveAsOfCommitRef db (facade.AsOfTime t) w =
       (Ok (userTables (doltdb.GetTableNames r)), w)) /\
  (forall commits,
     items = Ok <$> commits -> Forall (later_than t) commits ->
     facade.GetTableNamesAsOf resolveAsOfCommitRef db (facade.AsOfTime t) w =
       (Ok [], w)) /\
  (forall goType,
     facade.GetTableNamesAsOf resolveAsOfCommitRef db (facade.AsOfOther goType) w =
       (Err (facade.ErrUnsupportedAsOfType goType), w)).
Proof.
  intros Hhead Hcs Hcm Hh Hitems.
  assert (Hwalk : facade.resolveAsOf resolveAsOfCommitRef db (facade.AsOfTime t) w =
                  (asOfWalk items t, w)).
  { unfold facade.resolveAsOf, bind, lift, resolveAsOfTime.
    rewrite Hhead, Hcs, Hcm, Hh, Hitems. destruct (asOfWalk items t); reflexivity. }
  split; [|split].
  - intros pre c post m r -> Hpre Hm Ht Hr.
    unfold facade.GetTableNamesAsOf, bind. rewrite Hwalk.
    rewrite (asOfWalk_skip _ _ _ Hpre), (asOfWalk_hit _ _ _ _ _ Hm Ht Hr).
    unfold facade.filterDoltInternalTables. rewrite filter_loop. reflexivity.
  - intros commits -> Hlater.
    unfold facade.GetTableNamesAsOf, bind. rewrite Hwalk.
    rewrite <- (app_nil_r (Ok <$> commits)), (asOfWalk_skip _ _ _ Hlater).
    reflexivity.
  - intros goType. unfold facade.GetTableNamesAsOf, facade.resolveAsOf, bind, lift.
    rewrite Hhead. reflexivity.
Qed.

(** X27: an [AS OF] lookup never hands out a temporary table.  Without an
    [AS OF] value the lookup is [GetTableInsensitive].  With one, for a name
    that is not a read-only system table, a table that is found is an
    adapter of a persisted table locked to the root the [AS OF] value
    resolved to; no temporary table and no reflective table is returned,
    whatever the session holds under the name. *)
Theorem GetTableInsensitiveAsOf_locked
  (db : Database) (n : string) (asOf : facade.AsOf) (w w' : World) (tbl : SqlTable) :
  facade.GetTableInsensitiveAsOf resolveAsOfCommitRef LockedToRoot db n (Some asOf) w
    = (Ok (Some tbl), w') ->
  IsReadOnlySystemTable n = false ->
  facade.GetTableInsensitiveAsOf resolveAsOfCommitRef LockedToRoot db n None w =
    GetTableInsensitive db n w /\
  (exists head root w1 d d',
     facade.resolveAsOf resolveAsOfCommitRef db asOf w = (Ok (Some (head, root)), w1) /\
     LockedToRoot d root = Ok d' /\
     (tbl = ReadOnly d' \/ tbl = Alterable d' \/ tbl = Writable d')) /\
  (forall tmp, tbl <> Temporary tmp) /\
  (forall k, tbl <> Exact k).
Proof.
  intros H Hsys. split; [reflexivity|].
  assert (Hlocked : exists head root w1 d d',
            facade.resolveAsOf resolveAsOfCommitRef db asOf w =
              (Ok (Some (head, root)), w1) /\
            LockedToRoot d root = Ok d' /\
            (tbl = ReadOnly d' \/ tbl = Alterable d' \/ tbl = Writable d')).
  { unfold facade.GetTableInsensitiveAsOf, bind in H.
    destruct (facade.resolveAsOf resolveAsOfCommitRef db asOf w)
      as [[[[head root] |] |] w1]; try discriminate H.
    destruct (getTableInsensitive db (Some head) root n w1)
      as [[[table |] |] w2]; try discriminate H.
    rewrite Hsys in H. unfold facade.lockToRoot, bind, lift in H.
    exists head, root, w1.
    destruct table as [d | d | d | | | | |]; try discriminate H;
      destruct (LockedToRoot d root) as [d' |] eqn:Hlock; try discriminate H;
      injection H as <- <-; exists d, d'; auto. }
  split; [exact Hlocked|].
  destruct Hlocked as (_ & _ & _ & _ & d' & _ & _ & [-> | [-> | ->]]);
    split; discriminate.
Qed.

End AsOfMore.

Lemma GetTableNamesAsOf_time_witness :
  facade.GetTableNamesAsOf fixtures.noCommitRefs fixtures.db0 (facade.AsOfTime 250)
    fixtures.world0 = (Ok ["vals"], fixtures.world0) /\
  facade.GetTableNamesAsOf fixtures.noCommitRefs fixtures.db0 (facade.AsOfTime 50)
    fixtures.world0 = (Ok [], fixtures.world0).
Proof.
  assert (Hhead : CWBHeadRef fixtures.db0 = Ok "refs/heads/main") by reflexivity.
  assert (Hcs : NewCommitSpec "HEAD" = Ok "HEAD") by reflexivity.
  assert (Hcm : Resolve (ddb fixtures.db0) "HEAD" (Some "refs/heads/main") =
                Ok fixtures.c300) by reflexivity.
  assert (Hh : HashOf fixtures.c300 = Ok "c300") by reflexivity.
  assert (Hitems : GetTopologicalOrderIterator (ddb fixtures.db0) "c300" =
                   Ok [Ok fixtures.c300; Ok fixtures.c200; Ok fixtures.c100])
    by reflexivity.
  destruct (GetTableNamesAsOf_time fixtures.noCommitRefs fixtures.db0 250
              fixtures.world0 _ _ _ _ _ Hhead Hcs Hcm Hh Hitems) as [Hhit _].
  destruct (GetTableNamesAsOf_time fixtures.noCommitRefs fixtures.db0 50
              fixtures.world0 _ _ _ _ _ Hhead Hcs Hcm Hh Hitems) as [_ [Hnone _]].
  split.
  - refine (Hhit [fixtures.c300] fixtures.c200 [Ok fixtures.c100]
              {| Time := 200 |} fixtures.root0 eq_refl _ eq_refl _ eq_refl).
    + repeat constructor. exists {| Time := 300 |}. split; [reflexivity | cbn; lia].
    + cbn; lia.
  - refine (Hnone [fixtures.c300; fixtures.c200; fixtures.c100] eq_refl _).
    repeat constructor; eexists; (split; [reflexivity | cbn; lia]).
Defined.

Lemma GetTableInsensitiveAsOf_locked_witness :
  let vals200 := {| tableName := "vals"; sch := GetSchema fixtures.vals;
                    table := fixtures.vals |} in
  exists w',
    facade.GetTableInsensitiveAsOf fixtures.noCommitRefs fixtures.lockedToRoot
      fixtures.db0 "vals" (Some (facade.AsOfTime 250)) fixtures.world0 =
      (Ok (Some (Alterable vals200)), w') /\
    forall tmp, Alterable vals200 <> Temporary tmp.
Proof.
  intros vals200.
  assert (H1 : (facade.GetTableInsensitiveAsOf fixtures.noCommitRefs
                  fixtures.lockedToRoot fixtures.db0 "vals"
                  (Some (facade.AsOfTime 250)) fixtures.world0).1 =
               Ok (Some (Alterable vals200))) by (vm_compute; reflexivity).
  destruct (facade.GetTableInsensitiveAsOf fixtures.noCommitRefs
              fixtures.lockedToRoot fixtures.db0 "vals"
              (Some (facade.AsOfTime 250)) fixtures.world0) as [res w'] eqn:E.
  cbn [fst] in H1. subst res. exists w'. split; [reflexivity|].
  assert (Hsys : IsReadOnlySystemTable "vals" = false) by reflexivity.
  exact (proj1 (proj2 (proj2
           (GetTableInsensitiveAsOf_locked fixtures.noCommitRefs
              fixtures.lockedToRoot fixtures.db0 "vals" (facade.AsOfTime 250)
              fixtures.world0 w' _ E Hsys)))).
Defined.

(** * Further properties of full-text names, collation and the branches *)

Section FulltextMore.
Context {doltdbNames : Names} {diffTables : dtables.DiffTables}
        {constructors : Constructors}.

Lemma HasPrefix_app (p s : string) : HasPrefix (p +:+ s) p = true.
Proof.
  induction p as [| c p IH]; [reflexivity|].
  rewrite append_cons. cbn. rewrite Ascii.eqb_refl. exact IH.
Qed.

Lemma OuterLoop_untaken (steps : nat) (names : list string) (t i : string) :
  forall (start : N) (p : string),
    OuterLoop steps names t i start = Some p -> prefixTaken names p = false.
Proof.
  induction steps as [| steps IH]; intros start p; cbn; [discriminate|].
  destruct (prefixTaken names (ToLower (prefixFormat t i start))) eqn:Htaken.
  - apply IH.
  - intros [= <-]. exact Htaken.
Qed.

Lemma prefixTaken_false (names : list string) (p n : string) :
  prefixTaken names p = false -> n ∈ names -> HasPrefix (ToLower n) p = false.
Proof.
  unfold prefixTaken. intros H Hin.
  destruct (HasPrefix (ToLower n) p) eqn:Hp; [|reflexivity].
  assert (existsb (fun tableName => HasPrefix (ToLower tableName) p) names = true).
  { apply existsb_exists. exists n. split; [apply list_elem_of_In, Hin | exact Hp]. }
  congruence.
Qed.

(** X28: the names [CreateFulltextTableNames] makes for the four tables of
    an index are new: none of them is the name of a table of the working
    root, compared without regard to letter case.  The call reads the
    session and does not write to it. *)
Theorem CreateFulltextTableNames_fresh
  (steps : nat) (db : Database) (t i : string) (w w' : World)
  (names : IndexTableNames) :
  CreateFulltextTableNames steps db t i w = (Ok (Some names), w') ->
  w' = w /\
  exists r,
    GetRoot db w = (Ok r, w) /\
    forall n, n ∈ doltdb.GetTableNames r ->
      Forall (fun x => ToLower n <> x)
        [Position names; DocCount names; GlobalCount names; RowCount names].
Proof.
  unfold CreateFulltextTableNames, GetAllTableNames, bind.
  destruct (GetRoot db w) as [[r |] w0] eqn:Hroot; [|discriminate].
  assert (w0 = w) as ->.
  { unfold GetRoot, bind, LookupDbState in Hroot.
    destruct (dbStates (session w) !! RevisionQualifiedName db);
      inversion Hroot; reflexivity. }
  cbn [ret].
  destruct (OuterLoop steps (doltdb.GetTableNames r) t i 0) as [p |] eqn:Hloop;
    [|discriminate].
  intros [= <- <-]. split; [reflexivity|]. exists r. split; [reflexivity|].
  intros n Hin.
  pose proof (prefixTaken_false _ _ _ (OuterLoop_untaken _ _ _ _ _ _ Hloop) Hin)
    as Hfree.
  cbn [Position DocCount GlobalCount RowCount].
  repeat constructor; intros Heq; rewrite Heq, HasPrefix_app in Hfree;
    discriminate Hfree.
Qed.

End FulltextMore.

Lemma CreateFulltextTableNames_fresh_witness :
  exists names,
    CreateFulltextTableNames 2 fixtures.db0 "Vals" "idx" fixtures.worldFts =
      (Ok (Some names), fixtures.worldFts) /\
    Position names = "dolt_vals_idx_1_fts_position" /\
    forall n, n ∈ doltdb.GetTableNames fixtures.rootFts ->
      Forall (fun x => ToLower n <> x)
        [Position names; DocCount names; GlobalCount names; RowCount names].
Proof.
  eexists. split; [vm_compute; reflexivity|]. split; [reflexivity|].
  assert (E : CreateFulltextTableNames 2 fixtures.db0 "Vals" "idx" fixtures.worldFts =
              (Ok (Some {| Config := "dolt_Vals_fts_config";
                           Position := "dolt_vals_idx_1_fts_position";
                           DocCount := "dolt_vals_idx_1_fts_doc_count";
                           GlobalCount := "dolt_vals_idx_1_fts_global_count";
                           RowCount := "dolt_vals_idx_1_fts_row_count" |}),
               fixtures.worldFts)) by (vm_compute; reflexivity).
  destruct (CreateFulltextTableNames_fresh 2 fixtures.db0 "Vals" "idx"
              fixtures.worldFts fixtures.worldFts _ E) as (_ & r & Hr & Hfresh).
  assert (Hroot : GetRoot fixtures.db0 fixtures.worldFts =
                  (Ok fixtures.rootFts, fixtures.worldFts)) by reflexivity.
  rewrite Hroot in Hr. injection Hr as <-. exact Hfresh.
Defined.

Section CollationAndBranches.
Context {doltdbNames : Names} {diffTables : dtables.DiffTables}
        {constructors : Constructors}.
Variable Collation_Default Collation_Unspecified : N.

(** X29: the collation that was set is the collation that is read.  In a
    session that may write and works on a branch, [SetCollation] succeeds
    and [GetCollation] then returns the collation given, or the default
    one when the unspecified collation was given; the tables of the
    working root are kept.  On a detached head [SetCollation] fails with
    the detached-head error and writes nothing.  [GetCollation] never
    fails: without a state for the database it answers the default
    collation. *)
Theorem SetCollation_GetCollation (db : Database) (c : N) (w : World) (st : DbState) :
  writeAllowed (session w) (RevisionQualifiedName db) = true ->
  dbStates (session w) !! RevisionQualifiedName db = Some st ->
  match workingSet st with
  | Some ws =>
      exists w' r',
        facade.SetCollation Collation_Default Collation_Unspecified db c w =
          (Ok tt, w') /\
        facade.GetCollation Collation_Default db w' =
          (Ok (if N.eqb c Collation_Unspecified then Collation_Default else c), w') /\
        GetRoot db w' = (Ok r', w') /\
        tables r' = tables (WorkingRoot ws)
  | None =>
      facade.SetCollation Collation_Default Collation_Unspecified db c w =
        (Err ErrOperationNotSupportedInDetachedHead, w)
  end /\
  (forall db' w0,
     dbStates (session w0) !! RevisionQualifiedName db' = None ->
     facade.GetCollation Collation_Default db' w0 = (Ok Collation_Default, w0)).
Proof.
  intros Ha Hst. split.
  - unfold facade.SetCollation, bind.
    rewrite (CheckAccessForDb_allowed _ _ Ha), (GetRoot_state _ _ _ Hst).
    unfold SetRoot, dsess.SetRoot. rewrite Hst.
    destruct (workingSet st) as [ws |] eqn:Hws; [|reflexivity].
    eexists _, _. split; [reflexivity|].
    unfold facade.GetCollation, GetRoot, bind, LookupDbState. cbn.
    rewrite !lookup_insert_eq. cbn. unfold DbState_WorkingRoot. rewrite Hws.
    repeat split.
  - intros db' w0 Hnone.
    unfold facade.GetCollation, GetRoot, bind, LookupDbState. rewrite Hnone.
    reflexivity.
Qed.

(** The working sets a branch contributes, as [otherWorkingSets] reads
    them: none for the working set being dropped from and for a branch
    without working set. *)
Lemma otherWorkingSets_ok (ddb : DoltDB) (ws : string) (branches : list string)
  (wses : list doltdb.WorkingSet) :
  otherWorkingSets ddb ws branches = Ok wses ->
  wses =
    omap (fun b => match ResolveWorkingSet ddb (WorkingSetRefForHead b) with
                   | Ok w => Some w
                   | Err _ => None
                   end)
         (List.filter (fun b => negb (String.eqb (WorkingSetRefForHead b) ws))
                      branches).
Proof.
  revert wses. induction branches as [| b rest IH]; intros wses; cbn.
  - intros [= <-]. reflexivity.
  - destruct (String.eqb (WorkingSetRefForHead b) ws); cbn; [exact (IH wses)|].
    destruct (ResolveWorkingSet ddb (WorkingSetRefForHead b)) as [w0 | e].
    + destruct (otherWorkingSets ddb ws rest) as [wses0 |]; [|discriminate].
      intros [= <-]. rewrite (IH wses0 eq_refl). reflexivity.
    + destruct e; try discriminate. exact (IH wses).
Qed.

(** X30: which working sets count when a table is removed from the
    auto-increment tracker.  When [otherWorkingSets] succeeds its result is
    the working sets of the branches, in the order of the branches,
    leaving out the working set the table is dropped from, which is never
    resolved, and the branches that have no working set.  When it fails,
    the error is the one some branch other than the current one resolved
    to, and it is not the working-set-not-found error. *)
Theorem otherWorkingSets_spec (ddb : DoltDB) (ws : string) (branches : list string) :
  match otherWorkingSets ddb ws branches with
  | Ok wses =>
      wses =
        omap (fun b => match ResolveWorkingSet ddb (WorkingSetRefForHead b) with
                       | Ok w => Some w
                       | Err _ => None
                       end)
             (List.filter (fun b => negb (String.eqb (WorkingSetRefForHead b) ws))
                          branches)
  | Err e =>
      e <> ErrWorkingSetNotFound /\
      exists b, b ∈ branches /\ WorkingSetRefForHead b <> ws /\
                ResolveWorkingSet ddb (WorkingSetRefForHead b) = Err e
  end.
Proof.
  destruct (otherWorkingSets ddb ws branches) as [wses | e] eqn:H;
    [exact (otherWorkingSets_ok _ _ _ _ H)|].
  induction branches as [| b rest IH]; cbn in H; [discriminate|].
  assert (Hrest : otherWorkingSets ddb ws rest = Err e ->
                  e <> ErrWorkingSetNotFound /\
                  exists b0, b0 ∈ b :: rest /\ WorkingSetRefForHead b0 <> ws /\
                             ResolveWorkingSet ddb (WorkingSetRefForHead b0) = Err e).
  { intros Hr. destruct (IH Hr) as (Hne & b0 & Hin & Hb0).
    split; [exact Hne|]. exists b0. split; [right; exact Hin | exact Hb0]. }
  destruct (String.eqb_spec (WorkingSetRefForHead b) ws) as [Heq | Hneq];
    [exact (Hrest H)|].
  destruct (ResolveWorkingSet ddb (WorkingSetRefForHead b)) as [w0 | e0] eqn:Hres.
  - destruct (otherWorkingSets ddb ws rest) as [wses0 | e1]; [discriminate|].
    injection H as <-. exact (Hrest eq_refl).
  - assert (Hhere : e0 = e -> e <> ErrWorkingSetNotFound ->
                    e <> ErrWorkingSetNotFound /\
                    exists b0, b0 ∈ b :: rest /\ WorkingSetRefForHead b0 <> ws /\
                               ResolveWorkingSet ddb (WorkingSetRefForHead b0) = Err e).
    { intros <- Hne. split; [exact Hne|]. exists b.
      split; [left | split; [exact Hneq | exact Hres]]. }
    destruct e0; try (injection H as <-; apply Hhere; [reflexivity | discriminate]).
    exact (Hrest H).
Qed.

End CollationAndBranches.

Lemma SetCollation_GetCollation_witness :
  exists w',
    facade.SetCollation 45 0 fixtures.db0 0 fixtures.world0 = (Ok tt, w') /\
    facade.GetCollation 45 fixtures.db0 w' = (Ok 45%N, w').
Proof.
  assert (Ha : writeAllowed (session fixtures.world0)
                 (RevisionQualifiedName fixtures.db0) = true) by reflexivity.
  assert (Hst : dbStates (session fixtures.world0)
                  !! RevisionQualifiedName fixtures.db0 = Some fixtures.state0)
    by reflexivity.
  destruct (SetCollation_GetCollation 45 0 fixtures.db0 0 fixtures.world0
              fixtures.state0 Ha Hst) as [(w' & r' & Hset & Hget & _) _].
  exists w'. split; [exact Hset | exact Hget].
Defined.
